(** * kitchensink migration driver: the generation-validation-repair core

    A shallow embedding of the control code of [ai_migration]
    ([components/file_utils.py], [components/openai_client.py],
    [components/test_runner.py], [migration/entity_migrator.py],
    [migration/repository_migrator.py], [migration/service_migrator.py],
    [migration/rest_migrator.py]) and the properties of its validators,
    package resolver, fallback stubs, query gateway, prompt shortening,
    solution applicator, repair steps, test gate and migrators.

    Python text is a sequence of characters; a character is a code point
    below 256, classified as Python classifies it ([str.isspace], the [\s]
    and [\w] of [re], [str.splitlines]).  Printing is not modelled.  The
    file tree is a finite list of (path, content) pairs; directories and
    operating-system errors other than reading a missing file are not
    modelled.  A file is known by the text of its path (no links, no part
    [..] in a path); the texts kept in files hold no carriage return,
    which reading in text mode would turn into a line feed; and the names
    put into the replacement of a [re.sub] hold no backslash, which
    [re.sub] would read as an escape. *)

From Stdlib Require Import List Ascii Bool Arith ZArith Lia.
From Stdlib Require String.
Import ListNotations.
Import String.StringSyntax.
Delimit Scope string_scope with string.


(* ===================================================================== *)
(** ** Python strings *)
(* ===================================================================== *)

Module PyStr.

(** Python's [str]. *)
Abbreviation str := (list ascii) (only parsing).

(** A string literal of the source. *)
Definition lit (s : String.string) : str :=
  String.list_ascii_of_string s.
Arguments lit s%_string.

Definition code (c : ascii) : nat := nat_of_ascii c.

Definition chr_eqb (a b : ascii) : bool := Ascii.eqb a b.

Fixpoint str_eqb (a b : str) : bool :=
  match a, b with
  | [], [] => true
  | x :: a', y :: b' => chr_eqb x y && str_eqb a' b'
  | _, _ => false
  end.

(** [str.isspace] of one character, which is also [\s] of [re]. *)
Definition is_space (c : ascii) : bool :=
  let n := code c in
  ((9 <=? n) && (n <=? 13)) || ((28 <=? n) && (n <=? 32))
  || (n =? 133) || (n =? 160).

(** [\w] of [re] on [str] patterns: alphanumeric or underscore. *)
Definition is_word (c : ascii) : bool :=
  let n := code c in
  ((48 <=? n) && (n <=? 57)) || ((65 <=? n) && (n <=? 90)) || (n =? 95)
  || ((97 <=? n) && (n <=? 122))
  || (n =? 170) || (n =? 178) || (n =? 179) || (n =? 181) || (n =? 185)
  || (n =? 186) || ((188 <=? n) && (n <=? 190))
  || ((192 <=? n) && (n <=? 214)) || ((216 <=? n) && (n <=? 246))
  || (248 <=? n).

(** The line boundaries of [str.splitlines]. *)
Definition is_linebreak (c : ascii) : bool :=
  let n := code c in
  ((10 <=? n) && (n <=? 13)) || ((28 <=? n) && (n <=? 30)) || (n =? 133).

(** [c.lower()] *)
Definition lower_chr (c : ascii) : ascii :=
  let n := code c in
  if ((65 <=? n) && (n <=? 90))
     || ((192 <=? n) && (n <=? 222) && negb (n =? 215))
  then ascii_of_nat (n + 32) else c.

Definition lower (s : str) : str := map lower_chr s.

(** [s.startswith(p)] *)
Fixpoint startswith (p s : str) : bool :=
  match p, s with
  | [], _ => true
  | a :: p', b :: s' => chr_eqb a b && startswith p' s'
  | _ :: _, [] => false
  end.

(** [s.endswith(p)] *)
Definition endswith (p s : str) : bool := startswith (rev p) (rev s).

(** [sub in s] *)
Fixpoint contains (sub s : str) : bool :=
  startswith sub s ||
  match s with
  | [] => false
  | _ :: s' => contains sub s'
  end.

(** [s.find(sub)]: the least index at which [sub] occurs, else -1. *)
Fixpoint find_from (sub s : str) (i : Z) : Z :=
  if startswith sub s then i
  else match s with
       | [] => (-1)%Z
       | _ :: s' => find_from sub s' (i + 1)%Z
       end.

Definition find (sub s : str) : Z := find_from sub s 0%Z.

(** [s.rfind(sub)]: the greatest index at which [sub] occurs, else -1. *)
Fixpoint rfind_from (sub s : str) (i : Z) : Z :=
  let later := match s with
               | [] => (-1)%Z
               | _ :: s' => rfind_from sub s' (i + 1)%Z
               end in
  if (0 <=? later)%Z then later
  else if startswith sub s then i else (-1)%Z.

Definition rfind (sub s : str) : Z := rfind_from sub s 0%Z.

(** [s[a:b]] for indices that are not negative. *)
Definition slice (a b : Z) (s : str) : str :=
  firstn (Z.to_nat b - Z.to_nat a) (skipn (Z.to_nat a) s).

(** [s.lstrip()], [s.rstrip()], [s.strip()] *)
Fixpoint lstrip (s : str) : str :=
  match s with
  | c :: s' => if is_space c then lstrip s' else s
  | [] => []
  end.

Definition rstrip (s : str) : str := rev (lstrip (rev s)).

Definition strip (s : str) : str := rstrip (lstrip s).

(** [s.replace(old, new)].  Occurrences are taken from left to right and
    do not overlap; [skip] counts the characters of an occurrence that are
    still to be passed over.  With an empty [old], [new] is put before
    every character and at the end. *)
Fixpoint replace_go (old new s : str) (skip : nat) : str :=
  match s with
  | [] => match old with [] => new | _ => [] end
  | c :: s' =>
      match skip with
      | S n => replace_go old new s' n
      | O =>
          match old with
          | [] => new ++ c :: replace_go old new s' 0
          | _ :: old' =>
              if startswith old s
              then new ++ replace_go old new s' (length old')
              else c :: replace_go old new s' 0
          end
      end
  end.

Definition replace (old new s : str) : str := replace_go old new s 0.

(** [s.split(sep)] for a separator that is not empty; [cur] holds the
    current part, reversed. *)
Fixpoint split_go (sep s : str) (skip : nat) (cur : str) : list str :=
  match s with
  | [] => [rev cur]
  | c :: s' =>
      match skip with
      | S n => split_go sep s' n cur
      | O =>
          if startswith sep s
          then rev cur :: split_go sep s' (length sep - 1) []
          else split_go sep s' 0 (c :: cur)
      end
  end.

Definition split (sep s : str) : list str := split_go sep s 0 [].

(** [s.splitlines()]: a carriage return followed by a line feed is one
    boundary, and a text that ends at a boundary has no empty last line. *)
Fixpoint splitlines_go (s cur : str) : list str :=
  match s with
  | [] => match cur with [] => [] | _ => [rev cur] end
  | c :: s' =>
      if is_linebreak c then
        rev cur ::
        match s' with
        | d :: s'' =>
            if (code c =? 13) && (code d =? 10)
            then splitlines_go s'' []
            else splitlines_go s' []
        | [] => splitlines_go s' []
        end
      else splitlines_go s' (c :: cur)
  end.

Definition splitlines (s : str) : list str := splitlines_go s [].

(** [sep.join(parts)] *)
Fixpoint join (sep : str) (parts : list str) : str :=
  match parts with
  | [] => []
  | [p] => p
  | p :: rest => p ++ sep ++ join sep rest
  end.

(** [xs.index(x)] on a list of strings: the first position, if any. *)
Fixpoint index_of (x : str) (xs : list str) : option nat :=
  match xs with
  | [] => None
  | y :: ys => if str_eqb y x then Some 0
               else option_map S (index_of x ys)
  end.

(** [xs[a:-1]] *)
Definition slice_to_last {A} (a : nat) (xs : list A) : list A :=
  skipn a (removelast xs).

(** [xs[-1]] of a list of strings that is not empty *)
Definition last_part (xs : list str) : str := last xs [].

(** Truthiness of a string: it is not empty. *)
Definition truthy (s : str) : bool :=
  match s with [] => false | _ => true end.

(** [s.find(sub, start)] for [0 <= start <= len(s)] *)
Definition find_at (sub s : str) (start : Z) : Z :=
  let r := find sub (skipn (Z.to_nat start) s) in
  if (r <? 0)%Z then (-1)%Z else (start + r)%Z.

(** [s[:m]]; a negative [m] counts from the end. *)
Definition upto (m : Z) (s : str) : str :=
  if (m <? 0)%Z then firstn (length s - Z.to_nat (- m)) s
  else firstn (Z.to_nat m) s.

End PyStr.
Import PyStr.

(* ===================================================================== *)
(** ** The regular expressions of [re] that the source uses *)
(* ===================================================================== *)

(** Literal text, one or more characters of a class ([\s+], [\w+],
    [[^;]+]), sequence, alternation, an optional part and capturing
    groups, matched as [re] matches: leftmost, each repetition as long as
    possible, giving characters back when what follows does not match. *)

Module Re.

Inductive regex : Type :=
| Lit (s : str)
| Plus (p : ascii -> bool)
| Cat (r1 r2 : regex)
| Alt (r1 r2 : regex)
| Opt (r : regex)
| Group (n : nat) (r : regex).

(** The text of the groups of a match, the latest capture first. *)
Definition captures := list (nat * str).

(** [m.group(n)]; a group that took no part in the match gives the empty
    text, as in the tuples of [re.findall]. *)
Definition group (n : nat) (caps : captures) : str :=
  match List.find (fun p => fst p =? n) caps with
  | Some (_, t) => t
  | None => []
  end.

Definition cont := str -> captures -> option (str * captures).

Fixpoint drop_prefix (p s : str) : option str :=
  match p, s with
  | [], _ => Some s
  | a :: p', b :: s' => if chr_eqb a b then drop_prefix p' s' else None
  | _ :: _, [] => None
  end.

(** The longest run of characters of class [p] at the head of [s],
    reversed, and what follows it. *)
Fixpoint span_rev (p : ascii -> bool) (s acc : str) : str * str :=
  match s with
  | c :: s' => if p c then span_rev p s' (c :: acc) else (acc, s)
  | [] => (acc, [])
  end.

(** Try the continuation after the whole run, then after giving back one
    character, two, ... while at least one character stays. *)
Fixpoint plus_back (taken_rev rest : str) (caps : captures) (k : cont)
  : option (str * captures) :=
  match taken_rev with
  | [] => None
  | c :: t =>
      match k rest caps with
      | Some r => Some r
      | None => plus_back t (c :: rest) caps k
      end
  end.

Fixpoint rx (r : regex) (s : str) (caps : captures) (k : cont)
  : option (str * captures) :=
  match r with
  | Lit l =>
      match drop_prefix l s with
      | Some rest => k rest caps
      | None => None
      end
  | Plus p =>
      let '(taken_rev, rest) := span_rev p s [] in
      plus_back taken_rev rest caps k
  | Cat r1 r2 => rx r1 s caps (fun s' caps' => rx r2 s' caps' k)
  | Alt r1 r2 =>
      match rx r1 s caps k with
      | Some x => Some x
      | None => rx r2 s caps k
      end
  | Opt r1 =>
      match rx r1 s caps k with
      | Some x => Some x
      | None => k s caps
      end
  | Group n r1 =>
      rx r1 s caps
         (fun s' caps' =>
            k s' ((n, firstn (length s - length s') s) :: caps'))
  end.

(** A match: the matched text, the groups, and the text after it. *)
Record found : Type := Found {
  m_text : str;
  m_caps : captures;
  m_rest : str
}.

(** [re.match(r, s)]: a match that starts at the head of [s]. *)
Definition match_at (r : regex) (s : str) : option found :=
  match rx r s [] (fun s' caps => Some (s', caps)) with
  | Some (rest, caps) =>
      Some (Found (firstn (length s - length rest) s) caps rest)
  | None => None
  end.

(** [re.search(r, s)]: the leftmost match, with its start index. *)
Fixpoint search_from (r : regex) (s : str) (i : nat) : option (nat * found) :=
  match match_at r s with
  | Some m => Some (i, m)
  | None =>
      match s with
      | [] => None
      | _ :: s' => search_from r s' (S i)
      end
  end.

Definition search (r : regex) (s : str) : option (nat * found) :=
  search_from r s 0.

(** [re.findall(r, s)]: the groups of the matches from left to right,
    each search starting where the previous match ended ([skip] counts the
    characters of a match still to be passed over). *)
Fixpoint findall_go (r : regex) (s : str) (skip : nat) : list captures :=
  match s with
  | [] =>
      match skip, match_at r [] with
      | O, Some m => [m_caps m]
      | _, _ => []
      end
  | _ :: s' =>
      match skip with
      | S n => findall_go r s' n
      | O =>
          match match_at r s with
          | Some m => m_caps m :: findall_go r s' (length (m_text m) - 1)
          | None => findall_go r s' 0
          end
      end
  end.

Definition findall (r : regex) (s : str) : list captures :=
  findall_go r s 0.

(** [re.sub(r, repl, s)]: every match, from left to right, is replaced by
    the text [repl] builds from its groups. *)
Fixpoint sub_go (r : regex) (repl : captures -> str) (s : str) (skip : nat)
  : str :=
  match s with
  | [] =>
      match skip, match_at r [] with
      | O, Some m => repl (m_caps m)
      | _, _ => []
      end
  | c :: s' =>
      match skip with
      | S n => sub_go r repl s' n
      | O =>
          match match_at r s with
          | Some m =>
              match m_text m with
              | [] => repl (m_caps m) ++ c :: sub_go r repl s' 0
              | _ :: t => repl (m_caps m) ++ sub_go r repl s' (length t)
              end
          | None => c :: sub_go r repl s' 0
          end
      end
  end.

Definition sub (r : regex) (repl : captures -> str) (s : str) : str :=
  sub_go r repl s 0.

(** What a regular expression denotes: the texts it matches in full. *)
Inductive matches : regex -> str -> Prop :=
| MLit l : matches (Lit l) l
| MPlus p w : w <> [] -> forallb p w = true -> matches (Plus p) w
| MCat r1 r2 a b :
    matches r1 a -> matches r2 b -> matches (Cat r1 r2) (a ++ b)
| MAltL r1 r2 a : matches r1 a -> matches (Alt r1 r2) a
| MAltR r1 r2 a : matches r2 a -> matches (Alt r1 r2) a
| MOptSome r a : matches r a -> matches (Opt r) a
| MOptNone r : matches (Opt r) []
| MGroup n r a : matches r a -> matches (Group n r) a.

(** The longest run of characters of a class at the head of a text, and
    what follows it. *)
Fixpoint run (p : ascii -> bool) (s : str) : str :=
  match s with
  | c :: s' => if p c then c :: run p s' else []
  | [] => []
  end.

Fixpoint after_run (p : ascii -> bool) (s : str) : str :=
  match s with
  | c :: s' => if p c then after_run p s' else s
  | [] => []
  end.

(** A text that does not start with a character of the class. *)
Definition not_headed (p : ascii -> bool) (s : str) : Prop :=
  match s with
  | c :: _ => p c = false
  | [] => True
  end.

(** No match starts inside [u] when [u] is followed by [v]. *)
Definition unmatched (r : regex) (u v : str) : Prop :=
  forall u1 u2, u = u1 ++ u2 -> u2 <> [] -> match_at r (u2 ++ v) = None.

(** An expression that never matches the empty text. *)
Definition never_empty (r : regex) : Prop :=
  forall s m, match_at r s = Some m -> m_text m <> [].

(** [\s+], [\w+], [[^;]+] *)
Definition spaces : regex := Plus is_space.
Definition word : regex := Plus is_word.
Definition not_semicolon (c : ascii) : bool := negb (chr_eqb c ";"%char).

End Re.
Import Re.

(* ===================================================================== *)
(** ** components/file_utils.py *)
(* ===================================================================== *)

Module FileUtils.

(** The first line that, once stripped, starts with [package ]. *)
Definition package_line (content : str) : option str :=
  List.find (fun line => startswith (lit "package ") (strip line))
            (splitlines content).

(** [line.strip().replace("package ", "").replace(";", "")] *)
Definition declared_value (line : str) : str :=
  replace (lit ";") [] (replace (lit "package ") [] (strip line)).

(** [FileUtils.extract_package_from_content]: the loop returns at the
    first line that, once stripped, starts with [package ]; [None] when
    there is none. *)
Definition extract_package_from_content (content : str) : option str :=
  match package_line content with
  | Some line => Some (declared_value line)
  | None => None
  end.

(** [FileUtils.extract_package_from_path] *)
Definition extract_package_from_path (file_path : str) : option str :=
  let path_parts := split (lit "/") file_path in
  match index_of (lit "java") path_parts with
  | Some java_index =>
      if java_index + 1 <? length path_parts
      then Some (join (lit ".") (slice_to_last (java_index + 1) path_parts))
      else None
  | None => None
  end.

(** A result that Python's [if package:] takes: neither [None] nor
    empty. *)
Definition taken (r : option str) : option str :=
  match r with
  | Some p => if truthy p then Some p else None
  | None => None
  end.

(** [FileUtils.get_safe_package_path] *)
Definition get_safe_package_path (file_path content default_package : str)
  : str :=
  match taken (extract_package_from_content content) with
  | Some package => package
  | None =>
      match taken (extract_package_from_path file_path) with
      | Some package => package
      | None => default_package
      end
  end.

(** A line that holds a declaration [package X;], with its value [X]. *)
Definition declares_package (line value : str) : Prop :=
  exists rest,
    strip line = lit "package " ++ value ++ lit ";" ++ rest
    /\ ~ In ";"%char value.

(** The content gives no package: no line starts with [package ], or what
    the first such line gives is empty. *)
Definition no_declaration (content : str) : Prop :=
  match package_line content with
  | Some line => declared_value line = []
  | None => True
  end.

(** The path gives no package: no part [java] is followed by directory
    parts whose joined names are not empty. *)
Definition no_inference (file_path : str) : Prop :=
  forall pre dirs file_name,
    split (lit "/") file_path = pre ++ lit "java" :: dirs ++ [file_name] ->
    ~ In (lit "java") pre ->
    join (lit ".") dirs = [].

(** The three tiers of the resolver, the first that applies. *)
Inductive resolution (file_path content default_package : str)
  : str -> Prop :=
| Declared line :
    package_line content = Some line ->
    declared_value line <> [] ->
    resolution file_path content default_package (declared_value line)
| Inferred pre dirs file_name :
    no_declaration content ->
    split (lit "/") file_path = pre ++ lit "java" :: dirs ++ [file_name] ->
    ~ In (lit "java") pre ->
    join (lit ".") dirs <> [] ->
    resolution file_path content default_package (join (lit ".") dirs)
| Defaulted :
    no_declaration content ->
    no_inference file_path ->
    resolution file_path content default_package default_package.

End FileUtils.
Import FileUtils.

(* ===================================================================== *)
(** ** The artifact validators of the migrators *)
(* ===================================================================== *)

Module Validator.

(** [explanation_indicators], the same list in both validators and in the
    query gateway. *)
Definition explanation_indicators : list str :=
  [ lit "This cannot be provided";
    lit "I cannot provide";
    lit "Here is the";
    lit "The file should";
    lit "This is a";
    lit "This code";
    lit "Without seeing" ].

(** [content.strip().startswith(indicator)] for some indicator *)
Definition is_explanation (content : str) : bool :=
  existsb (fun indicator => startswith indicator (strip content))
          explanation_indicators.

(** [public\s+kw] *)
Definition pub_kw (kw : str) : regex :=
  Cat (Lit (lit "public")) (Cat spaces (Lit kw)).

(** [(public\s+class|public\s+interface|public\s+enum)] *)
Definition kinds_group : regex :=
  Group 1 (Alt (pub_kw (lit "class"))
               (Alt (pub_kw (lit "interface")) (pub_kw (lit "enum")))).

(** [class_pattern] of [EntityMigrator.validate_java_file] *)
Definition class_pattern : regex :=
  Cat kinds_group (Cat spaces (Group 2 word)).

(** The pattern of the renaming [re.sub], built from a class name that
    [\w+] matched, so free of special characters. *)
Definition class_rename_pattern (class_name : str) : regex :=
  Cat kinds_group (Cat spaces (Lit class_name)).

(** [file_name.replace(".java", "")] *)
Definition without_ext (file_name : str) : str :=
  replace (lit ".java") [] file_name.

(** One turn of the renaming loop of [validate_java_file]; the
    replacement is group 1, a space and the expected name. *)
Definition rename_class (expected content : str) (m : captures) : str :=
  let class_name := group 2 m in
  if str_eqb class_name expected then content
  else sub (class_rename_pattern class_name)
           (fun caps => group 1 caps ++ lit " " ++ expected) content.

Definition duplicate_marker : str :=
  lit "// Additional code removed due to duplicate class declaration".

(** The duplicate-declaration check of [validate_java_file]. *)
Definition trim_duplicates (content : str) : str :=
  let classes := findall class_pattern content in
  if 1 <? length classes then
    let first := group 1 (hd [] classes) in
    let from := Z.to_nat (find first content) + length first in
    match search class_pattern (skipn from content) with
    | Some (start, _) => firstn (from + start) content ++ duplicate_marker
    | None => content
    end
  else content.

(** [EntityMigrator.validate_java_file], on a text. *)
Definition validate_java_file (file_name content : str) : option str :=
  if is_explanation content then None
  else
    match search class_pattern content with
    | None => None
    | Some _ =>
        let file_name_without_ext := without_ext file_name in
        let matches := findall class_pattern content in
        let content :=
          fold_left (rename_class file_name_without_ext) matches content in
        Some (trim_duplicates content)
    end.

(** A public top-level declaration of one kind, [public\s+kind\s+\w+],
    and a text that contains one. *)
Definition declaration_of (kind : str) : regex :=
  Cat (pub_kw kind) (Cat spaces word).

Definition declares (kind content : str) : Prop :=
  exists pre decl post,
    content = pre ++ decl ++ post /\ matches (declaration_of kind) decl.

(** [interface_pattern] of [RepositoryMigrator.validate_repository_file] *)
Definition interface_pattern : regex :=
  Cat (pub_kw (lit "interface")) (Cat spaces (Group 1 word)).

Definition interface_rename_pattern (interface_name : str) : regex :=
  Cat (pub_kw (lit "interface")) (Cat spaces (Lit interface_name)).

(** One turn of the renaming loop of [validate_repository_file]. *)
Definition rename_interface (expected content interface_name : str) : str :=
  if str_eqb interface_name expected then content
  else sub (interface_rename_pattern interface_name)
           (fun _ => lit "public interface " ++ expected) content.

(** The renaming loop of [validate_repository_file]. *)
Definition rename_interfaces (expected content : str) : str :=
  fold_left (rename_interface expected)
            (map (group 1) (findall interface_pattern content)) content.

(** [extend_pattern] *)
Definition extend_pattern : regex :=
  Cat (Lit (lit "extends")) (Cat spaces (Group 1 word)).

Definition return_types_comment (parent_interface : str) : str :=
  lit "// Make sure all method return types match those in "
  ++ parent_interface ++ lit "
public interface".

(** The [extends] check of [validate_repository_file]. *)
Definition advise_on_extends (content : str) : str :=
  match search extend_pattern content with
  | Some (_, m) =>
      replace (lit "public interface")
              (return_types_comment (group 1 (m_caps m))) content
  | None => content
  end.

(** [RepositoryMigrator.validate_repository_file], on a text. *)
Definition validate_repository_file (file_name content : str) : option str :=
  if is_explanation content then None
  else
    match search interface_pattern content with
    | None => None
    | Some _ =>
        Some (advise_on_extends
                (rename_interfaces (without_ext file_name) content))
    end.

(** *** The declaration patterns, read from left to right

    What the patterns above find at the head of a text, written as plain
    functions; that the engine computes the same is proved below. *)

(** A run of white space, a name. *)
Definition blank (w : str) : Prop := w <> [] /\ forallb is_space w = true.
Definition wordy (w : str) : Prop := w <> [] /\ forallb is_word w = true.

Definition class_kinds : list str :=
  [lit "class"; lit "interface"; lit "enum"].

(** The first of the keywords that the text starts with, and what
    follows it. *)
Fixpoint keyword_at (kws : list str) (s : str) : option (str * str) :=
  match kws with
  | [] => None
  | kw :: others =>
      match drop_prefix kw s with
      | Some t => Some (kw, t)
      | None => keyword_at others s
      end
  end.

(** [public], white space and a keyword: the white space, the keyword
    and what follows. *)
Definition head_at (kws : list str) (s : str) : option (str * str * str) :=
  match drop_prefix (lit "public") s with
  | None => None
  | Some s1 =>
      match run is_space s1 with
      | [] => None
      | w1 =>
          match keyword_at kws (after_run is_space s1) with
          | Some (kw, s3) => Some (w1, kw, s3)
          | None => None
          end
      end
  end.

(** White space and a name, as long as it can be: the white space, the
    name and what follows. *)
Definition name_at (s : str) : option (str * str * str) :=
  match run is_space s with
  | [] => None
  | w2 =>
      match run is_word (after_run is_space s) with
      | [] => None
      | name =>
          Some (w2, name, after_run is_word (after_run is_space s))
      end
  end.

(** White space and a given name: the white space and what follows. *)
Definition given_at (name s : str) : option (str * str) :=
  match run is_space s with
  | [] => None
  | w2 =>
      match drop_prefix name (after_run is_space s) with
      | Some rest => Some (w2, rest)
      | None => None
      end
  end.

(** The text [public], white space and a keyword. *)
Definition head_text (w1 kw : str) : str := lit "public" ++ w1 ++ kw.

(** A declaration at the head of a text: its head, the white space
    before the name, the name, and what follows. *)
Definition decl_at (kws : list str) (s : str)
  : option (str * str * str * str) :=
  match head_at kws s with
  | Some (w1, kw, s3) =>
      match name_at s3 with
      | Some (w2, name, rest) => Some (head_text w1 kw, w2, name, rest)
      | None => None
      end
  | None => None
  end.

(** A declaration of a given name at the head of a text. *)
Definition named_at (kws : list str) (name s : str)
  : option (str * str * str) :=
  match head_at kws s with
  | Some (w1, kw, s3) =>
      match given_at name s3 with
      | Some (w2, rest) => Some (head_text w1 kw, w2, rest)
      | None => None
      end
  | None => None
  end.

(** A text in which [public] neither occurs nor begins at the end. *)
Definition public_free (u : str) : bool :=
  negb (contains (lit "public") u)
  && forallb (fun q => negb (endswith q u))
             [lit "p"; lit "pu"; lit "pub"; lit "publ"; lit "publi"].

(** A text without white space. *)
Definition spaceless (u : str) : Prop :=
  forallb (fun c => negb (is_space c)) u = true.

End Validator.
Import Validator.

(* ===================================================================== *)
(** ** State, exceptions and the file tree *)
(* ===================================================================== *)

Module Effects.

(** The exceptions the modelled code can raise. *)
Inductive exn : Type :=
| AttributeError
| TypeError
| KeyError
| ValueError
| FileNotFoundError.

Inductive outcome (A : Type) : Type :=
| Returned (a : A)
| Raised (e : exn).
Arguments Returned {A} a.
Arguments Raised {A} e.

(** A computation over a state [S] that returns or raises; the state
    reached is kept in both cases. *)
Definition M (S A : Type) : Type := S -> outcome A * S.

Definition ret {S A} (a : A) : M S A := fun s => (Returned a, s).

Definition raise {S A} (e : exn) : M S A := fun s => (Raised e, s).

Definition bind {S A B} (m : M S A) (f : A -> M S B) : M S B :=
  fun s =>
    match m s with
    | (Returned a, s') => f a s'
    | (Raised e, s') => (Raised e, s')
    end.

Definition gets {S A} (f : S -> A) : M S A := fun s => (Returned (f s), s).

Definition modify {S} (f : S -> S) : M S unit := fun s => (Returned tt, f s).

Declare Scope monad_scope.
Delimit Scope monad_scope with monad.
Notation "x <- m ;; k" := (bind m (fun x => k))
  (at level 61, m at next level, right associativity) : monad_scope.
Notation "m ;;; k" := (bind m (fun _ => k))
  (at level 61, right associativity) : monad_scope.

(** [try: m except Exception: h] *)
Definition catch {S A} (m : M S A) (h : exn -> M S A) : M S A :=
  fun s =>
    match m s with
    | (Returned a, s') => (Returned a, s')
    | (Raised e, s') => h e s'
    end.

(** The file tree: the files in the order in which a directory walk
    lists them, each path once.  A file is known by the text of its
    path: the tree has no links, and the paths no part [..], so that two
    texts that differ stand for two files. *)
Definition fs : Type := list (str * str).

Fixpoint read_file (path : str) (t : fs) : option str :=
  match t with
  | [] => None
  | (p, c) :: t' => if str_eqb p path then Some c else read_file path t'
  end.

(** [open(path, 'w')] and [write]: an existing file is overwritten in
    place, a new one comes last. *)
Fixpoint write_file (path content : str) (t : fs) : fs :=
  match t with
  | [] => [(path, content)]
  | (p, c) :: t' =>
      if str_eqb p path then (p, content) :: t'
      else (p, c) :: write_file path content t'
  end.

(** [os.remove(path)] *)
Definition remove_file (path : str) (t : fs) : fs :=
  filter (fun pc => negb (str_eqb (fst pc) path)) t.

End Effects.
Import Effects.
Local Open Scope monad_scope.

(* ===================================================================== *)
(** ** components/openai_client.py: the query gateway *)
(* ===================================================================== *)

Module OpenAIClient.

Definition dquote : ascii := ascii_of_nat 34.

(** The regular expression of the gateway's basic validation,
    [(public|private|protected)?\s+(class|interface|enum)\s+\w+]. *)
Definition declaration_pattern : regex :=
  Cat (Opt (Group 1 (Alt (Lit (lit "public"))
                         (Alt (Lit (lit "private")) (Lit (lit "protected"))))))
      (Cat spaces
           (Cat (Group 2 (Alt (Lit (lit "class"))
                              (Alt (Lit (lit "interface")) (Lit (lit "enum")))))
                (Cat spaces word))).

Definition newline : str := lit "
".

Definition fence : str := lit "```".

(** The elements at the odd positions 1, 3, 5, ... of a list. *)
Fixpoint odd_elements {A} (xs : list A) : list A :=
  match xs with
  | _ :: x :: rest => x :: odd_elements rest
  | _ => []
  end.

(** [any(line.strip().startswith(ind) for ind in explanation_indicators)] *)
Definition is_commentary (line : str) : bool :=
  existsb (fun ind => startswith ind (strip line)) explanation_indicators.

(** The body of the loop over the code blocks: [None] when the block is
    passed over, [Some r] when the function returns [r]. *)
Definition examine_block (block : str) : option (option str) :=
  if truthy (strip block) && contains newline block then
    let lang_identifier := strip (hd [] (split newline block)) in
    let code :=
      strip (skipn (Z.to_nat (find newline block) + 1) block) in
    if str_eqb (lower lang_identifier) (lit "java") then
      let code_lines := split newline code in
      let filtered_lines :=
        filter (fun line => negb (is_commentary line)) code_lines in
      let code := join newline filtered_lines in
      match search declaration_pattern code with
      | None => Some None
      | Some _ => Some (Some code)
      end
    else Some (Some code)
  else None.

Fixpoint first_examined (blocks : list str) : option (option str) :=
  match blocks with
  | [] => None
  | b :: rest =>
      match examine_block b with
      | Some r => Some r
      | None => first_examined rest
      end
  end.

(** [OpenAIClient._extract_code_if_present] *)
Definition extract_code_if_present (content : str) : option str :=
  if is_explanation content then None
  else
    match (if contains fence content
           then first_examined (odd_elements (split fence content))
           else None) with
    | Some r => r
    | None =>
        if negb (contains fence content)
           && (contains (lit "public class") content
               || contains (lit "public interface") content)
           && (match search declaration_pattern content with
               | Some _ => true
               | None => false
               end)
        then Some content
        else if existsb (fun indicator => contains indicator content)
                        explanation_indicators
        then None
        else Some content
    end.

(** *** Shortening a prompt *)

(** ["class " in line or "interface " in line or "enum " in line] *)
Definition mentions_type (line : str) : bool :=
  contains (lit "class ") line
  || contains (lit "interface ") line
  || contains (lit "enum ") line.

(** The loop of [_extract_code_sections] over [lines[:500]]; the result is
    [(import_section, package_section, class_section)].  [lines.index]
    finds the line, which is one of [lines]. *)
Fixpoint code_sections_go (lines todo : list str)
         (import_section package_section : str) (in_imports : bool)
  : str * str * str :=
  match todo with
  | [] => (import_section, package_section, [])
  | line :: rest =>
      if startswith (lit "package ") (strip line) then
        code_sections_go lines rest import_section
                         (package_section ++ line ++ newline) in_imports
      else if startswith (lit "import ") (strip line) then
        code_sections_go lines rest (import_section ++ line ++ newline)
                         package_section true
      else if in_imports && negb (startswith (lit "import ") (strip line))
      then code_sections_go lines rest import_section package_section false
      else if mentions_type line then
        let class_index :=
          match index_of line lines with Some i => i | None => 0 end in
        (import_section, package_section,
         join newline (firstn 20 (skipn class_index lines)))
      else code_sections_go lines rest import_section package_section
                            in_imports
  end.

(** [OpenAIClient._extract_code_sections] *)
Definition extract_code_sections (code : str) : str * str * str :=
  let lines := split newline code in
  code_sections_go lines (firstn 500 lines) [] [] false.

Definition modifiers : list str :=
  [lit "public"; lit "private"; lit "protected"].

(** [.*] and [.*\(.*\)]; the dot matches any character but a line
    feed. *)
Definition dots : regex :=
  Opt (Plus (fun c => negb (chr_eqb c (ascii_of_nat 10)))).

Definition call_tail : regex :=
  Cat dots (Cat (Lit (lit "(")) (Cat dots (Lit (lit ")")))).

(** A match of [\b(public|private|protected)\b.*\(.*\)] at the head of
    [s], the boundary before the word being given: after the word comes
    the end of the text or a character that is not a word character. *)
Definition modifier_here (s : str) : bool :=
  existsb
    (fun kw =>
       match drop_prefix kw s with
       | Some rest =>
           match rest with
           | [] => true
           | c :: _ => negb (is_word c)
           end
           && match match_at call_tail rest with
              | Some _ => true
              | None => false
              end
       | None => false
       end)
    modifiers.

(** [re.search] of that pattern; [prev_word] tells whether the character
    before [s] is a word character. *)
Fixpoint signature_from (prev_word : bool) (s : str) : bool :=
  (negb prev_word && modifier_here s)
  || match s with
     | [] => false
     | c :: s' => signature_from (is_word c) s'
     end.

(** The loop of [_extract_method_signatures]. *)
Fixpoint signatures_go (lines : list str) (method_signatures : list str)
  : list str :=
  match lines with
  | [] => method_signatures
  | line :: rest =>
      let method_signatures :=
        if signature_from false line && contains (lit "{") line
        then method_signatures ++ [strip line]
        else method_signatures in
      if 15 <=? length method_signatures then method_signatures
      else signatures_go rest method_signatures
  end.

(** [OpenAIClient._extract_method_signatures] *)
Definition extract_method_signatures (code : str) : list str :=
  signatures_go (split newline code) [].

Definition max_prompt_tokens : Z := 6000.

(** [truncated_prompt] of [_preprocess_prompt] *)
Definition truncated_prompt (pre_code package_section import_section class_section : str)
           (method_signatures : list str)
  : str :=
  pre_code
  ++ lit "

```java
// --- Package and imports ---
"
  ++ package_section
  ++ lit "
"
  ++ import_section
  ++ lit "

// --- Class definition ---
"
  ++ class_section
  ++ lit "

// --- Method signatures ---
/* 
"
  ++ join newline method_signatures
  ++ lit "
*/

// Note: Code has been truncated due to length constraints
```

Please complete your task based on this truncated code. Focus on the structure and follow the instructions above.
".


Definition truncation_note : str :=
  lit "...
[Content truncated due to length]".

(** [OpenAIClient._preprocess_prompt] *)
Definition _preprocess_prompt (prompt : str) : str :=
  if (max_prompt_tokens * 4 <? Z.of_nat (length prompt))%Z then
    let summary :=
      if contains (lit "```java") prompt then
        let start := (find (lit "```java") prompt + 7)%Z in
        let end_ := find_at fence prompt start in
        if (7 <? start)%Z && (start <? end_)%Z then
          let code := strip (slice start end_ prompt) in
          let pre_code := strip (slice 0 (start - 7) prompt) in
          let '(import_section, package_section, class_section) :=
            extract_code_sections code in
          let method_signatures := extract_method_signatures code in
          Some (truncated_prompt pre_code package_section import_section
                                 class_section method_signatures)
        else None
      else None in
    match summary with
    | Some truncated => truncated
    | None => upto (max_prompt_tokens * 4) prompt ++ truncation_note
    end
  else prompt.

Inductive role : Type := System | User | Assistant.

Record message : Type := Message {
  msg_role : role;
  msg_content : str
}.

Definition is_user (m : message) : bool :=
  match msg_role m with User => true | _ => false end.

(** What the gateway reads of an HTTP response: the status code and the
    content of the message of the first choice in its JSON body. *)
Record response : Type := Response {
  status_code : nat;
  reply : str
}.

(** [strict_prompt] of [query] *)
Definition stricter (prompt : str) : str :=
  lit "IMPORTANT: You MUST ONLY output valid Java code and NOTHING ELSE. 
DO NOT include any text like "
  ++ [dquote]
  ++ lit "this cannot be provided"
  ++ [dquote]
  ++ lit " or explanations. 
DO NOT include markdown formatting.
ONLY respond with compilable, valid Java code.

"
  ++ prompt.

Definition not_valid_java : str :=
  lit "The response is not valid Java code. Please provide ONLY Java code with no explanations or text.".

Section Gateway.

(** The chat-completion service behind [requests.post]: a state and the
    answer to a list of messages. *)
Variable service : Type.
Variable post : service -> list message -> response * service.

(** [_preprocess_prompt], which shortens a prompt that is too long before
    it is sent and has no part in how answers are handled. *)
Variable preprocess_prompt : str -> str.

(** The state of a run: the service and the number of requests sent. *)
Record client : Type := Client {
  remote : service;
  requests : nat
}.

Definition send (messages : list message) : M client response :=
  fun c =>
    let '(r, svc) := post (remote c) messages in
    (Returned r, Client svc (S (requests c))).

(** The messages of an attempt: from the second attempt on, the user
    turns so far are dropped and the stricter prompt is sent. *)
Definition outgoing (attempt : nat) (prompt : str) (messages : list message)
  : list message :=
  if 0 <? attempt
  then filter (fun m => negb (is_user m)) messages
       ++ [Message User (stricter prompt)]
  else messages ++ [Message User prompt].

(** The loop [for attempt in range(max_attempts)] of [query], with
    [remaining] attempts left from [attempt] on; the function returns
    [None] when the loop ends without a [return]. *)
Fixpoint attempts (remaining attempt max_attempts : nat)
         (prompt : str) (messages : list message)
  : M client (option str) :=
  match remaining with
  | O => ret None
  | S remaining' =>
      let messages := outgoing attempt prompt messages in
      r <- send messages ;;
      if negb (status_code r =? 200) then ret None
      else
        let content := reply r in
        let result := extract_code_if_present content in
        match result with
        | Some _ => ret result
        | None =>
            if attempt =? max_attempts - 1 then ret result
            else
              attempts remaining' (S attempt) max_attempts prompt
                       (messages ++ [Message Assistant content;
                                     Message User not_valid_java])
        end
  end.

(** [OpenAIClient.query] *)
Definition query (prompt : str) (system_message : option str)
           (max_attempts : nat) : M client (option str) :=
  let messages :=
    match system_message with
    | Some sm => if truthy sm then [Message System sm] else []
    | None => []
    end in
  let prompt := preprocess_prompt prompt in
  attempts max_attempts 0 max_attempts prompt messages.

End Gateway.

Arguments Client {service}.
Arguments remote {service}.
Arguments requests {service}.
Arguments send {service}.
Arguments attempts {service}.
Arguments query {service}.

End OpenAIClient.
Import OpenAIClient.

(* ===================================================================== *)
(** ** migration/entity_migrator.py and migration/repository_migrator.py *)
(* ===================================================================== *)

Module Migrators.

(** [system_message] of [migrate_entity] *)
Definition entity_system_message : str :=
  lit "You are a Java code generation assistant. Output ONLY the complete Java code with no additional text, explanations, or markdown formatting.
IMPORTANT: 
1. The public class name MUST match the file name (without .java extension)
2. Include only ONE public class per file
3. Do not include comments at the beginning or end
4. All Java files must start with a package declaration
5. All required imports must be included
6. Test files MUST include appropriate JUnit 5 imports and assertions
7. Files containing 'Test' in their name should be placed in the test source folder
".

(** [prompt] of [migrate_entity] for a test file *)
Definition entity_test_prompt (entity_content file_name : str) : str :=
  lit "
            Migrate this JBoss EAP JPA entity test to a Spring Boot entity test:
            
            ```java
            "
  ++ entity_content
  ++ lit "
            ```
            
            Make these changes:
            1. Update imports to JUnit 5 and Spring Boot testing equivalents
            2. Use org.junit.jupiter.api.Assertions for assertions
            3. The class name must be "
  ++ without_ext file_name
  ++ lit " to match the file name
            4. Follow Spring Boot testing best practices
            5. Ensure test methods use appropriate assertions
            6. This test should go in the TEST source directory, not the main source directory
            
            Only respond with the complete migrated Java code, no explanations.
            ".

(** [prompt] of [migrate_entity] otherwise *)
Definition entity_prompt (entity_content file_name : str) : str :=
  lit "
            Migrate this JBoss EAP JPA entity to a Spring Boot entity:
            
            ```java
            "
  ++ entity_content
  ++ lit "
            ```
            
            Make these changes:
            1. Update imports to Spring Boot equivalents
            2. Keep all validation annotations
            3. Use appropriate Spring Data JPA annotations
            4. Follow Spring Boot best practices
            5. Keep the same logic and functionality
            
            The class name must be "
  ++ without_ext file_name
  ++ lit " to match the file name.
            Only respond with the complete migrated Java code, no explanations.
            ".

(** [strict_prompt] of [migrate_entity] *)
Definition entity_strict_prompt (entity_content file_name : str) : str :=
  lit "
            IMPORTANT: You MUST output ONLY valid Java code for a Spring Boot entity. 
            
            Original JBoss entity to migrate:
            ```java
            "
  ++ entity_content
  ++ lit "
            ```
            
            Requirements:
            1. Start with package declaration
            2. Include all necessary imports
            3. The class MUST be named: "
  ++ without_ext file_name
  ++ lit "
            4. Use Spring Data JPA annotations (@Entity, etc.)
            5. Only return valid, compilable Java code
            6. DO NOT include any explanatory text or comments
            
            ONLY respond with the complete Java code.
            ".

(** The minimal stub of [migrate_entity] *)
Definition entity_stub (package class_name : str) : str :=
  lit "package "
  ++ package
  ++ lit ";

import javax.persistence.Entity;
import javax.persistence.Id;
import javax.persistence.GeneratedValue;
import javax.persistence.GenerationType;
import org.springframework.data.jpa.domain.support.AuditingEntityListener;
import javax.persistence.EntityListeners;

@Entity
@EntityListeners(AuditingEntityListener.class)
public class "
  ++ class_name
  ++ lit " {
    @Id
    @GeneratedValue(strategy = GenerationType.IDENTITY)
    private Long id;
    
    // TODO: This is a minimal stub generated due to failures in the migration process
    // Original fields and methods need to be migrated manually
    
    public Long getId() {
        return id;
    }
    
    public void setId(Long id) {
        this.id = id;
    }
}
".

(** [system_message] of [migrate_repository] *)
Definition repository_system_message : str :=
  lit "You are a Java code generation assistant. Output ONLY the complete Java code with no additional text, explanations, or markdown formatting.
IMPORTANT: 
1. The public interface name MUST match the file name (without .java extension)
2. Include only ONE public interface per file
3. Do not include comments at the beginning or end
4. Ensure all method signatures in child interfaces match parent interfaces (including return types)
5. All Java files must start with a package declaration
6. All required imports must be included
".

(** [prompt] of [migrate_repository] *)
Definition repository_prompt (repo_content file_name : str) : str :=
  lit "
        Migrate this JBoss EAP repository to a Spring Data JPA repository:
        
        ```java
        "
  ++ repo_content
  ++ lit "
        ```
        
        Make these changes:
        1. Create a Spring Data JPA repository interface
        2. Keep the same query methods
        3. Use Spring Data's query derivation or @Query annotations
        4. Follow Spring Boot best practices
        
        The interface name must be "
  ++ without_ext file_name
  ++ lit " to match the file name.
        Only respond with the complete migrated Java code, no explanations.
        ".

(** [strict_prompt] of [migrate_repository] *)
Definition repository_strict_prompt (repo_content file_name : str) : str :=
  lit "
            IMPORTANT: You MUST output ONLY valid Java code for a Spring Data JPA repository interface. 
            
            Original JBoss repository to migrate:
            ```java
            "
  ++ repo_content
  ++ lit "
            ```
            
            Requirements:
            1. Start with package declaration
            2. Include all necessary imports
            3. The interface MUST be named: "
  ++ without_ext file_name
  ++ lit "
            4. Make it extend Spring Data's JpaRepository
            5. Only return valid, compilable Java code
            6. DO NOT include any explanatory text or comments
            
            ONLY respond with the complete Java code.
            ".

(** The minimal stub of [migrate_repository] *)
Definition repository_stub (package interface_name entity_class : str) : str :=
  lit "package "
  ++ package
  ++ lit ";

import org.springframework.data.jpa.repository.JpaRepository;
import org.springframework.stereotype.Repository;
import org.jboss.as.quickstarts.kitchensink.model."
  ++ entity_class
  ++ lit ";

@Repository
public interface "
  ++ interface_name
  ++ lit " extends JpaRepository<"
  ++ entity_class
  ++ lit ", Long> {
    // TODO: This is a minimal stub generated due to failures in the migration process
    // Original methods need to be migrated manually
}
".

Definition default_model_package : str :=
  lit "org.jboss.as.quickstarts.kitchensink.model".

Definition default_data_package : str :=
  lit "org.jboss.as.quickstarts.kitchensink.data".

Definition default_repository_package : str :=
  lit "org.jboss.as.quickstarts.kitchensink.repository".

(** [x or default] on the result of [extract_package_from_content] *)
Definition or_default (r : option str) (default : str) : str :=
  match taken r with
  | Some p => p
  | None => default
  end.

(** The stub [migrate_entity] writes for a source text and a file name. *)
Definition entity_fallback (entity_content file_name : str) : str :=
  entity_stub
    (or_default (extract_package_from_content entity_content)
                default_model_package)
    (without_ext file_name).

(** The stub [migrate_repository] writes; [entity_class] is [Member] on
    both branches of the source. *)
Definition repository_fallback (repo_content file_name : str) : str :=
  repository_stub
    (or_default (extract_package_from_content repo_content)
                default_data_package)
    (without_ext file_name) (lit "Member").

Definition max_retries : nat := 3.

Section Migrate.

Variable service : Type.
Variable post : service -> list message -> response * service.
Variable preprocess_prompt : str -> str.

(** What a migration changes: the gateway's state, the number of calls
    of [ai_client.query], and the target tree. *)
Record world : Type := World {
  gateway : client service;
  queries : nat;
  target : fs
}.

(** [self.ai_client.query(prompt, system_message=system_message)] *)
Definition ai_query (prompt system_message : str) : M world (option str) :=
  fun w =>
    let '(r, c) :=
      query post preprocess_prompt prompt (Some system_message) 3
            (gateway w) in
    (r, World c (S (queries w)) (target w)).

(** [FileUtils.write_file_content] on the target tree *)
Definition write_file_content (path content : str) : M world unit :=
  modify (fun w => World (gateway w) (queries w)
                         (write_file path content (target w))).

(** A call of a validator on what [query] returned: on [None],
    [content.strip()] raises [AttributeError]. *)
Definition validated (validate : str -> str -> option str)
           (file_name : str) (answer : option str) : M world (option str) :=
  match answer with
  | Some content => ret (validate file_name content)
  | None => raise AttributeError
  end.

(** The loop [while migrated is None and retry_count < max_retries], with
    [left = max_retries - retry_count]. *)
Fixpoint retries (validate : str -> str -> option str)
         (strict_prompt system_message file_name : str)
         (left : nat) (migrated : option str) : M world (option str) :=
  match migrated, left with
  | None, S left' =>
      answer <- ai_query strict_prompt system_message ;;
      migrated <- validated validate file_name answer ;;
      retries validate strict_prompt system_message file_name left' migrated
  | _, _ => ret migrated
  end.

(** [entity_file.name] *)
Definition name_of (path : str) : str := last_part (split (lit "/") path).

(** [package_path.replace('.', '/')] *)
Definition as_dirs (package_path : str) : str :=
  replace (lit ".") (lit "/") package_path.

(** [EntityMigrator.migrate_entity]: [entity_file] is the path of the
    source file, [entity_content] what reading it gave. *)
Definition migrate_entity (target_dir entity_file entity_content : str)
  : M world unit :=
  let file_name := name_of entity_file in
  let is_test_file :=
    contains (lit "Test") file_name || contains (lit "test") entity_file in
  let system_message := entity_system_message in
  let prompt :=
    if is_test_file then entity_test_prompt entity_content file_name
    else entity_prompt entity_content file_name in
  answer <- ai_query prompt system_message ;;
  migrated_entity <- validated validate_java_file file_name answer ;;
  migrated_entity <-
    retries validate_java_file
            (entity_strict_prompt entity_content file_name)
            system_message file_name max_retries migrated_entity ;;
  let migrated_entity :=
    match migrated_entity with
    | Some text => text
    | None => entity_fallback entity_content file_name
    end in
  let package_path :=
    get_safe_package_path entity_file entity_content default_model_package in
  let target_path :=
    if is_test_file
    then target_dir ++ lit "/src/test/java/" ++ as_dirs package_path
         ++ lit "/" ++ file_name
    else target_dir ++ lit "/src/main/java/" ++ as_dirs package_path
         ++ lit "/" ++ file_name in
  write_file_content target_path migrated_entity.

(** [RepositoryMigrator.migrate_repository] *)
Definition migrate_repository (target_dir repo_file repo_content : str)
  : M world unit :=
  let file_name := name_of repo_file in
  let system_message := repository_system_message in
  let prompt := repository_prompt repo_content file_name in
  answer <- ai_query prompt system_message ;;
  migrated_repo <- validated validate_repository_file file_name answer ;;
  migrated_repo <-
    retries validate_repository_file
            (repository_strict_prompt repo_content file_name)
            system_message file_name max_retries migrated_repo ;;
  let migrated_repo :=
    match migrated_repo with
    | Some text => text
    | None => repository_fallback repo_content file_name
    end in
  let package_path :=
    get_safe_package_path repo_file repo_content
                          default_repository_package in
  let target_path :=
    target_dir ++ lit "/src/main/java/" ++ as_dirs package_path
    ++ lit "/" ++ file_name in
  write_file_content target_path migrated_repo.

(** A service all of whose answers are texts that the validator
    rejects. *)
Definition always_rejected (validate : str -> str -> option str)
           (system_message file_name : str) : Prop :=
  forall (prompt : str) (c : client service),
  exists text c',
    query post preprocess_prompt prompt (Some system_message) 3 c
    = (Returned (Some text), c')
    /\ validate file_name text = None.

End Migrate.

Arguments always_rejected {service}.
Arguments World {service}.
Arguments gateway {service}.
Arguments queries {service}.
Arguments target {service}.
Arguments ai_query {service}.
Arguments write_file_content {service}.
Arguments validated {service}.
Arguments retries {service}.
Arguments migrate_entity {service}.
Arguments migrate_repository {service}.

(** *** The migrators without a validator *)

(** [system_message] of [migrate_service] *)
Definition service_system_message : str :=
  lit "You are a Java code generation assistant. Output ONLY the complete Java code with no additional text, explanations, or markdown formatting.".

(** [prompt] of [migrate_service] *)
Definition service_prompt (service_content : str) : str :=
  lit "
        Migrate this JBoss EJB service to a Spring Boot service:
        
        ```java
        "
  ++ service_content
  ++ lit "
        ```
        
        Make these changes:
        1. Replace EJB annotations with Spring annotations (@Service, @Transactional, etc.)
        2. Update dependency injection to use Spring's approach
        3. Keep the same business logic
        4. Update any JBoss-specific APIs to Spring equivalents
        
        Only respond with the complete migrated Java code, no explanations.
        ".

(** [system_message] of [migrate_rest_endpoint] *)
Definition rest_system_message : str :=
  lit "You are a Java code generation assistant. Output ONLY the complete Java code with no additional text, explanations, or markdown formatting.".

(** [prompt] of [migrate_rest_endpoint] *)
Definition rest_prompt (rest_content : str) : str :=
  lit "
        Migrate this JAX-RS endpoint to a Spring Boot RestController:
        
        ```java
        "
  ++ rest_content
  ++ lit "
        ```
        
        Make these changes:
        1. Replace JAX-RS annotations with Spring MVC annotations
        2. Keep the same API paths and functionality
        3. Update dependency injection to use Spring's approach
        4. Maintain the same validation and error handling logic
        
        Only respond with the complete migrated Java code, no explanations.
        ".

(** [system_message] of [add_validation_to_entity] *)
Definition validation_system_message : str :=
  lit "You are a Java code generation assistant. Output ONLY the complete Java code with no additional text, explanations, or markdown formatting.".

(** [prompt] of [add_validation_to_entity] *)
Definition validation_prompt (entity_content : str) : str :=
  lit "
            Check and enhance validation annotations in this Spring Boot entity:
            
            ```java
            "
  ++ entity_content
  ++ lit "
            ```
            
            Make these changes:
            1. Ensure all fields have appropriate validation annotations
            2. Add custom validation messages if missing
            3. Keep all existing functionality
            
            Only respond with the complete updated Java code, no explanations.
            ".

Definition default_service_package : str :=
  lit "org.jboss.as.quickstarts.kitchensink.service".

Definition default_rest_package : str :=
  lit "org.jboss.as.quickstarts.kitchensink.rest".

Section Unvalidated.

Variable service : Type.
Variable post : service -> list message -> response * service.
Variable preprocess_prompt : str -> str.

(** [FileUtils.write_file_content] with what [query] returned: the file
    is opened, hence created or emptied, before [write(None)] raises
    [TypeError]. *)
Definition write_answer (path : str) (answer : option str)
  : M (world service) unit :=
  match answer with
  | Some text => write_file_content path text
  | None => write_file_content path [] ;;; raise TypeError
  end.

(** [ServiceMigrator.migrate_service] *)
Definition migrate_service (target_dir service_file service_content : str)
  : M (world service) unit :=
  let file_name := name_of service_file in
  let system_message := service_system_message in
  let prompt := service_prompt service_content in
  migrated_service <-
    ai_query post preprocess_prompt prompt system_message ;;
  catch
    (let package_path :=
       get_safe_package_path service_file service_content
                             default_service_package in
     let target_path :=
       target_dir ++ lit "/src/main/java/" ++ as_dirs package_path
       ++ lit "/" ++ file_name in
     write_answer target_path migrated_service)
    (fun _ =>
       let fallback_path :=
         target_dir
         ++ lit "/src/main/java/org/jboss.as.quickstarts/kitchensink/service/"
         ++ file_name in
       write_answer fallback_path migrated_service).

(** [RestMigrator.migrate_rest_endpoint] *)
Definition migrate_rest_endpoint (target_dir rest_file rest_content : str)
  : M (world service) unit :=
  let file_name := name_of rest_file in
  let system_message := rest_system_message in
  let prompt := rest_prompt rest_content in
  migrated_rest <- ai_query post preprocess_prompt prompt system_message ;;
  catch
    (let package_path :=
       get_safe_package_path rest_file rest_content default_rest_package in
     let target_path :=
       target_dir ++ lit "/src/main/java/" ++ as_dirs package_path
       ++ lit "/" ++ file_name in
     write_answer target_path migrated_rest)
    (fun _ =>
       let fallback_path :=
         target_dir
         ++ lit "/src/main/java/org/jboss.as.quickstarts/kitchensink/rest/"
         ++ file_name in
       write_answer fallback_path migrated_rest).

(** [os.path.exists] and [FileUtils.read_file_content] on the target
    tree *)
Definition exists_file (path : str) : M (world service) bool :=
  gets (fun w => match read_file path (target w) with
                 | Some _ => true
                 | None => false
                 end).

Definition read_target (path : str) : M (world service) str :=
  fun w =>
    match read_file path (target w) with
    | Some c => (Returned c, w)
    | None => (Raised FileNotFoundError, w)
    end.

(** [EntityMigrator.add_validation_to_entity]: [entity_content] is what
    reading the source file gave. *)
Definition add_validation_to_entity
           (target_dir entity_file entity_content : str)
  : M (world service) unit :=
  let file_name := name_of entity_file in
  catch
    (let package_path :=
       get_safe_package_path entity_file entity_content
                             default_model_package in
     let target_path :=
       target_dir ++ lit "/src/main/java/" ++ as_dirs package_path
       ++ lit "/" ++ file_name in
     found <- exists_file target_path ;;
     migrated <-
       (if found then ret (Some target_path)
        else
          let target_path :=
            target_dir
            ++ lit "/src/main/java/org/jboss/as/quickstarts/kitchensink/model/"
            ++ file_name in
          found <- exists_file target_path ;;
          if found then ret (Some target_path) else ret None) ;;
     match migrated with
     | None => ret tt
     | Some target_path =>
         entity_content <- read_target target_path ;;
         let system_message := validation_system_message in
         let prompt := validation_prompt entity_content in
         updated_entity <-
           ai_query post preprocess_prompt prompt system_message ;;
         write_answer target_path updated_entity
     end)
    (fun _ => ret tt).

End Unvalidated.

Arguments write_answer {service}.
Arguments migrate_service {service}.
Arguments migrate_rest_endpoint {service}.
Arguments exists_file {service}.
Arguments read_target {service}.
Arguments add_validation_to_entity {service}.

End Migrators.
Import Migrators.

(* ===================================================================== *)
(** ** components/test_runner.py *)
(* ===================================================================== *)

Module TestRunner.

Local Unset Elimination Schemes.

(** A decoded JSON value; a number stands for any [int] or [float]. *)
Inductive json : Type :=
| JNull
| JBool (b : bool)
| JNum (n : Z)
| JStr (s : str)
| JArr (items : list json)
| JObj (fields : list (str * json)).

Local Set Elimination Schemes.

(** [key in d] and [d[key]] on the fields of a dictionary *)
Fixpoint dict_get (key : str) (fields : list (str * json)) : option json :=
  match fields with
  | [] => None
  | (k, v) :: rest => if str_eqb k key then Some v else dict_get key rest
  end.

(** [[^;]+] and [package\s+([^;]+);] *)
Definition package_pattern : regex :=
  Cat (Lit (lit "package"))
      (Cat spaces (Cat (Group 1 (Plus not_semicolon)) (Lit (lit ";")))).

(** The pattern [package\s+] followed by [re.escape(package)] and [;]. *)
Definition package_rewrite_pattern (package : str) : regex :=
  Cat (Lit (lit "package")) (Cat spaces (Cat (Lit package) (Lit (lit ";")))).

(** The package rewrite: every match becomes [package expected;]. *)
Definition rewrite_package (package expected content : str) : str :=
  sub (package_rewrite_pattern package)
      (fun _ => lit "package " ++ expected ++ lit ";") content.

(** [".".join(path_parts[java_index+1:-1])] with
    [java_index = path_parts.index("java")] *)
Definition package_of_path (file_path : str) : M fs str :=
  let path_parts := split (lit "/") file_path in
  match index_of (lit "java") path_parts with
  | Some java_index =>
      ret (join (lit ".") (slice_to_last (java_index + 1) path_parts))
  | None => raise ValueError
  end.

Definition write_file_content (path content : str) : M fs unit :=
  modify (write_file path content).

Definition read_file_content (path : str) : M fs str :=
  fun t =>
    match read_file path t with
    | Some c => (Returned c, t)
    | None => (Raised FileNotFoundError, t)
    end.

(** [response[json_start:json_end]]: the text from the first opening
    brace to the last closing brace. *)
Definition between_braces (response : str) : str :=
  slice (find (lit "{") response) (rfind (lit "}") response + 1)%Z response.

(** An opening brace comes before a closing brace somewhere in the
    text. *)
Definition brace_before_brace (response : str) : Prop :=
  exists pre mid post,
    response = pre ++ lit "{" ++ mid ++ lit "}" ++ post.

(** *** Truncation of what is sent to the gateway *)

Definition output_note : str :=
  lit "...
[Output truncated due to length]".

(** [TestRunner._truncate_text] *)
Definition truncate_text (text : str) (max_length : Z) : str :=
  if (max_length <? Z.of_nat (length text))%Z
  then upto max_length text ++ output_note
  else text.

Definition is_import_or_package (line : str) : bool :=
  startswith (lit "package ") (strip line)
  || startswith (lit "import ") (strip line).

(** The index of the first element with a property. *)
Fixpoint find_index {A} (p : A -> bool) (xs : list A) : option nat :=
  match xs with
  | [] => None
  | x :: rest => if p x then Some 0 else option_map S (find_index p rest)
  end.

Definition file_note : str :=
  lit "

// ... file truncated ...".

Definition content_note : str :=
  lit "...
[Content truncated]".

(** [TestRunner._truncate_java_file] *)
Definition truncate_java_file (content : str) (max_length : Z) : str :=
  if (Z.of_nat (length content) <=? max_length)%Z then content
  else
    let lines := split newline content in
    let imports_and_package :=
      filter is_import_or_package (firstn 200 lines) in
    match find_index mentions_type lines with
    | Some class_decl_index =>
        let start_idx := class_decl_index - 5 in
        let end_idx := Nat.min (length lines) (class_decl_index + 20) in
        let class_declaration :=
          firstn (end_idx - start_idx) (skipn start_idx lines) in
        join newline imports_and_package ++ newline ++ newline
        ++ join newline class_declaration ++ file_note
    | None => upto max_length content ++ content_note
    end.

Section Applicator.

(** The directory of the target project, [json.loads] on a text that
    starts with an opening brace (so that a decoded value is a dictionary,
    given by its fields; [None] is [JSONDecodeError]) and the text an
    f-string gives for a JSON value that is not a string. *)
Variable target_dir : str.
Variable json_loads : str -> option (list (str * json)).
Variable format_value : json -> str.

(** [x[key]] for a value [x] of a repair batch *)
Definition subscript (x : json) (key : str) : M fs json :=
  match x with
  | JObj fields =>
      match dict_get key fields with
      | Some v => ret v
      | None => raise KeyError
      end
  | _ => raise TypeError
  end.

(** The values a [for] loop over a JSON value visits: the items of a
    list, the keys of a dictionary, the characters of a string. *)
Definition iterate (x : json) : M fs (list json) :=
  match x with
  | JArr items => ret items
  | JObj fields => ret (map (fun kv => JStr (fst kv)) fields)
  | JStr s => ret (map (fun c => JStr [c]) s)
  | _ => raise TypeError
  end.

(** [f"{self.target_dir}/{file_info['file_path']}"] *)
Definition path_in_target (v : json) : str :=
  target_dir ++ lit "/"
  ++ match v with JStr s => s | _ => format_value v end.

(** [FileUtils.write_file_content] with a value that may not be a string:
    the file is opened, hence emptied, before [write] raises. *)
Definition write_value (path : str) (v : json) : M fs unit :=
  match v with
  | JStr s => write_file_content path s
  | _ => write_file_content path [] ;;; raise TypeError
  end.

(** The indicators of [_process_solution], four of the seven. *)
Definition solution_indicators : list str :=
  [ lit "This cannot be provided";
    lit "I cannot provide";
    lit "The file should";
    lit "This is a" ].

Definition kinds : regex :=
  Group 1 (Alt (Lit (lit "class"))
               (Alt (Lit (lit "interface")) (Lit (lit "enum")))).

(** [public\s+(class|interface|enum)\s+(\w+)] *)
Definition type_pattern : regex :=
  Cat (Lit (lit "public")) (Cat spaces (Cat kinds (Cat spaces (Group 2 word)))).

Definition type_rename_pattern (class_name : str) : regex :=
  Cat (Lit (lit "public"))
      (Cat spaces (Cat kinds (Cat spaces (Lit class_name)))).

(** The class-name correction of [_process_solution]. *)
Definition fix_class_name (filename file_code : str) : str :=
  match search type_pattern file_code with
  | Some (_, m) =>
      let class_name := group 2 (m_caps m) in
      if str_eqb class_name filename then file_code
      else sub (type_rename_pattern class_name)
               (fun caps => lit "public " ++ group 1 caps ++ lit " "
                            ++ filename)
               file_code
  | None => file_code
  end.

Definition base_package : str := lit "org.jboss.as.quickstarts.kitchensink".

(** The package correction of [_process_solution]. *)
Definition fix_package (file_path file_code : str) : M fs str :=
  match search package_pattern file_code with
  | Some (_, m) =>
      let package := group 1 (m_caps m) in
      expected_package <-
        (if contains (lit "/main/java/") file_path
         then package_of_path file_path
         else if contains (lit "/test/java/") file_path
         then package_of_path file_path
         else ret (base_package
                   ++ (if contains (lit "model") file_path then lit ".model"
                       else if contains (lit "data") file_path
                       then lit ".data" else []))) ;;
      if str_eqb package expected_package then ret file_code
      else ret (rewrite_package package expected_package file_code)
  | None => ret file_code
  end.

(** The body of the loop over [files_to_modify]. *)
Definition modify_file (file_info : json) : M fs unit :=
  p <- subscript file_info (lit "file_path") ;;
  let file_path := path_in_target p in
  file_code <- subscript file_info (lit "code") ;;
  if endswith (lit ".java") file_path then
    match file_code with
    | JStr file_code =>
        if existsb (fun indicator => startswith indicator (strip file_code))
                   solution_indicators
        then ret tt
        else
          let filename :=
            without_ext (last_part (split (lit "/") file_path)) in
          let file_code := fix_class_name filename file_code in
          file_code <- fix_package file_path file_code ;;
          let is_test_file :=
            contains (lit "Test") filename
            || startswith (lit "test") filename
            || endswith (lit "test") filename in
          if is_test_file && contains (lit "/main/java/") file_path then
            let correct_path :=
              replace (lit "/main/java/") (lit "/test/java/") file_path in
            write_file_content correct_path file_code
          else write_file_content file_path file_code
    | _ => raise AttributeError
    end
  else write_value file_path file_code.

(** The body of the loop over [additional_files]. *)
Definition create_file (file_info : json) : M fs unit :=
  p <- subscript file_info (lit "file_path") ;;
  let file_path := path_in_target p in
  code <- subscript file_info (lit "code") ;;
  write_value file_path code.

Fixpoint for_each {A} (body : A -> M fs unit) (xs : list A) : M fs unit :=
  match xs with
  | [] => ret tt
  | x :: rest => body x ;;; for_each body rest
  end.

(** What [_process_solution] does with a decoded batch. *)
Definition apply_solution (solution : list (str * json)) : M fs unit :=
  (match dict_get (lit "files_to_modify") solution with
   | Some files => infos <- iterate files ;; for_each modify_file infos
   | None => ret tt
   end) ;;;
  (match dict_get (lit "additional_files") solution with
   | Some files => infos <- iterate files ;; for_each create_file infos
   | None => ret tt
   end).

(** [TestRunner._process_solution]: the result is [applied] and the tree
    it leaves; every exception is caught and gives [False].  [response] is
    what [query] returned, [None] included. *)
Definition process_solution (response : option str) (t : fs) : bool * fs :=
  match response with
  | None => (false, t)
  | Some response =>
      let json_start := find (lit "{") response in
      let json_end := (rfind (lit "}") response + 1)%Z in
      if (0 <=? json_start)%Z && (json_start <? json_end)%Z then
        let json_content := between_braces response in
        match json_loads json_content with
        | Some solution =>
            match apply_solution solution t with
            | (Returned _, t') => (true, t')
            | (Raised _, t') => (false, t')
            end
        | None => (false, t)
        end
      else (false, t)
  end.

End Applicator.

(** [Path(target_dir).rglob("*.java")]: the files below [target_dir]
    whose name ends with [.java], as the walk lists them. *)
Definition java_files (target_dir : str) (t : fs) : list str :=
  filter (fun p => startswith (target_dir ++ lit "/") p
                   && endswith (lit ".java") p)
         (map fst t).

(** The body of the loop of [_validate_file_structure]. *)
Definition check_file (file_path : str) : M fs unit :=
  let file_name := last_part (split (lit "/") file_path) in
  let is_test :=
    contains (lit "Test") file_name
    || startswith (lit "test") file_name
    || endswith (lit "Test") file_name in
  let in_test_dir := contains (lit "/test/java/") file_path in
  let in_main_dir := contains (lit "/main/java/") file_path in
  (if is_test && in_main_dir then
     let target_path :=
       replace (lit "/main/java/") (lit "/test/java/") file_path in
     content <- read_file_content file_path ;;
     write_file_content target_path content ;;;
     modify (remove_file file_path)
   else ret tt) ;;;
  content <- read_file_content file_path ;;
  match search package_pattern content with
  | Some (_, m) =>
      let package := group 1 (m_caps m) in
      if in_main_dir || in_test_dir then
        expected_package <- package_of_path file_path ;;
        if str_eqb package expected_package then ret tt
        else write_file_content
               file_path
               (rewrite_package package expected_package content)
      else ret tt
  | None => ret tt
  end.

(** [TestRunner._validate_file_structure] *)
Definition validate_file_structure (target_dir : str) : M fs unit :=
  all_java_files <- gets (java_files target_dir) ;;
  for_each check_file all_java_files.

(** What happens during a run of the test gate, in order. *)
Inductive event : Type :=
| Tested (success : bool)
| Repaired (applied : bool)
| ComprehensiveRepair (applied : bool)
| Asked (answer : str).

(** The events of a run that the operator ended: a failed test, two
    repairs that did not apply, and an answer other than [y]. *)
Definition declined (evs : list event) : Prop :=
  exists before answer,
    evs = before ++ [Tested false; Repaired false;
                     ComprehensiveRepair false; Asked answer]
    /\ lower answer <> lit "y".

(** The kinds of events, for counting them. *)
Definition is_test_run (e : event) : bool :=
  match e with Tested _ => true | _ => false end.

Definition is_repair (e : event) : bool :=
  match e with Repaired _ => true | _ => false end.

Definition is_comprehensive (e : event) : bool :=
  match e with ComprehensiveRepair _ => true | _ => false end.

Definition is_question (e : event) : bool :=
  match e with Asked _ => true | _ => false end.

Definition count (p : event -> bool) (evs : list event) : nat :=
  length (filter p evs).

(** Bounds on the events of a run, kind by kind; a question comes only
    after a comprehensive repair. *)
Definition within (tests repairs comprehensive questions : nat)
           (added : list event) : Prop :=
  count is_test_run added <= tests
  /\ count is_repair added <= repairs
  /\ count is_comprehensive added <= comprehensive
  /\ count is_question added <= questions
  /\ count is_question added <= count is_comprehensive added.

Section Gate.

(** The collaborators of the gate over a state [W]: the structural
    pre-pass, [run_tests] (success, stdout, stderr),
    [debug_and_fix_errors], [_try_comprehensive_fix] and [input]. *)
Variable W : Type.
Variable pre_pass : M W unit.
Variable run_tests : M W (bool * str * str).
Variable debug_and_fix_errors : str -> str -> M W bool.
Variable try_comprehensive_fix : str -> str -> M W bool.
Variable input : str -> M W str.

(** The state of the gate: the collaborators' state and the events so
    far. *)
Definition gate : Type := (W * list event)%type.

Definition lift {A} (m : M W A) (ev : A -> list event) : M gate A :=
  fun g =>
    match m (fst g) with
    | (Returned a, w) => (Returned a, (w, snd g ++ ev a))
    | (Raised e, w) => (Raised e, (w, snd g))
    end.

Definition question : str :=
  lit "Tests still failing. Would you like to manually fix and continue? (y/n): ".

(** The loop [for attempt in range(max_attempts)]: [Some b] when the body
    returns [b], [None] when the loop runs to its end. *)
Fixpoint gate_attempts (remaining attempt max_attempts : nat)
  : M gate (option bool) :=
  match remaining with
  | O => ret None
  | S remaining' =>
      let next := gate_attempts remaining' (S attempt) max_attempts in
      r <- lift run_tests (fun r => [Tested (fst (fst r))]) ;;
      let '(success, stdout, stderr) := r in
      if success then ret (Some true)
      else
        fixed <- lift (debug_and_fix_errors stdout stderr)
                      (fun b => [Repaired b]) ;;
        if fixed then next
        else if 2 <=? attempt then
          fixed <- lift (try_comprehensive_fix stdout stderr)
                        (fun b => [ComprehensiveRepair b]) ;;
          if fixed then next
          else if attempt =? max_attempts - 1 then
            user_input <- lift (input question) (fun a => [Asked a]) ;;
            if str_eqb (lower user_input) (lit "y") then next
            else ret (Some false)
          else next
        else next
  end.

(** [TestRunner.run_tests_until_success] *)
Definition run_tests_until_success (max_attempts : nat) : M gate bool :=
  lift pre_pass (fun _ => []) ;;;
  r <- gate_attempts max_attempts 0 max_attempts ;;
  match r with
  | Some b => ret b
  | None =>
      r <- lift run_tests (fun r => [Tested (fst (fst r))]) ;;
      ret (fst (fst r))
  end.

End Gate.

Arguments lift {W A}.
Arguments gate_attempts {W}.
Arguments run_tests_until_success {W}.

(** *** The repair step *)

(** [system_message] of [debug_and_fix_errors] *)
Definition repair_system_message : str :=
  lit "You are an expert Java developer assistant specializing in Spring Boot migration.
You will analyze test failures, identify root causes, and provide solutions.
Follow this problem-solving process:
1. Analyze the error logs to identify the specific problem
2. Determine which files need to be modified
3. Provide the exact code changes needed
4. Explain your reasoning briefly

IMPORTANT JAVA REQUIREMENTS:
- Each public class MUST be in a file with the same name (e.g., Member.java must contain public class Member)
- Avoid duplicate class declarations
- Method signatures in child interfaces must match parent interface signatures (including return types)
- Do not include any explanatory text in the Java files, only valid code

Your response should be structured as JSON with the following format:
{
  "
  ++ [dquote]
  ++ lit "analysis"
  ++ [dquote]
  ++ lit ": "
  ++ [dquote]
  ++ lit "Brief analysis of the error"
  ++ [dquote]
  ++ lit ",
  "
  ++ [dquote]
  ++ lit "files_to_modify"
  ++ [dquote]
  ++ lit ": [
    {
      "
  ++ [dquote]
  ++ lit "file_path"
  ++ [dquote]
  ++ lit ": "
  ++ [dquote]
  ++ lit "Relative path to the file from project root"
  ++ [dquote]
  ++ lit ",
      "
  ++ [dquote]
  ++ lit "code"
  ++ [dquote]
  ++ lit ": "
  ++ [dquote]
  ++ lit "Complete content of the fixed file"
  ++ [dquote]
  ++ lit "
    },
    ...
  ],
  "
  ++ [dquote]
  ++ lit "explanation"
  ++ [dquote]
  ++ lit ": "
  ++ [dquote]
  ++ lit "Brief explanation of your fix"
  ++ [dquote]
  ++ lit ",
  "
  ++ [dquote]
  ++ lit "additional_files"
  ++ [dquote]
  ++ lit ": [
    {
      "
  ++ [dquote]
  ++ lit "file_path"
  ++ [dquote]
  ++ lit ": "
  ++ [dquote]
  ++ lit "Path to any new file needed"
  ++ [dquote]
  ++ lit ",
      "
  ++ [dquote]
  ++ lit "code"
  ++ [dquote]
  ++ lit ": "
  ++ [dquote]
  ++ lit "Complete content of the new file"
  ++ [dquote]
  ++ lit "
    },
    ...
  ]
}".

(** [prompt] of [debug_and_fix_errors] *)
Definition repair_prompt (test_output error_message : str) : str :=
  lit "
        I'm migrating a JBoss application to Spring Boot and encountered test failures.
        
        Here's the test output:
        "
  ++ test_output
  ++ lit "
        
        Here's the error message:
        "
  ++ error_message
  ++ lit "
        
        Please analyze what's wrong and provide a fix in the required JSON format.
        ".

Section Repair.

Variable service : Type.
Variable post : service -> list message -> response * service.
Variable target_dir : str.
Variable json_loads : str -> option (list (str * json)).
Variable format_value : json -> str.

(** [TestRunner.debug_and_fix_errors], over the gateway and the target
    tree. *)
Definition debug_and_fix_errors (test_output error_message : str)
  : M (client service * fs) bool :=
  fun s =>
    let test_output := truncate_text test_output 10000 in
    let error_message := truncate_text error_message 10000 in
    let system_message := repair_system_message in
    let prompt := repair_prompt test_output error_message in
    match query post _preprocess_prompt prompt (Some system_message) 3
                (fst s) with
    | (Returned response, c) =>
        let '(applied, t) :=
          process_solution target_dir json_loads format_value response
                           (snd s) in
        (Returned applied, (c, t))
    | (Raised e, c) => (Raised e, (c, snd s))
    end.

End Repair.

Arguments debug_and_fix_errors {service}.

(** [comprehensive_prompt] of [_try_comprehensive_fix]; [files] is the text [json.dumps] gives for the file contents *)
Definition comprehensive_prompt (stdout stderr files : str) : str :=
  lit "
        I'm debugging Spring Boot test failures and need a comprehensive solution.
        
        Test output (truncated):
        "
  ++ truncate_text stdout 5000
  ++ lit "
        
        Error message (truncated):
        "
  ++ truncate_text stderr 5000
  ++ lit "
        
        Here are the key project files (some truncated for brevity):
        
        "
  ++ files
  ++ lit "
        
        Please analyze what's wrong and provide fixes for ALL relevant files in the required JSON format.
        ".

(** [file_contents[key] = value] on a dictionary kept in insertion
    order *)
Fixpoint dict_set (key value : str) (d : list (str * str))
  : list (str * str) :=
  match d with
  | [] => [(key, value)]
  | (k, v) :: rest =>
      if str_eqb k key then (k, value) :: rest
      else (k, v) :: dict_set key value rest
  end.

(** [file_path.relative_to(self.target_dir)] for a path under the
    directory *)
Definition relative_to (target_dir file_path : str) : str :=
  skipn (length target_dir + 1) file_path.

Section Comprehensive.

Variable service : Type.
Variable post : service -> list message -> response * service.
Variable target_dir : str.
Variable json_loads : str -> option (list (str * json)).
Variable format_value : json -> str.

(** [json.dumps(file_contents, indent=2)] *)
Variable json_dumps : list (str * str) -> str.

(** The loop over [all_files[:10]]. *)
Fixpoint read_files (files : list str) (file_contents : list (str * str))
  : M fs (list (str * str)) :=
  match files with
  | [] => ret file_contents
  | file_path :: rest =>
      let relative_path := relative_to target_dir file_path in
      content <- read_file_content file_path ;;
      read_files rest
                 (dict_set relative_path (truncate_java_file content 3000)
                           file_contents)
  end.

(** [TestRunner._try_comprehensive_fix] *)
Definition try_comprehensive_fix (stdout stderr : str)
  : M (client service * fs) bool :=
  fun s =>
    let all_files := java_files target_dir (snd s) in
    match read_files (firstn 10 all_files) [] (snd s) with
    | (Returned file_contents, _) =>
        let comprehensive_prompt :=
          comprehensive_prompt stdout stderr (json_dumps file_contents) in
        debug_and_fix_errors post target_dir json_loads format_value
                             comprehensive_prompt [] s
    | (Raised e, _) => (Raised e, s)
    end.

End Comprehensive.

Arguments try_comprehensive_fix {service}.

End TestRunner.
Import TestRunner.

(* ===================================================================== *)
(** ** Collaborators for concrete runs *)
(* ===================================================================== *)

Module Scenarios.

(** A service that plays back a script of responses, and is unavailable
    once the script is over. *)
Definition script : Type := list response.

Definition play (svc : script) (_ : list message) : response * script :=
  match svc with
  | r :: rest => (r, rest)
  | [] => (Response 503 [], [])
  end.

Definition start (svc : script) : client script := Client svc 0.

Definition fresh (svc : script) (t : fs) : world script :=
  World (start svc) 0 t.

(** A prompt is sent as it is. *)
Definition as_is (prompt : str) : str := prompt.

(** A test gate whose tests always fail, whose repairs never apply and
    whose operator gives a fixed answer. *)
Definition failing_tests : M unit (bool * str * str) :=
  ret (false, lit "BUILD FAILURE", []).

Definition no_repair (_ _ : str) : M unit bool := ret false.

Definition operator (answer : str) (_ : str) : M unit str := ret answer.

Definition no_pre_pass : M unit unit := ret tt.

(** A service that also keeps the requests it was sent, in order. *)
Definition recording {service : Type}
           (post : service -> list message -> response * service)
           (logged : service * list (list message)) (messages : list message)
  : response * (service * list (list message)) :=
  let '(r, svc) := post (fst logged) messages in
  (r, (svc, snd logged ++ [messages])).

End Scenarios.
Import Scenarios.

(* ===================================================================== *)
(** * Properties *)
(* ===================================================================== *)

(** ** Strings *)

Lemma chr_eqb_eq (a b : ascii) : chr_eqb a b = true <-> a = b.
Proof. unfold chr_eqb. apply Ascii.eqb_eq. Qed.

Lemma chr_eqb_refl (a : ascii) : chr_eqb a a = true.
Proof. apply chr_eqb_eq. reflexivity. Qed.

Lemma str_eqb_eq (a b : str) : str_eqb a b = true <-> a = b.
Proof.
  revert b. induction a as [|x a IH]; intros [|y b]; simpl;
    try (split; [discriminate | discriminate]); try tauto.
  rewrite andb_true_iff, chr_eqb_eq, IH.
  split; [intros [-> ->]; reflexivity | intros H; inversion H; auto].
Qed.

Lemma str_eqb_refl (a : str) : str_eqb a a = true.
Proof. apply str_eqb_eq. reflexivity. Qed.

Lemma str_eqb_neq (a b : str) : str_eqb a b = false <-> a <> b.
Proof.
  split.
  - intros H E. apply str_eqb_eq in E. congruence.
  - intros H. destruct (str_eqb a b) eqn:E; [|reflexivity].
    apply str_eqb_eq in E. contradiction.
Qed.

Lemma startswith_iff (p s : str) :
  startswith p s = true <-> exists t, s = p ++ t.
Proof.
  revert s. induction p as [|a p IH]; intros s; simpl.
  - split; [intros _; exists s; reflexivity | reflexivity].
  - destruct s as [|b s].
    + split; [discriminate | intros [t H]; discriminate].
    + rewrite andb_true_iff, chr_eqb_eq, IH. split.
      * intros [-> [t ->]]. exists t. reflexivity.
      * intros [t H]. inversion H. split; [reflexivity | exists t; reflexivity].
Qed.

Lemma startswith_app (p t : str) : startswith p (p ++ t) = true.
Proof. apply startswith_iff. exists t. reflexivity. Qed.

Lemma startswith_app_r (p s t : str) :
  startswith p s = true -> startswith p (s ++ t) = true.
Proof.
  rewrite !startswith_iff. intros [u ->]. exists (u ++ t).
  rewrite app_assoc. reflexivity.
Qed.

Lemma contains_iff (sub s : str) :
  contains sub s = true <-> exists pre post, s = pre ++ sub ++ post.
Proof.
  induction s as [|c s IH]; simpl.
  - rewrite orb_false_r, startswith_iff. split.
    + intros [t H]. exists [], t. exact H.
    + intros [pre [post H]]. destruct pre; simpl in H.
      * exists post. exact H.
      * discriminate.
  - rewrite orb_true_iff, startswith_iff, IH. split.
    + intros [[t H] | [pre [post H]]].
      * exists [], t. exact H.
      * exists (c :: pre), post. rewrite H. reflexivity.
    + intros [[|d pre] [post H]]; simpl in H.
      * left. exists post. exact H.
      * right. inversion H. exists pre, post. reflexivity.
Qed.

Lemma contains_app_l (sub u s : str) :
  contains sub s = true -> contains sub (u ++ s) = true.
Proof.
  rewrite !contains_iff. intros [pre [post ->]].
  exists (u ++ pre), post. rewrite app_assoc. reflexivity.
Qed.

Lemma contains_app_r (sub s u : str) :
  contains sub s = true -> contains sub (s ++ u) = true.
Proof.
  rewrite !contains_iff. intros [pre [post ->]].
  exists pre, (post ++ u). rewrite <- !app_assoc. reflexivity.
Qed.

Lemma lstrip_suffix (s : str) : exists w, s = w ++ lstrip s.
Proof.
  induction s as [|c s [w IH]]; simpl.
  - exists []. reflexivity.
  - destruct (is_space c).
    + exists (c :: w). simpl. rewrite <- IH. reflexivity.
    + exists []. reflexivity.
Qed.

Lemma rstrip_prefix (s : str) : exists w, s = rstrip s ++ w.
Proof.
  unfold rstrip. destruct (lstrip_suffix (rev s)) as [w H].
  exists (rev w). rewrite <- rev_app_distr, <- H, rev_involutive. reflexivity.
Qed.

Lemma strip_inside (s : str) : exists u w, s = u ++ strip s ++ w.
Proof.
  unfold strip. destruct (lstrip_suffix s) as [u Hu].
  destruct (rstrip_prefix (lstrip s)) as [w Hw].
  exists u, w. rewrite <- Hw. exact Hu.
Qed.

Lemma startswith_strip_contains (p s : str) :
  startswith p (strip s) = true -> contains p s = true.
Proof.
  intros H. destruct (strip_inside s) as [u [w E]]. rewrite E.
  apply contains_app_l, contains_app_r.
  apply contains_iff. apply startswith_iff in H. destruct H as [t ->].
  exists [], t. reflexivity.
Qed.

Lemma is_explanation_contains (content : str) :
  is_explanation content = true ->
  existsb (fun indicator => contains indicator content)
          explanation_indicators = true.
Proof.
  unfold is_explanation. rewrite !existsb_exists.
  intros [ind [Hin H]]. exists ind. split; [exact Hin|].
  apply startswith_strip_contains. exact H.
Qed.

(** ** The query gateway *)

Lemma attempts_http_error
      (service : Type) (post : service -> list message -> response * service)
      (remaining attempt max_attempts : nat) (prompt : str)
      (messages : list message) (c : client service)
      (r : response) (svc : service) :
  post (remote c) (outgoing attempt prompt messages) = (r, svc) ->
  status_code r <> 200 ->
  attempts post (S remaining) attempt max_attempts prompt messages c
  = (Returned None, Client svc (S (requests c))).
Proof.
  intros Hpost Hstatus. simpl. unfold bind, send. rewrite Hpost.
  apply Nat.eqb_neq in Hstatus. rewrite Hstatus. reflexivity.
Qed.

Lemma attempts_accepted
      (service : Type) (post : service -> list message -> response * service)
      (remaining attempt max_attempts : nat) (prompt : str)
      (messages : list message) (c : client service)
      (content code : str) (svc : service) :
  post (remote c) (outgoing attempt prompt messages)
  = (Response 200 content, svc) ->
  extract_code_if_present content = Some code ->
  attempts post (S remaining) attempt max_attempts prompt messages c
  = (Returned (Some code), Client svc (S (requests c))).
Proof.
  intros Hpost Hcode. simpl. unfold bind, send. rewrite Hpost. simpl.
  rewrite Hcode. reflexivity.
Qed.

Lemma extract_code_plain (content : str) :
  contains fence content = false ->
  existsb (fun indicator => contains indicator content)
          explanation_indicators = false ->
  contains (lit "public class") content
  || contains (lit "public interface") content = false ->
  extract_code_if_present content = Some content.
Proof.
  intros Hfence Hind Hdecl. unfold extract_code_if_present.
  destruct (is_explanation content) eqn:E.
  - apply is_explanation_contains in E. congruence.
  - rewrite Hfence, Hdecl, Hind. reflexivity.
Qed.

(** C6, as the code has it.  In every state of the attempt loop of
    [query] with at least one attempt left, a response whose status is
    not 200 ends the whole query at once: the result is [None], exactly
    one request was sent, and the attempts that remain are not used. *)
Theorem query_ends_at_http_error
        (service : Type) (post : service -> list message -> response * service)
        (remaining attempt max_attempts : nat) (prompt : str)
        (messages : list message) (c : client service)
        (r : response) (svc : service) :
  post (remote c) (outgoing attempt prompt messages) = (r, svc) ->
  status_code r <> 200 ->
  attempts post (S remaining) attempt max_attempts prompt messages c
  = (Returned None, Client svc (S (requests c))).
Proof. apply attempts_http_error. Qed.

Lemma query_ends_at_http_error_witness :
  play (remote (start [Response 500 []; Response 200 (lit "class A {}")]))
       (outgoing 0 (lit "migrate") [])
  = (Response 500 [], [Response 200 (lit "class A {}")])
  /\ status_code (Response 500 []) <> 200
  /\ attempts play 3 0 3 (lit "migrate") []
              (start [Response 500 []; Response 200 (lit "class A {}")])
     = (Returned None, Client [Response 200 (lit "class A {}")] 1).
Proof.
  split; [reflexivity|]. split; [simpl; lia|].
  apply (@query_ends_at_http_error script play 2 0 3 (lit "migrate") []
           (start [Response 500 []; Response 200 (lit "class A {}")])
           (Response 500 []) [Response 200 (lit "class A {}")]).
  - reflexivity.
  - simpl. lia.
Defined.

(** C6, as the claim has it, fails: with three attempts allowed, a
    service that answers 500 and would then answer 200 with valid code is
    asked once; the query returns [None] and the second answer is never
    requested. *)
Lemma query_does_not_continue_after_http_error :
  let good := Response 200 (lit "public class Member {}") in
  extract_code_if_present (reply good) = Some (reply good)
  /\ query play as_is (lit "migrate") None 3 (start [Response 500 []; good])
     = (Returned None, Client [good] 1).
Proof. vm_compute. split; reflexivity. Qed.

(** C10.  A response with status 200 whose content has no fenced block,
    contains none of the explanatory phrases (so does not start with one
    either) and contains neither [public class] nor [public interface] is
    returned verbatim by [_extract_code_if_present], and [query] returns
    it as its result after a single request. *)
Theorem gateway_returns_undeclared_text
        (service : Type) (post : service -> list message -> response * service)
        (preprocess_prompt : str -> str)
        (prompt : str) (system_message : option str) (more : nat)
        (c : client service) (content : str) (svc : service) :
  contains fence content = false ->
  existsb (fun indicator => contains indicator content)
          explanation_indicators = false ->
  contains (lit "public class") content
  || contains (lit "public interface") content = false ->
  (forall messages,
      post (remote c) messages = (Response 200 content, svc)) ->
  extract_code_if_present content = Some content
  /\ query post preprocess_prompt prompt system_message (S more) c
     = (Returned (Some content), Client svc (S (requests c))).
Proof.
  intros Hfence Hind Hdecl Hpost.
  assert (E : extract_code_if_present content = Some content)
    by (apply extract_code_plain; assumption).
  split; [exact E|].
  unfold query. apply attempts_accepted with (content := content).
  - apply Hpost.
  - exact E.
Qed.

Lemma gateway_returns_undeclared_text_witness :
  let content := lit "int total = 0;" in
  search declaration_pattern content = None
  /\ extract_code_if_present content = Some content
  /\ query play as_is (lit "migrate") None 3 (start [Response 200 content])
     = (Returned (Some content), Client [] 1).
Proof.
  split; [vm_compute; reflexivity|].
  apply (@gateway_returns_undeclared_text script play as_is (lit "migrate")
           None 2 (start [Response 200 (lit "int total = 0;")])
           (lit "int total = 0;") []).
  - vm_compute; reflexivity.
  - vm_compute; reflexivity.
  - vm_compute; reflexivity.
  - intros messages. reflexivity.
Defined.

(** ** The test gate *)

Section GateFacts.

Variable W : Type.
Variable pre_pass : M W unit.
Variable run_tests : M W (bool * str * str).
Variable debug_and_fix_errors : str -> str -> M W bool.
Variable try_comprehensive_fix : str -> str -> M W bool.
Variable input : str -> M W str.

Lemma lift_returned {A} (m : M W A) (ev : A -> list event)
      (g g' : gate W) (a : A) :
  lift m ev g = (Returned a, g') -> snd g' = snd g ++ ev a.
Proof.
  unfold lift. destruct (m (fst g)) as [[x|e] w]; intros H; inversion H.
  reflexivity.
Qed.

Lemma gate_attempts_return (remaining attempt max_attempts : nat) :
  forall (g g' : gate W) (r : bool),
    gate_attempts run_tests debug_and_fix_errors try_comprehensive_fix input
                  remaining attempt max_attempts g = (Returned (Some r), g') ->
    (r = true /\ exists before, snd g' = before ++ [Tested true])
    \/ (r = false /\ declined (snd g')).
Proof.
  revert attempt.
  induction remaining as [|remaining IH]; intros attempt g g' r H.
  - discriminate.
  - cbn [gate_attempts] in H. unfold bind at 1 in H.
    destruct (lift run_tests _ g) as [[[[success stdout] stderr]|e] g1] eqn:E1;
      [|discriminate].
    apply lift_returned in E1. simpl in E1.
    destruct success.
    + inversion H; subst. left. split; [reflexivity|].
      exists (snd g). exact E1.
    + unfold bind at 1 in H.
      destruct (lift (debug_and_fix_errors stdout stderr) _ g1)
        as [[fixed|e] g2] eqn:E2; [|discriminate].
      apply lift_returned in E2.
      destruct fixed; [apply IH in H; exact H|].
      destruct (2 <=? attempt); [|apply IH in H; exact H].
      unfold bind at 1 in H.
      destruct (lift (try_comprehensive_fix stdout stderr) _ g2)
        as [[fixed|e] g3] eqn:E3; [|discriminate].
      apply lift_returned in E3.
      destruct fixed; [apply IH in H; exact H|].
      destruct (attempt =? max_attempts - 1); [|apply IH in H; exact H].
      unfold bind at 1 in H.
      destruct (lift (input question) _ g3) as [[answer|e] g4] eqn:E4;
        [|discriminate].
      apply lift_returned in E4.
      destruct (str_eqb (lower answer) (lit "y")) eqn:Ey;
        [apply IH in H; exact H|].
      inversion H; subst. right. split; [reflexivity|].
      exists (snd g), answer. split.
      * rewrite E4, E3, E2, E1. rewrite <- !app_assoc. reflexivity.
      * apply str_eqb_neq. exact Ey.
Qed.

Lemma run_tests_until_success_return (max_attempts : nat)
      (g g' : gate W) (b : bool) :
  run_tests_until_success pre_pass run_tests debug_and_fix_errors
                          try_comprehensive_fix input max_attempts g
  = (Returned b, g') ->
  (exists before, snd g' = before ++ [Tested b])
  \/ (b = false /\ declined (snd g')).
Proof.
  unfold run_tests_until_success. intros H.
  unfold bind at 1 in H.
  destruct (lift pre_pass _ g) as [[u|e] g0]; [|discriminate].
  unfold bind at 1 in H.
  destruct (gate_attempts _ _ _ _ _ _ _ g0) as [[[r|]|e] g1] eqn:E;
    [| |discriminate].
  - inversion H; subst.
    apply gate_attempts_return in E. destruct E as [[-> [before E]]|[-> E]].
    + left. exists before. exact E.
    + right. split; [reflexivity | exact E].
  - unfold bind at 1 in H.
    destruct (lift run_tests _ g1) as [[[[success stdout] stderr]|e] g2] eqn:E1;
      [|discriminate].
    apply lift_returned in E1. inversion H; subst.
    left. exists (snd g1). exact E1.
Qed.

End GateFacts.

(** C7, as the code has it.  When [run_tests_until_success] returns, then
    on every path but one the value returned is the result of the last
    event of the run, a test invocation, so that no repair comes after
    it; on the path where the operator declines, [False] is returned at
    once: the last test invocation came before the last repair attempts
    and the tests are not run again. *)
Theorem gate_result_is_last_test_unless_declined
        (W : Type) (pre_pass : M W unit) (run_tests : M W (bool * str * str))
        (debug_and_fix_errors try_comprehensive_fix : str -> str -> M W bool)
        (input : str -> M W str)
        (max_attempts : nat) (w w' : W) (b : bool) (evs : list event) :
  run_tests_until_success pre_pass run_tests debug_and_fix_errors
                          try_comprehensive_fix input max_attempts (w, [])
  = (Returned b, (w', evs)) ->
  (exists before, evs = before ++ [Tested b])
  \/ (b = false /\ declined evs).
Proof.
  intros H. apply run_tests_until_success_return in H. exact H.
Qed.

Lemma gate_result_is_last_test_unless_declined_witness :
  run_tests_until_success no_pre_pass failing_tests no_repair no_repair
                          (operator (lit "y")) 1 (tt, [])
  = (Returned false, (tt, [Tested false; Repaired false; Tested false]))
  /\ ((exists before,
          [Tested false; Repaired false; Tested false]
          = before ++ [Tested false])
      \/ (false = false
          /\ declined [Tested false; Repaired false; Tested false])).
Proof.
  split; [reflexivity|].
  apply (@gate_result_is_last_test_unless_declined
           unit no_pre_pass failing_tests no_repair no_repair
           (operator (lit "y")) 1 tt tt false
           [Tested false; Repaired false; Tested false]).
  reflexivity.
Defined.

(** C7, as the claim has it, fails on the path of the operator's refusal:
    after five failed attempts and the answer [n], the gate returns
    [False] with a prompt as its last event; the last test invocation is
    followed by two repair attempts and no test is run after them. *)
Lemma gate_declined_without_final_test :
  let evs :=
    [Tested false; Repaired false;
     Tested false; Repaired false;
     Tested false; Repaired false; ComprehensiveRepair false;
     Tested false; Repaired false; ComprehensiveRepair false;
     Tested false; Repaired false; ComprehensiveRepair false;
     Asked (lit "n")] in
  run_tests_until_success no_pre_pass failing_tests no_repair no_repair
                          (operator (lit "n")) 5 (tt, [])
  = (Returned false, (tt, evs))
  /\ forall b earlier, evs <> earlier ++ [Tested b].
Proof.
  split.
  - vm_compute. reflexivity.
  - intros b earlier H.
    apply (f_equal (fun l => last l (Tested true))) in H.
    rewrite last_last in H. simpl in H. discriminate.
Qed.

(** ** The solution applicator *)

Lemma find_from_range (sub s : str) (i : Z) :
  find_from sub s i = (-1)%Z \/ (i <= find_from sub s i)%Z.
Proof.
  revert i. induction s as [|c s IH]; intros i; simpl.
  - destruct (startswith sub []); [right; lia | left; reflexivity].
  - destruct (startswith sub (c :: s)); [right; lia|].
    destruct (IH (i + 1)%Z) as [H|H]; [left; exact H | right; lia].
Qed.

Lemma find_from_found (sub s : str) (i : Z) :
  (0 <= i)%Z -> (0 <= find_from sub s i)%Z ->
  exists pre post,
    s = pre ++ sub ++ post
    /\ find_from sub s i = (i + Z.of_nat (length pre))%Z.
Proof.
  revert i. induction s as [|c s IH]; intros i Hi H; simpl in *.
  - destruct (startswith sub []) eqn:E; [|lia].
    apply startswith_iff in E. destruct E as [t E].
    exists [], t. split; [exact E | simpl; lia].
  - destruct (startswith sub (c :: s)) eqn:E.
    + apply startswith_iff in E. destruct E as [t E].
      exists [], t. split; [exact E | simpl; lia].
    + destruct (IH (i + 1)%Z) as [pre [post [E1 E2]]]; [lia | exact H |].
      exists (c :: pre), post. split; [rewrite E1; reflexivity|].
      rewrite E2. simpl length. lia.
Qed.

Lemma find_from_first (sub pre post : str) (i : Z) :
  (i <= find_from sub (pre ++ sub ++ post) i <= i + Z.of_nat (length pre))%Z.
Proof.
  revert i. induction pre as [|c pre IH]; intros i; simpl.
  - assert (E : startswith sub (sub ++ post) = true) by apply startswith_app.
    destruct (sub ++ post) eqn:Es; simpl; simpl in E; rewrite E; lia.
  - destruct (startswith sub (c :: pre ++ sub ++ post)); [lia|].
    specialize (IH (i + 1)%Z). lia.
Qed.

Lemma rfind_from_range (sub s : str) (i : Z) :
  rfind_from sub s i = (-1)%Z \/ (i <= rfind_from sub s i)%Z.
Proof.
  revert i. induction s as [|c s IH]; intros i; simpl.
  - destruct (startswith sub []); [right; lia | left; reflexivity].
  - destruct (0 <=? rfind_from sub s (i + 1))%Z eqn:E.
    + apply Z.leb_le in E. destruct (IH (i + 1)%Z) as [H|H]; right; lia.
    + destruct (startswith sub (c :: s)); [right; lia | left; reflexivity].
Qed.

Lemma rfind_from_found (sub s : str) (i : Z) :
  (0 <= i)%Z -> (0 <= rfind_from sub s i)%Z ->
  exists pre post,
    s = pre ++ sub ++ post
    /\ rfind_from sub s i = (i + Z.of_nat (length pre))%Z.
Proof.
  revert i. induction s as [|c s IH]; intros i Hi H; simpl in *.
  - destruct (startswith sub []) eqn:E; [|lia].
    apply startswith_iff in E. destruct E as [t E].
    exists [], t. split; [exact E | simpl; lia].
  - destruct (0 <=? rfind_from sub s (i + 1))%Z eqn:El.
    + apply Z.leb_le in El.
      destruct (IH (i + 1)%Z) as [pre [post [E1 E2]]]; [lia | exact El |].
      exists (c :: pre), post. split; [rewrite E1; reflexivity|].
      rewrite E2. simpl length. lia.
    + destruct (startswith sub (c :: s)) eqn:E; [|lia].
      apply startswith_iff in E. destruct E as [t E].
      exists [], t. split; [exact E | simpl; lia].
Qed.

Lemma rfind_from_last (sub pre post : str) (i : Z) :
  (0 <= i)%Z ->
  (i + Z.of_nat (length pre) <= rfind_from sub (pre ++ sub ++ post) i)%Z.
Proof.
  revert i. induction pre as [|c pre IH]; intros i Hi.
  - simpl app.
    assert (E : startswith sub (sub ++ post) = true) by apply startswith_app.
    destruct (rfind_from_range sub (sub ++ post) i) as [H|H];
      [|simpl length; lia].
    exfalso. destruct (sub ++ post) as [|c s] eqn:Es; simpl in H;
      simpl in E; rewrite E in H.
    + lia.
    + destruct (0 <=? rfind_from sub s (i + 1))%Z eqn:El; lia.
  - simpl. specialize (IH (i + 1)%Z).
    destruct (0 <=? rfind_from sub (pre ++ sub ++ post) (i + 1))%Z eqn:El;
      [lia|].
    apply Z.leb_gt in El. lia.
Qed.

Lemma app_split_earlier {A} (pre1 pre2 post1 post2 : list A) (a b : A) :
  pre1 ++ a :: post1 = pre2 ++ b :: post2 ->
  length pre1 < length pre2 ->
  exists mid, pre2 = pre1 ++ a :: mid.
Proof.
  revert pre2. induction pre1 as [|x pre1 IH]; intros [|y pre2] H L;
    simpl in *; try lia.
  - inversion H. exists pre2. reflexivity.
  - inversion H. destruct (IH pre2) as [mid E]; [assumption | lia |].
    exists mid. rewrite E. reflexivity.
Qed.

(** The guard of [_process_solution] holds exactly when an opening brace
    comes before a closing brace. *)
Lemma braces_guard (response : str) :
  (0 <=? find (lit "{") response)%Z
  && (find (lit "{") response <? rfind (lit "}") response + 1)%Z = true
  <-> brace_before_brace response.
Proof.
  unfold find, rfind. rewrite andb_true_iff, Z.leb_le, Z.ltb_lt. split.
  - intros [H1 H2].
    destruct (find_from_found (lit "{") response 0) as [p1 [q1 [E1 F1]]];
      [lia | exact H1 |].
    destruct (rfind_from_found (lit "}") response 0) as [p2 [q2 [E2 F2]]];
      [lia | lia |].
    assert (L : length p1 <> length p2).
    { intros L. rewrite E2 in E1. simpl in E1.
      apply (f_equal (fun l => nth (length p1) l " "%char)) in E1.
      rewrite L in E1 at 1. rewrite !nth_middle in E1. discriminate. }
    simpl in E1, E2. rewrite E2 in E1. symmetry in E1.
    destruct (app_split_earlier _ _ _ _ _ _ E1) as [mid Em]; [lia|].
    exists p1, mid, q2. rewrite E2, Em. simpl.
    rewrite <- app_assoc. reflexivity.
  - intros [pre [mid [post E]]].
    pose proof (find_from_first (lit "{") pre (mid ++ lit "}" ++ post) 0) as F.
    rewrite <- E in F.
    assert (E' : response = (pre ++ lit "{" ++ mid) ++ lit "}" ++ post)
      by (rewrite E, <- !app_assoc; reflexivity).
    pose proof (rfind_from_last (lit "}") (pre ++ lit "{" ++ mid) post 0) as R.
    rewrite <- E' in R. rewrite !length_app in R. simpl length in R. lia.
Qed.

Lemma process_solution_rejects
      (target_dir : str) (json_loads : str -> option (list (str * json)))
      (format_value : json -> str) (response : str) (t : fs) :
  ~ brace_before_brace response
  \/ json_loads (between_braces response) = None ->
  process_solution target_dir json_loads format_value (Some response) t
  = (false, t).
Proof.
  intros H. unfold process_solution.
  destruct ((0 <=? find (lit "{") response)%Z
            && (find (lit "{") response <? rfind (lit "}") response + 1)%Z)
    eqn:G; [|reflexivity].
  destruct H as [H|H].
  - exfalso. apply H. apply braces_guard. exact G.
  - rewrite H. reflexivity.
Qed.

(** C4.  When no opening brace comes before a closing brace in the
    response, or the text from the first opening brace to the last
    closing brace does not decode, the applicator returns
    [applied = False] and leaves the file tree as it was: no file is
    written, none from [additional_files] in particular. *)
Theorem malformed_response_writes_nothing
        (target_dir : str) (json_loads : str -> option (list (str * json)))
        (format_value : json -> str) (response : str) (t : fs) :
  ~ brace_before_brace response
  \/ json_loads (between_braces response) = None ->
  process_solution target_dir json_loads format_value (Some response) t
  = (false, t).
Proof. apply process_solution_rejects. Qed.

Lemma malformed_response_writes_nothing_witness :
  let decode_all (_ : str) : option (list (str * json)) :=
    Some [(lit "additional_files",
           JArr [JObj [(lit "file_path", JStr (lit "pom.xml"));
                       (lit "code", JStr (lit "<project/>"))]])] in
  let response := lit "} the closing brace is missing {" in
  let t := [(lit "/t/pom.xml", lit "<project></project>")] in
  (~ brace_before_brace response
   \/ decode_all (between_braces response) = None)
  /\ process_solution (lit "/t") decode_all (fun _ => []) (Some response) t
     = (false, t).
Proof.
  intros decode_all response t.
  assert (H : ~ brace_before_brace response
              \/ decode_all (between_braces response) = None).
  { left. intros B. apply braces_guard in B. vm_compute in B. discriminate. }
  split; [exact H|].
  apply (malformed_response_writes_nothing (lit "/t") decode_all
           (fun _ => []) response t).
  exact H.
Defined.

(** ** The regular expressions *)

Lemma drop_prefix_iff (p s t : str) :
  drop_prefix p s = Some t <-> s = p ++ t.
Proof.
  revert s. induction p as [|a p IH]; intros s; simpl.
  - split; [intros H; inversion H; reflexivity | intros ->; reflexivity].
  - destruct s as [|b s]; [split; discriminate|].
    destruct (chr_eqb a b) eqn:E.
    + apply chr_eqb_eq in E. subst b. rewrite IH. split.
      * intros ->. reflexivity.
      * intros H. inversion H. reflexivity.
    + split; [discriminate|]. intros H. inversion H. subst.
      rewrite chr_eqb_refl in E. discriminate.
Qed.

Lemma drop_prefix_app (p t : str) : drop_prefix p (p ++ t) = Some t.
Proof. apply drop_prefix_iff. reflexivity. Qed.

Lemma run_after_run (p : ascii -> bool) (s : str) :
  s = run p s ++ after_run p s.
Proof.
  induction s as [|c s IH]; simpl; [reflexivity|].
  destruct (p c); simpl; [rewrite <- IH|]; reflexivity.
Qed.

Lemma run_all (p : ascii -> bool) (s : str) : forallb p (run p s) = true.
Proof.
  induction s as [|c s IH]; simpl; [reflexivity|].
  destruct (p c) eqn:E; simpl; [rewrite E, IH|]; reflexivity.
Qed.

Lemma after_run_not_headed (p : ascii -> bool) (s : str) :
  not_headed p (after_run p s).
Proof.
  induction s as [|c s IH]; simpl; [exact I|].
  destruct (p c) eqn:E; [exact IH | exact E].
Qed.

Lemma run_app (p : ascii -> bool) (w t : str) :
  forallb p w = true -> not_headed p t -> run p (w ++ t) = w.
Proof.
  intros Hw Ht. induction w as [|c w IH]; simpl in *.
  - destruct t as [|d t]; simpl in *; [reflexivity|]. rewrite Ht. reflexivity.
  - apply andb_true_iff in Hw. destruct Hw as [Hc Hw].
    rewrite Hc, IH; [reflexivity | exact Hw].
Qed.

Lemma after_run_app (p : ascii -> bool) (w t : str) :
  forallb p w = true -> not_headed p t -> after_run p (w ++ t) = t.
Proof.
  intros Hw Ht. induction w as [|c w IH]; simpl in *.
  - destruct t as [|d t]; simpl in *; [reflexivity|]. rewrite Ht. reflexivity.
  - apply andb_true_iff in Hw. destruct Hw as [Hc Hw].
    rewrite Hc, IH; [reflexivity | exact Hw].
Qed.

Lemma span_rev_eq (p : ascii -> bool) (s acc : str) :
  span_rev p s acc = (rev (run p s) ++ acc, after_run p s).
Proof.
  revert acc. induction s as [|c s IH]; intros acc; simpl; [reflexivity|].
  destruct (p c); [|reflexivity].
  rewrite IH. simpl. rewrite <- app_assoc. reflexivity.
Qed.

Lemma plus_back_sound (taken_rev rest : str) (caps : captures) (k : cont)
      (res : str * captures) :
  plus_back taken_rev rest caps k = Some res ->
  exists a b,
    rev taken_rev = a ++ b /\ a <> [] /\ k (b ++ rest) caps = Some res.
Proof.
  revert rest. induction taken_rev as [|c t IH]; intros rest H; simpl in H.
  - discriminate.
  - destruct (k rest caps) eqn:E.
    + inversion H; subst. exists (rev (c :: t)), [].
      rewrite app_nil_r. split; [reflexivity|]. split; [|exact E].
      simpl. intros N. apply app_eq_nil in N. destruct N; discriminate.
    + apply IH in H. destruct H as [a [b [E1 [E2 E3]]]].
      exists a, (b ++ [c]). split; [|split; [exact E2|]].
      * simpl. rewrite E1, app_assoc. reflexivity.
      * rewrite <- app_assoc. exact E3.
Qed.

Lemma plus_back_first (taken_rev rest : str) (caps : captures) (k : cont)
      (res : str * captures) :
  taken_rev <> [] -> k rest caps = Some res ->
  plus_back taken_rev rest caps k = Some res.
Proof.
  intros N H. destruct taken_rev; [contradiction|]. simpl. rewrite H.
  reflexivity.
Qed.

Lemma forallb_app_l {A} (p : A -> bool) (a b : list A) :
  forallb p (a ++ b) = true -> forallb p a = true.
Proof. rewrite forallb_app, andb_true_iff. tauto. Qed.

(** Whatever the engine finds is a match in the sense of [matches], and
    the continuation was run on what follows it. *)
Lemma rx_sound (r : regex) :
  forall (s : str) (caps : captures) (k : cont) (res : str * captures),
    rx r s caps k = Some res ->
    exists s1 s2 caps',
      s = s1 ++ s2 /\ matches r s1 /\ k s2 caps' = Some res.
Proof.
  induction r as [l|p|r1 IH1 r2 IH2|r1 IH1 r2 IH2|r1 IH1|n r1 IH1];
    intros s caps k res H; simpl in H.
  - destruct (drop_prefix l s) as [rest|] eqn:E; [|discriminate].
    apply drop_prefix_iff in E. exists l, rest, caps.
    split; [exact E|]. split; [constructor | exact H].
  - rewrite span_rev_eq in H. rewrite app_nil_r in H.
    apply plus_back_sound in H. destruct H as [a [b [E1 [E2 E3]]]].
    rewrite rev_involutive in E1.
    exists a, (b ++ after_run p s), caps. split; [|split].
    + rewrite app_assoc, <- E1. apply run_after_run.
    + constructor; [exact E2|].
      apply forallb_app_l with (b := b). rewrite <- E1. apply run_all.
    + exact E3.
  - apply IH1 in H. destruct H as [a [s' [caps1 [E1 [M1 H]]]]].
    apply IH2 in H. destruct H as [b [s2 [caps2 [E2 [M2 H]]]]].
    exists (a ++ b), s2, caps2. split; [|split].
    + rewrite E1, E2, app_assoc. reflexivity.
    + constructor; assumption.
    + exact H.
  - destruct (rx r1 s caps k) eqn:E.
    + inversion H; subst. apply IH1 in E.
      destruct E as [a [s2 [caps' [E1 [M1 E]]]]].
      exists a, s2, caps'. split; [exact E1|]. split; [|exact E].
      apply MAltL. exact M1.
    + apply IH2 in H. destruct H as [a [s2 [caps' [E1 [M1 H]]]]].
      exists a, s2, caps'. split; [exact E1|]. split; [|exact H].
      apply MAltR. exact M1.
  - destruct (rx r1 s caps k) eqn:E.
    + inversion H; subst. apply IH1 in E.
      destruct E as [a [s2 [caps' [E1 [M1 E]]]]].
      exists a, s2, caps'. split; [exact E1|]. split; [|exact E].
      apply MOptSome. exact M1.
    + exists [], s, caps. split; [reflexivity|]. split; [|exact H].
      apply MOptNone.
  - apply IH1 in H. destruct H as [a [s2 [caps' [E1 [M1 H]]]]].
    exists a, s2, ((n, firstn (length s - length s2) s) :: caps').
    split; [exact E1|]. split; [|exact H].
    apply MGroup. exact M1.
Qed.

Lemma firstn_app_exact {A} (a b : list A) :
  firstn (length (a ++ b) - length b) (a ++ b) = a.
Proof.
  rewrite length_app. replace (length a + length b - length b) with (length a)
    by lia.
  rewrite firstn_app, Nat.sub_diag, firstn_all. simpl. apply app_nil_r.
Qed.

Lemma match_at_sound (r : regex) (s : str) (m : found) :
  match_at r s = Some m ->
  s = m_text m ++ m_rest m /\ matches r (m_text m).
Proof.
  unfold match_at. intros H.
  destruct (rx r s [] _) as [[rest caps]|] eqn:E; [|discriminate].
  inversion H; subst; simpl. clear H.
  apply rx_sound in E. destruct E as [s1 [s2 [caps' [E1 [M1 E]]]]].
  inversion E; subst. rewrite firstn_app_exact. split; [reflexivity|exact M1].
Qed.

Lemma search_from_sound (r : regex) (s : str) (i j : nat) (m : found) :
  search_from r s i = Some (j, m) ->
  exists pre,
    s = pre ++ m_text m ++ m_rest m /\ j = i + length pre
    /\ match_at r (m_text m ++ m_rest m) = Some m.
Proof.
  revert i. induction s as [|c s IH]; intros i H; simpl in H.
  - destruct (match_at r []) eqn:E; [|discriminate]. inversion H; subst.
    exists []. destruct (match_at_sound _ _ _ E) as [E1 _].
    rewrite <- E1. simpl. split; [reflexivity|]. split; [lia | exact E].
  - destruct (match_at r (c :: s)) eqn:E.
    + inversion H; subst. exists [].
      destruct (match_at_sound _ _ _ E) as [E1 _].
      rewrite <- E1. simpl. split; [reflexivity|]. split; [lia | exact E].
    + apply IH in H. destruct H as [pre [E1 [E2 E3]]].
      exists (c :: pre). simpl. rewrite <- E1.
      split; [reflexivity|]. split; [lia | exact E3].
Qed.

(** A text found by [re.search] lies inside the text searched and matches
    the expression. *)
Lemma search_sound (r : regex) (s : str) (j : nat) (m : found) :
  search r s = Some (j, m) ->
  exists pre, s = pre ++ m_text m ++ m_rest m /\ matches r (m_text m).
Proof.
  intros H. apply search_from_sound in H. destruct H as [pre [E [_ H]]].
  exists pre. split; [exact E|]. apply match_at_sound in H. apply H.
Qed.

Lemma plus_back_complete (taken_rev : str) :
  forall (rest a b : str) (caps : captures) (k : cont),
    rev taken_rev = a ++ b -> a <> [] -> k (b ++ rest) caps <> None ->
    plus_back taken_rev rest caps k <> None.
Proof.
  induction taken_rev as [|c t IH]; intros rest a b caps k E Na Hk.
  - simpl in E. symmetry in E. apply app_eq_nil in E. destruct E. contradiction.
  - simpl. destruct (k rest caps) eqn:Ek; [discriminate|].
    destruct (rev b) as [|d b'] eqn:Eb.
    + apply (f_equal (@rev ascii)) in Eb. rewrite rev_involutive in Eb.
      subst b. simpl in Hk. contradiction.
    + apply (f_equal (@rev ascii)) in Eb. rewrite rev_involutive in Eb.
      simpl in Eb. subst b. simpl in E. rewrite app_assoc in E.
      apply app_inj_tail in E. destruct E as [E ->].
      apply (IH (d :: rest) a (rev b') caps k E Na).
      rewrite <- app_assoc in Hk. exact Hk.
Qed.

Lemma run_app_all (p : ascii -> bool) (w t : str) :
  forallb p w = true -> run p (w ++ t) = w ++ run p t.
Proof.
  intros Hw. induction w as [|c w IH]; simpl in *; [reflexivity|].
  apply andb_true_iff in Hw. destruct Hw as [Hc Hw].
  rewrite Hc, IH; [reflexivity | exact Hw].
Qed.

Lemma after_run_app_all (p : ascii -> bool) (w t : str) :
  forallb p w = true -> after_run p (w ++ t) = after_run p t.
Proof.
  intros Hw. induction w as [|c w IH]; simpl in *; [reflexivity|].
  apply andb_true_iff in Hw. destruct Hw as [Hc Hw].
  rewrite Hc, IH; [reflexivity | exact Hw].
Qed.

(** Where the expression matches and the continuation accepts what
    follows, the engine finds a match. *)
Lemma rx_complete (r : regex) (s1 : str) :
  matches r s1 ->
  forall (s2 : str) (caps : captures) (k : cont),
    (forall caps', k s2 caps' <> None) ->
    rx r (s1 ++ s2) caps k <> None.
Proof.
  induction 1 as [l|p w Nw Hw|r1 r2 a b M1 IH1 M2 IH2|r1 r2 a M1 IH1
                  |r1 r2 a M2 IH2|r1 a M1 IH1|r1|n r1 a M1 IH1];
    intros s2 caps k Hk; simpl.
  - rewrite drop_prefix_app. apply Hk.
  - rewrite span_rev_eq, app_nil_r.
    apply plus_back_complete with (a := w) (b := run p s2).
    + rewrite rev_involutive. apply run_app_all. exact Hw.
    + exact Nw.
    + rewrite after_run_app_all by exact Hw.
      rewrite <- run_after_run. apply Hk.
  - rewrite <- app_assoc. apply IH1. intros caps'. apply IH2. exact Hk.
  - destruct (rx r1 (a ++ s2) caps k) eqn:E; [discriminate|].
    exfalso. apply (IH1 s2 caps k Hk). exact E.
  - destruct (rx r1 (a ++ s2) caps k) eqn:E; [discriminate|].
    apply IH2. exact Hk.
  - destruct (rx r1 (a ++ s2) caps k) eqn:E; [discriminate|].
    exfalso. apply (IH1 s2 caps k Hk). exact E.
  - destruct (rx r1 s2 caps k) eqn:E; [discriminate|]. apply Hk.
  - apply IH1. intros caps'. apply Hk.
Qed.

Lemma match_at_complete (r : regex) (s1 s2 : str) :
  matches r s1 -> match_at r (s1 ++ s2) <> None.
Proof.
  intros M. unfold match_at.
  destruct (rx r (s1 ++ s2) [] _) as [[rest caps]|] eqn:E; [discriminate|].
  exfalso. revert E. apply rx_complete; [exact M|]. discriminate.
Qed.

Lemma search_from_complete (r : regex) (pre d post : str) (i : nat) :
  matches r d -> search_from r (pre ++ d ++ post) i <> None.
Proof.
  intros M. revert i. induction pre as [|c pre IH]; intros i.
  - simpl app. pose proof (match_at_complete r d post M) as C.
    destruct (d ++ post) eqn:E; simpl;
      destruct (match_at r _); try discriminate; contradiction.
  - simpl. destruct (match_at r (c :: pre ++ d ++ post)); [discriminate|].
    apply IH.
Qed.

(** [re.search] fails only on a text no part of which matches. *)
Lemma search_none (r : regex) (s : str) :
  search r s = None ->
  forall pre d post, s = pre ++ d ++ post -> ~ matches r d.
Proof.
  intros H pre d post E M. subst s.
  revert H. apply search_from_complete. exact M.
Qed.

(** ** The validators *)

Lemma class_pattern_kind (d : str) :
  matches class_pattern d ->
  exists kind,
    In kind [lit "class"; lit "interface"; lit "enum"]
    /\ matches (declaration_of kind) d.
Proof.
  unfold class_pattern, kinds_group, declaration_of. intros M.
  inversion M as [| |r1 r2 a b Ma Mb| | | | |]; subst.
  inversion Mb as [| |r1 r2 b1 b2 Mb1 Mb2| | | | |]; subst.
  inversion Mb2 as [| | | | | | |n r1 b2' Mw]; subst.
  inversion Ma as [| | | | | | |n r1 a' Mk]; subst.
  inversion Mk as [| | |r1 r2 a' Mk1|r1 r2 a' Mk2| | |]; subst.
  - exists (lit "class"). split; [simpl; auto|].
    apply MCat; [exact Mk1 | apply MCat; [exact Mb1 | exact Mw]].
  - inversion Mk2 as [| | |r1 r2 a' Mk3|r1 r2 a' Mk3| | |]; subst.
    + exists (lit "interface"). split; [simpl; auto|].
      apply MCat; [exact Mk3 | apply MCat; [exact Mb1 | exact Mw]].
    + exists (lit "enum"). split; [simpl; auto|].
      apply MCat; [exact Mk3 | apply MCat; [exact Mb1 | exact Mw]].
Qed.

Lemma validate_java_file_accepts (file_name content validated : str) :
  validate_java_file file_name content = Some validated ->
  exists kind,
    In kind [lit "class"; lit "interface"; lit "enum"]
    /\ declares kind content.
Proof.
  unfold validate_java_file. intros H.
  destruct (is_explanation content); [discriminate|].
  destruct (search class_pattern content) as [[j m]|] eqn:E; [|discriminate].
  apply search_sound in E. destruct E as [pre [E M]].
  apply class_pattern_kind in M. destruct M as [kind [K M]].
  exists kind. split; [exact K|].
  exists pre, (m_text m), (m_rest m). split; [exact E | exact M].
Qed.

(** C8, as the code has it.  The entity validator accepts a content only
    if it contains a public declaration of a class, of an interface or of
    an enum, [public\s+kind\s+\w+]: any of the three kinds will do. *)
Theorem entity_validator_accepts_three_kinds
        (file_name content validated : str) :
  validate_java_file file_name content = Some validated ->
  exists kind,
    In kind [lit "class"; lit "interface"; lit "enum"]
    /\ declares kind content.
Proof. apply validate_java_file_accepts. Qed.

Lemma entity_validator_accepts_three_kinds_witness :
  let content := lit "package a;
public enum Colour { RED }" in
  validate_java_file (lit "Colour.java") content = Some content
  /\ exists kind,
      In kind [lit "class"; lit "interface"; lit "enum"]
      /\ declares kind content.
Proof.
  intros content.
  assert (H : validate_java_file (lit "Colour.java") content = Some content)
    by (vm_compute; reflexivity).
  split; [exact H|].
  apply (entity_validator_accepts_three_kinds (lit "Colour.java") content
           content H).
Defined.

(** C8, as the claim has it, fails: a content whose only public
    declaration is an interface, no part of which is a class declaration,
    is accepted by the entity validator, unchanged. *)
Lemma entity_validator_accepts_interface :
  let content := lit "package a;
public interface Foo {}" in
  ~ declares (lit "class") content
  /\ validate_java_file (lit "Foo.java") content = Some content.
Proof.
  intros content. split.
  - intros [pre [decl [post [E M]]]].
    revert M. apply (search_none (declaration_of (lit "class")) content)
      with (pre := pre) (post := post); [|exact E].
    vm_compute. reflexivity.
  - vm_compute. reflexivity.
Qed.

(** ** The structural pre-pass *)

Lemma read_file_removed (path : str) (t : fs) :
  read_file path (remove_file path t) = None.
Proof.
  induction t as [|[p c] t IH]; simpl; [reflexivity|].
  destruct (str_eqb p path) eqn:E; simpl; [exact IH|].
  rewrite E. exact IH.
Qed.

(** A test file that lies in the main tree is copied to the test tree
    and removed, and the pre-pass then reads the path it has just
    removed: the file is relocated and [FileNotFoundError] is raised. *)
Lemma check_file_relocates_and_raises (file_path content : str) (t : fs) :
  let file_name := last_part (split (lit "/") file_path) in
  (contains (lit "Test") file_name || startswith (lit "test") file_name
   || endswith (lit "Test") file_name)
  && contains (lit "/main/java/") file_path = true ->
  read_file file_path t = Some content ->
  check_file file_path t
  = (Raised FileNotFoundError,
     remove_file file_path
       (write_file (replace (lit "/main/java/") (lit "/test/java/") file_path)
                   content t)).
Proof.
  intros file_name Htest Hread. unfold check_file.
  fold file_name. rewrite Htest.
  unfold bind, read_file_content, TestRunner.write_file_content, modify.
  rewrite Hread. rewrite read_file_removed. reflexivity.
Qed.

(** C9 fails on the code.  On a tree with two test files in the main
    tree, a first run of the pre-pass relocates the first of them and
    raises [FileNotFoundError]; a second run, started on the tree the
    first one left, relocates the other file and raises again: the tree
    after the second run is not the tree after the first.  And where the
    first run does return: for a file that lies directly in [main/java]
    and holds two package lines, the first run rewrites the first line,
    the second run rewrites the other one. *)
Theorem pre_pass_second_run_relocates_again :
  (let t0 := [ (lit "/t/src/main/java/a/FooTest.java", lit "package a;");
               (lit "/t/src/main/java/a/BarTest.java", lit "package a;") ] in
   let t1 := [ (lit "/t/src/main/java/a/BarTest.java", lit "package a;");
               (lit "/t/src/test/java/a/FooTest.java", lit "package a;") ] in
   let t2 := [ (lit "/t/src/test/java/a/FooTest.java", lit "package a;");
               (lit "/t/src/test/java/a/BarTest.java", lit "package a;") ] in
   validate_file_structure (lit "/t") t0 = (Raised FileNotFoundError, t1)
   /\ validate_file_structure (lit "/t") t1 = (Raised FileNotFoundError, t2)
   /\ t2 <> t1)
  /\ (let t0 := [ (lit "/t/src/main/java/Foo.java", lit "package a;
package b;") ] in
      let t1 := [ (lit "/t/src/main/java/Foo.java", lit "package ;
package b;") ] in
      let t2 := [ (lit "/t/src/main/java/Foo.java", lit "package ;
package ;") ] in
      validate_file_structure (lit "/t") t0 = (Returned tt, t1)
      /\ validate_file_structure (lit "/t") t1 = (Returned tt, t2)
      /\ t2 <> t1).
Proof.
  split.
  - split; [vm_compute; reflexivity|].
    split; [vm_compute; reflexivity|].
    discriminate.
  - split; [vm_compute; reflexivity|].
    split; [vm_compute; reflexivity|].
    discriminate.
Qed.

(** ** The generation-validation loop *)

Lemma bind_run {S A B : Type} (m : M S A) (f : A -> M S B) (s : S) :
  bind m f s
  = match m s with
    | (Returned a, s') => f a s'
    | (Raised e, s') => (Raised e, s')
    end.
Proof. reflexivity. Qed.

Section MigrateFacts.

Variable service : Type.
Variable post : service -> list message -> response * service.
Variable preprocess_prompt : str -> str.

Lemma ai_query_counts (prompt system_message : str) (w : world service) :
  queries (snd (ai_query post preprocess_prompt prompt system_message w))
  = S (queries w)
  /\ target (snd (ai_query post preprocess_prompt prompt system_message w))
     = target w.
Proof.
  unfold ai_query.
  destruct (query post preprocess_prompt prompt (Some system_message) 3
                  (gateway w)) as [r c].
  split; reflexivity.
Qed.

Lemma validated_keeps (validate : str -> str -> option str)
      (file_name : str) (answer : option str) (w : world service) :
  snd (validated validate file_name answer w) = w.
Proof. destruct answer; reflexivity. Qed.

(** A query followed by a validation of its answer. *)
Lemma ask_then {B : Type} (validate : str -> str -> option str)
      (k : option str -> M (world service) B)
      (prompt system_message file_name : str) (w : world service) :
  bind (ai_query post preprocess_prompt prompt system_message)
       (fun answer => bind (validated validate file_name answer) k) w
  = match ai_query post preprocess_prompt prompt system_message w with
    | (Returned (Some text), w1) => k (validate file_name text) w1
    | (Returned None, w1) => (Raised AttributeError, w1)
    | (Raised e, w1) => (Raised e, w1)
    end.
Proof.
  unfold bind.
  destruct (ai_query post preprocess_prompt prompt system_message w)
    as [[[text|]|e] w1]; reflexivity.
Qed.

(** The retry loop asks at most [left] times and writes nothing. *)
Lemma retries_bound (validate : str -> str -> option str)
      (strict_prompt system_message file_name : str) (left : nat) :
  forall (migrated : option str) (w : world service),
    let w' := snd (retries post preprocess_prompt validate strict_prompt
                           system_message file_name left migrated w) in
    queries w' <= queries w + left /\ target w' = target w.
Proof.
  induction left as [|left IH]; intros migrated w; cbn [retries].
  - destruct migrated; simpl; split; (lia || reflexivity).
  - destruct migrated as [text|]; [simpl; split; (lia || reflexivity)|].
    cbv zeta. rewrite ask_then.
    pose proof (ai_query_counts strict_prompt system_message w) as [Q T].
    destruct (ai_query post preprocess_prompt strict_prompt system_message w)
      as [[[text|]|e] w1]; simpl in Q, T; cbn [snd];
      [|split; [lia | exact T]..].
    specialize (IH (validate file_name text) w1). simpl in IH.
    destruct IH as [IH1 IH2]. split; [lia | congruence].
Qed.

(** However the service answers, [migrate_entity] calls [query] at most
    [max_retries + 1] = 4 times. *)
Lemma migrate_entity_bound (target_dir entity_file entity_content : str)
      (w : world service) :
  queries (snd (migrate_entity post preprocess_prompt target_dir entity_file
                               entity_content w))
  <= queries w + 4.
Proof.
  unfold migrate_entity. cbv zeta. rewrite ask_then.
  match goal with
  | |- context [ai_query post preprocess_prompt ?p ?sm w] =>
      pose proof (ai_query_counts p sm w) as [Q T];
      destruct (ai_query post preprocess_prompt p sm w)
        as [[[text|]|e] w1]; simpl in Q, T; cbn [snd]; [|lia..]
  end.
  rewrite bind_run.
  match goal with
  | |- context [retries post preprocess_prompt ?v ?sp ?sm ?f ?n ?m w1] =>
      pose proof (retries_bound v sp sm f n m w1) as [R1 R2];
      destruct (retries post preprocess_prompt v sp sm f n m w1)
        as [[m'|e] w2]
  end; unfold max_retries in *; simpl in R1, R2; simpl; lia.
Qed.

Lemma migrate_repository_bound (target_dir repo_file repo_content : str)
      (w : world service) :
  queries (snd (migrate_repository post preprocess_prompt target_dir repo_file
                                   repo_content w))
  <= queries w + 4.
Proof.
  unfold migrate_repository. cbv zeta. rewrite ask_then.
  match goal with
  | |- context [ai_query post preprocess_prompt ?p ?sm w] =>
      pose proof (ai_query_counts p sm w) as [Q T];
      destruct (ai_query post preprocess_prompt p sm w)
        as [[[text|]|e] w1]; simpl in Q, T; cbn [snd]; [|lia..]
  end.
  rewrite bind_run.
  match goal with
  | |- context [retries post preprocess_prompt ?v ?sp ?sm ?f ?n ?m w1] =>
      pose proof (retries_bound v sp sm f n m w1) as [R1 R2];
      destruct (retries post preprocess_prompt v sp sm f n m w1)
        as [[m'|e] w2]
  end; unfold max_retries in *; simpl in R1, R2; simpl; lia.
Qed.

Lemma retries_exhausted (validate : str -> str -> option str)
      (strict_prompt system_message file_name : str) :
  always_rejected post preprocess_prompt validate system_message file_name ->
  forall (left : nat) (w : world service),
  exists c,
    retries post preprocess_prompt validate strict_prompt system_message
            file_name left None w
    = (Returned None, World c (queries w + left) (target w)).
Proof.
  intros H. induction left as [|left IH]; intros w; cbn [retries].
  - exists (gateway w). rewrite Nat.add_0_r. destruct w; reflexivity.
  - rewrite ask_then. unfold ai_query.
    destruct (H strict_prompt (gateway w)) as [text [c' [E V]]].
    rewrite E, V.
    destruct (IH (World c' (S (queries w)) (target w))) as [c2 E2].
    exists c2. rewrite E2. simpl. f_equal. f_equal. lia.
Qed.

End MigrateFacts.

(** When every answer is a text that the validator rejects,
    [migrate_entity] asks four times and then writes the stub. *)
Lemma migrate_entity_falls_back
      (service : Type) (post : service -> list message -> response * service)
      (preprocess_prompt : str -> str)
      (target_dir entity_file entity_content : str) (w : world service) :
  always_rejected post preprocess_prompt validate_java_file
                  entity_system_message (name_of entity_file) ->
  exists c path,
    migrate_entity post preprocess_prompt target_dir entity_file
                   entity_content w
    = (Returned tt,
       World c (queries w + 4)
             (write_file path
                (entity_fallback entity_content (name_of entity_file))
                (target w))).
Proof.
  intros H. unfold migrate_entity. cbv zeta. rewrite ask_then.
  unfold ai_query at 1.
  match goal with
  | |- context [query post preprocess_prompt ?p _ 3 (gateway w)] =>
      destruct (H p (gateway w)) as [text [c' [E V]]]
  end.
  rewrite E, V. rewrite bind_run.
  destruct (retries_exhausted service post preprocess_prompt validate_java_file
              (entity_strict_prompt entity_content (name_of entity_file))
              entity_system_message (name_of entity_file) H max_retries
              (World c' (S (queries w)) (target w))) as [c2 E2].
  rewrite E2. unfold Migrators.write_file_content, modify. simpl.
  eexists. eexists. f_equal. f_equal. unfold max_retries. lia.
Qed.

Lemma migrate_repository_falls_back
      (service : Type) (post : service -> list message -> response * service)
      (preprocess_prompt : str -> str)
      (target_dir repo_file repo_content : str) (w : world service) :
  always_rejected post preprocess_prompt validate_repository_file
                  repository_system_message (name_of repo_file) ->
  exists c path,
    migrate_repository post preprocess_prompt target_dir repo_file
                       repo_content w
    = (Returned tt,
       World c (queries w + 4)
             (write_file path
                (repository_fallback repo_content (name_of repo_file))
                (target w))).
Proof.
  intros H. unfold migrate_repository. cbv zeta. rewrite ask_then.
  unfold ai_query at 1.
  match goal with
  | |- context [query post preprocess_prompt ?p _ 3 (gateway w)] =>
      destruct (H p (gateway w)) as [text [c' [E V]]]
  end.
  rewrite E, V. rewrite bind_run.
  destruct (retries_exhausted service post preprocess_prompt validate_repository_file
              (repository_strict_prompt repo_content (name_of repo_file))
              repository_system_message (name_of repo_file) H max_retries
              (World c' (S (queries w)) (target w))) as [c2 E2].
  rewrite E2. unfold Migrators.write_file_content, modify. simpl.
  eexists. eexists. f_equal. f_equal. unfold max_retries. lia.
Qed.

(** C1 fails on the code.  The service answers every request with the
    sentence [I cannot provide this without seeing more context.]; the
    gateway rejects it three times and [query] returns [None].  The
    validator is then called on [None] and raises [AttributeError]: after
    a single call of [query] the migration of the entity, and likewise of
    the repository, ends with an exception and no stub is written. *)
Theorem migration_raises_when_query_returns_none :
  let refusal :=
    Response 200
      (lit "I cannot provide this without seeing more context.") in
  let source := lit "package org.acme.model;
public class Member {}" in
  query play as_is (lit "migrate") None 3 (start [refusal; refusal; refusal])
  = (Returned None, Client [] 3)
  /\ migrate_entity play as_is (lit "/out")
                    (lit "/src/main/java/org/acme/model/Member.java") source
                    (fresh [refusal; refusal; refusal] [])
     = (Raised AttributeError, World (Client [] 3) 1 [])
  /\ migrate_repository play as_is (lit "/out")
                        (lit "/src/main/java/org/acme/data/MemberRepository.java")
                        source (fresh [refusal; refusal; refusal] [])
     = (Raised AttributeError, World (Client [] 3) 1 []).
Proof.
  split; [vm_compute; reflexivity|].
  split; vm_compute; reflexivity.
Qed.

(** ** The package resolver *)

Lemma replace_go_skip (old new u s : str) :
  old <> [] ->
  replace_go old new (u ++ s) (length u) = replace_go old new s 0.
Proof.
  intros N. induction u as [|c u IH]; simpl; [|exact IH].
  destruct s; reflexivity.
Qed.

Lemma replace_head (old new s : str) :
  old <> [] -> replace old new (old ++ s) = new ++ replace old new s.
Proof.
  intros N. unfold replace. destruct old as [|a old]; [contradiction|].
  change ((a :: old) ++ s) with (a :: old ++ s). cbn [replace_go].
  change (a :: old ++ s) with ((a :: old) ++ s).
  rewrite startswith_app. f_equal. apply replace_go_skip. discriminate.
Qed.

Lemma replace_absent (old new s : str) :
  old <> [] -> contains old s = false -> replace old new s = s.
Proof.
  intros N. unfold replace. induction s as [|c s IH]; intros H.
  - destruct old; [contradiction | reflexivity].
  - simpl in H. apply orb_false_iff in H. destruct H as [H1 H2].
    destruct old as [|a old]; [contradiction|]. cbn [replace_go].
    rewrite H1. f_equal. apply IH. exact H2.
Qed.

Lemma replace_cons_other (old new s : str) (c : ascii) :
  old <> [] -> startswith old (c :: s) = false ->
  replace old new (c :: s) = c :: replace old new s.
Proof.
  intros N H. unfold replace. destruct old as [|a old]; [contradiction|].
  cbn [replace_go]. rewrite H. reflexivity.
Qed.

(** A text without the character [c] is kept by the replacement of
    [c]. *)
Lemma replace_char_app (c : ascii) (new x s : str) :
  ~ In c x -> replace [c] new (x ++ s) = x ++ replace [c] new s.
Proof.
  intros H. induction x as [|d x IH]; [reflexivity|].
  simpl app. rewrite replace_cons_other.
  - f_equal. apply IH. intros I. apply H. right. exact I.
  - discriminate.
  - simpl. destruct (chr_eqb c d) eqn:E; [|reflexivity].
    apply chr_eqb_eq in E. exfalso. apply H. left. symmetry. exact E.
Qed.

Lemma contains_needs_char (sub s : str) (c : ascii) :
  In c sub -> ~ In c s -> contains sub s = false.
Proof.
  intros Hc Hs. destruct (contains sub s) eqn:E; [|reflexivity].
  exfalso. apply contains_iff in E. destruct E as [pre [post E]].
  apply Hs. rewrite E. apply in_or_app. right. apply in_or_app. left.
  exact Hc.
Qed.

(** For a line that is exactly [package X;], with neither a space nor a
    semicolon in [X], the value is [X]. *)
Lemma declared_value_exact (line x : str) :
  strip line = lit "package " ++ x ++ lit ";" ->
  ~ In " "%char x -> ~ In ";"%char x ->
  declared_value line = x.
Proof.
  intros E Hs Hc. unfold declared_value. rewrite E.
  rewrite replace_head by discriminate. cbn [app].
  rewrite (replace_absent (lit "package ") [] (x ++ lit ";")).
  - change (lit ";") with [";"%char]. rewrite replace_char_app by exact Hc.
    rewrite <- (app_nil_r x) at 2. f_equal.
  - discriminate.
  - apply contains_needs_char with (c := " "%char).
    + simpl. tauto.
    + intros I. apply in_app_or in I. destruct I as [I|I]; [contradiction|].
      simpl in I. destruct I as [I|[]]. discriminate.
Qed.

Lemma index_of_first (x : str) (pre rest : list str) :
  ~ In x pre -> index_of x (pre ++ x :: rest) = Some (length pre).
Proof.
  induction pre as [|y pre IH]; intros H; simpl.
  - rewrite str_eqb_refl. reflexivity.
  - destruct (str_eqb y x) eqn:E.
    + apply str_eqb_eq in E. exfalso. apply H. left. exact E.
    + rewrite IH; [reflexivity|]. intros I. apply H. right. exact I.
Qed.

Lemma index_of_found (x : str) (xs : list str) (i : nat) :
  index_of x xs = Some i ->
  exists pre rest, xs = pre ++ x :: rest /\ ~ In x pre /\ length pre = i.
Proof.
  revert i. induction xs as [|y xs IH]; intros i H; simpl in H.
  - discriminate.
  - destruct (str_eqb y x) eqn:E.
    + apply str_eqb_eq in E. subst y. inversion H; subst.
      exists [], xs. split; [reflexivity|]. split; [intros []|reflexivity].
    + destruct (index_of x xs) as [j|]; [|discriminate].
      inversion H; subst. destruct (IH j eq_refl) as [pre [rest [E1 [E2 E3]]]].
      exists (y :: pre), rest. split; [rewrite E1; reflexivity|].
      split; [|simpl; congruence].
      intros [I|I]; [|contradiction]. subst y. rewrite str_eqb_refl in E.
      discriminate.
Qed.

Lemma slice_to_last_segments {A} (pre dirs : list A) (x last : A) :
  slice_to_last (length pre + 1) (pre ++ x :: dirs ++ [last]) = dirs.
Proof.
  unfold slice_to_last.
  replace (pre ++ x :: dirs ++ [last]) with ((pre ++ x :: dirs) ++ [last])
    by (rewrite <- app_assoc; reflexivity).
  rewrite removelast_last.
  replace (pre ++ x :: dirs) with ((pre ++ [x]) ++ dirs)
    by (rewrite <- app_assoc; reflexivity).
  rewrite skipn_app.
  replace (length pre + 1) with (length (pre ++ [x]))
    by (rewrite length_app; reflexivity).
  rewrite skipn_all, Nat.sub_diag. reflexivity.
Qed.

Lemma extract_package_from_path_segments
      (file_path : str) (pre dirs : list str) (file_name : str) :
  split (lit "/") file_path = pre ++ lit "java" :: dirs ++ [file_name] ->
  ~ In (lit "java") pre ->
  extract_package_from_path file_path = Some (join (lit ".") dirs).
Proof.
  intros E H. unfold extract_package_from_path. rewrite E.
  rewrite index_of_first by exact H.
  rewrite slice_to_last_segments.
  replace (length pre + 1 <? length (pre ++ lit "java" :: dirs ++ [file_name]))
    with true; [reflexivity|].
  symmetry. apply Nat.ltb_lt. rewrite length_app. simpl.
  rewrite length_app. simpl. lia.
Qed.

Lemma no_inference_taken (file_path : str) :
  no_inference file_path ->
  taken (extract_package_from_path file_path) = None.
Proof.
  intros H. unfold extract_package_from_path.
  destruct (index_of (lit "java") (split (lit "/") file_path)) as [i|] eqn:E;
    [|reflexivity].
  destruct (i + 1 <? length (split (lit "/") file_path)) eqn:L;
    [|reflexivity].
  apply index_of_found in E. destruct E as [pre [rest [E1 [E2 E3]]]].
  apply Nat.ltb_lt in L. rewrite E1, length_app in L. simpl in L.
  destruct (exists_last (l := rest)) as [dirs [file_name E4]].
  { intros N. subst rest. simpl in L. lia. }
  subst rest. rewrite E1. rewrite <- E3, slice_to_last_segments.
  rewrite (H pre dirs file_name E1 E2). reflexivity.
Qed.

Lemma no_declaration_taken (content : str) :
  no_declaration content ->
  taken (extract_package_from_content content) = None.
Proof.
  unfold no_declaration, extract_package_from_content.
  destruct (package_line content); [|reflexivity].
  intros ->. reflexivity.
Qed.

Lemma taken_some (p : str) : p <> [] -> taken (Some p) = Some p.
Proof. destruct p; [contradiction | reflexivity]. Qed.

Lemma resolution_returned (file_path content default_package value : str) :
  resolution file_path content default_package value ->
  get_safe_package_path file_path content default_package = value.
Proof.
  intros R. unfold get_safe_package_path.
  destruct R as [line E N|pre dirs file_name D E H N|D I].
  - unfold extract_package_from_content. rewrite E, taken_some by exact N.
    reflexivity.
  - rewrite (no_declaration_taken _ D).
    rewrite (extract_package_from_path_segments _ _ _ _ E H).
    rewrite taken_some by exact N. reflexivity.
  - rewrite (no_declaration_taken _ D), (no_inference_taken _ I).
    reflexivity.
Qed.

Lemma resolution_of_result (file_path content default_package : str) :
  resolution file_path content default_package
             (get_safe_package_path file_path content default_package).
Proof.
  unfold get_safe_package_path.
  destruct (taken (extract_package_from_content content)) as [v|] eqn:C.
  - unfold extract_package_from_content in C.
    destruct (package_line content) as [line|] eqn:L; [|discriminate].
    simpl in C. destruct (declared_value line) eqn:V; [discriminate|].
    simpl in C. inversion C; subst. rewrite <- V.
    apply Declared; [exact L|]. rewrite V. discriminate.
  - assert (D : no_declaration content).
    { unfold no_declaration. unfold extract_package_from_content in C.
      destruct (package_line content) as [line|]; [|exact I].
      simpl in C. destruct (declared_value line); [reflexivity|discriminate]. }
    destruct (taken (extract_package_from_path file_path)) as [v|] eqn:P.
    + unfold extract_package_from_path in P.
      destruct (index_of (lit "java") (split (lit "/") file_path))
        as [i|] eqn:E; [|discriminate].
      destruct (i + 1 <? length (split (lit "/") file_path)) eqn:L;
        [|discriminate].
      apply index_of_found in E. destruct E as [pre [rest [E1 [E2 E3]]]].
      apply Nat.ltb_lt in L. rewrite E1, length_app in L. simpl in L.
      destruct (exists_last (l := rest)) as [dirs [file_name E4]].
      { intros N. subst rest. simpl in L. lia. }
      subst rest. rewrite E1 in P. rewrite <- E3, slice_to_last_segments in P.
      destruct (join (lit ".") dirs) eqn:J; simpl in P; [discriminate P|].
      inversion P; subst. rewrite <- J.
      apply Inferred with (pre := pre) (file_name := file_name);
        [exact D | exact E1 | exact E2 |]. rewrite J. discriminate.
    + apply Defaulted; [exact D|].
      intros pre dirs file_name E H.
      rewrite (extract_package_from_path_segments _ _ _ _ E H) in P.
      destruct (join (lit ".") dirs); [reflexivity|]. simpl in P.
      discriminate P.
Qed.

(** What the resolver computes, tier by tier.  It returns what the first
    of three tiers gives, and nothing else: (1) when a line of the
    content, once stripped, starts with [package ], the first such line,
    stripped and without its occurrences of [package ] and of [;],
    provided this text is not empty; it is [X] for a line that is exactly
    [package X;]; (2) otherwise, when the first part [java] of the path
    is followed by directory parts before the file name, their names
    joined by dots, provided this text is not empty; (3) otherwise the
    default. *)
Theorem resolver_three_tiers (file_path content default_package : str) :
  (forall value,
      resolution file_path content default_package value
      <-> get_safe_package_path file_path content default_package = value)
  /\ (forall line x,
         strip line = lit "package " ++ x ++ lit ";" ->
         ~ In " "%char x -> ~ In ";"%char x ->
         declared_value line = x).
Proof.
  split.
  - intros value. split.
    + apply resolution_returned.
    + intros <-. apply resolution_of_result.
  - apply declared_value_exact.
Qed.

Lemma resolver_three_tiers_witness :
  let content := lit "import java.util.List;

package com.acme.old;
public interface FooRepo {}" in
  let file_path := lit "/work/src/main/java/com/acme/data/FooRepo.java" in
  package_line content = Some (lit "package com.acme.old;")
  /\ declared_value (lit "package com.acme.old;") = lit "com.acme.old"
  /\ get_safe_package_path file_path content (lit "org.default")
     = lit "com.acme.old"
  /\ get_safe_package_path file_path (lit "public interface FooRepo {}")
                           (lit "org.default")
     = lit "com.acme.data"
  /\ get_safe_package_path (lit "/work/FooRepo.java")
                           (lit "public interface FooRepo {}")
                           (lit "org.default")
     = lit "org.default".
Proof.
  intros content file_path.
  split; [vm_compute; reflexivity|].
  split.
  { apply (proj2 (resolver_three_tiers file_path content (lit "org.default"))
             (lit "package com.acme.old;") (lit "com.acme.old")).
    - vm_compute. reflexivity.
    - simpl. intuition discriminate.
    - simpl. intuition discriminate. }
  split.
  { apply (proj1 (resolver_three_tiers file_path content (lit "org.default"))
                 (lit "com.acme.old")).
    apply (Declared file_path content (lit "org.default")
                    (lit "package com.acme.old;")).
    - vm_compute. reflexivity.
    - vm_compute. discriminate. }
  split; vm_compute; reflexivity.
Defined.

(** The first tier on a line with text after the semicolon: the text is
    kept, only the semicolon goes. *)
Lemma declared_value_keeps_tail (line x tail : str) :
  strip line = lit "package " ++ x ++ lit ";" ++ tail ->
  contains (lit "package ") (x ++ lit ";" ++ tail) = false ->
  ~ In ";"%char x -> ~ In ";"%char tail ->
  declared_value line = x ++ tail.
Proof.
  intros S P X T. unfold declared_value. rewrite S.
  rewrite replace_head by discriminate.
  rewrite (replace_absent (lit "package ") [] (x ++ lit ";" ++ tail))
    by (discriminate || exact P).
  change (lit ";") with [";"%char]. rewrite app_nil_l.
  rewrite (replace_char_app ";"%char [] x ([";"%char] ++ tail) X).
  rewrite (replace_head [";"%char] [] tail) by discriminate.
  cbn [app]. f_equal. apply replace_absent; [discriminate|].
  apply contains_needs_char with (c := ";"%char); [left; reflexivity|].
  exact T.
Qed.

(** C3 fails on the code.  The package line of the content is
    [package com.acme; // legacy], which declares [com.acme]; the
    resolver returns [com.acme // legacy], the declared value followed by
    the rest of the line, whatever the path and the default are, although
    the path gives [com.acme] and the pattern [package\s+([^;]+);] of the
    test runner finds [com.acme] in the same content. *)
Theorem resolver_returns_text_after_the_declaration :
  let line := lit "package com.acme; // legacy" in
  let content := line ++ lit "
public class Foo {}" in
  let file_path := lit "/src/main/java/com/acme/Foo.java" in
  In line (splitlines content)
  /\ declares_package line (lit "com.acme")
  /\ extract_package_from_content content = Some (lit "com.acme // legacy")
  /\ extract_package_from_path file_path = Some (lit "com.acme")
  /\ get_safe_package_path file_path content (lit "org.default")
     = lit "com.acme // legacy"
  /\ option_map (fun found => group 1 (m_caps (snd found)))
                (search package_pattern content)
     = Some (lit "com.acme").
Proof.
  intros line content file_path.
  split; [vm_compute; left; reflexivity|].
  split.
  { exists (lit " // legacy"). split; [vm_compute; reflexivity|].
    simpl. intuition discriminate. }
  split; [vm_compute; reflexivity|].
  split; [vm_compute; reflexivity|].
  split; vm_compute; reflexivity.
Qed.

(** A declaration whose value is empty gives nothing: [package ;] is
    passed over and the next tier decides. *)
Lemma empty_declaration_falls_through :
  declares_package (lit "package ;") []
  /\ get_safe_package_path (lit "/src/Foo.java") (lit "package ;")
                           (lit "org.default")
     = lit "org.default".
Proof.
  split.
  { exists []. split; [vm_compute; reflexivity|]. intros []. }
  vm_compute. reflexivity.
Qed.

(** ** Scanning a text for matches *)

Lemma plus_back_det (p : ascii -> bool) (k : cont) (caps : captures)
      (taken_rev : str) :
  (forall c t caps', p c = true -> k (c :: t) caps' = None) ->
  forall rest,
    taken_rev <> [] -> forallb p taken_rev = true ->
    plus_back taken_rev rest caps k = k rest caps.
Proof.
  intros Hk. induction taken_rev as [|c t IH]; intros rest N H.
  - contradiction.
  - simpl. destruct (k rest caps) eqn:E; [reflexivity|].
    simpl in H. apply andb_true_iff in H. destruct H as [Hc Ht].
    destruct t as [|d t]; [reflexivity|].
    rewrite IH; [apply Hk; exact Hc | discriminate | exact Ht].
Qed.

Lemma forallb_rev {A} (p : A -> bool) (l : list A) :
  forallb p (rev l) = forallb p l.
Proof.
  induction l as [|x l IH]; simpl; [reflexivity|].
  rewrite forallb_app, IH. simpl. rewrite andb_true_r. apply andb_comm.
Qed.

Lemma rev_not_nil {A} (l : list A) : l <> [] -> rev l <> [].
Proof.
  intros N E. apply N. apply (f_equal (@rev A)) in E.
  rewrite rev_involutive in E. exact E.
Qed.

(** A repetition followed by something that cannot start with a
    character of its class takes its longest run, once and for all. *)
Lemma rx_plus_det (p : ascii -> bool) (s : str) (caps : captures) (k : cont) :
  (forall c t caps', p c = true -> k (c :: t) caps' = None) ->
  run p s <> [] ->
  rx (Plus p) s caps k = k (after_run p s) caps.
Proof.
  intros Hk N. simpl. rewrite span_rev_eq, app_nil_r.
  apply plus_back_det with (p := p).
  - exact Hk.
  - apply rev_not_nil. exact N.
  - rewrite forallb_rev. apply run_all.
Qed.

Lemma rx_plus_first (p : ascii -> bool) (s : str) (caps : captures) (k : cont)
      (res : str * captures) :
  run p s <> [] -> k (after_run p s) caps = Some res ->
  rx (Plus p) s caps k = Some res.
Proof.
  intros N H. simpl. rewrite span_rev_eq, app_nil_r.
  apply plus_back_first; [apply rev_not_nil; exact N | exact H].
Qed.

Lemma rx_plus_empty (p : ascii -> bool) (s : str) (caps : captures) (k : cont) :
  run p s = [] -> rx (Plus p) s caps k = None.
Proof.
  intros E. simpl. rewrite span_rev_eq, app_nil_r, E. reflexivity.
Qed.

Lemma unmatched_nil (r : regex) (v : str) : unmatched r [] v.
Proof.
  intros u1 u2 E N. symmetry in E. apply app_eq_nil in E.
  destruct E. contradiction.
Qed.

Lemma unmatched_cons (r : regex) (c : ascii) (u v : str) :
  unmatched r (c :: u) v
  <-> match_at r (c :: u ++ v) = None /\ unmatched r u v.
Proof.
  split.
  - intros H. split.
    + apply (H [] (c :: u)); [reflexivity | discriminate].
    + intros u1 u2 E N. apply (H (c :: u1) u2); [rewrite E; reflexivity|exact N].
  - intros [H1 H2] u1 u2 E N. destruct u1 as [|d u1]; simpl in E.
    + subst u2. exact H1.
    + inversion E; subst. apply (H2 u1 u2); [reflexivity | exact N].
Qed.

Lemma unmatched_app (r : regex) (u1 u2 v : str) :
  unmatched r u1 (u2 ++ v) -> unmatched r u2 v -> unmatched r (u1 ++ u2) v.
Proof.
  intros H1 H2. induction u1 as [|c u1 IH]; [exact H2|].
  apply unmatched_cons in H1. destruct H1 as [H1 H1'].
  simpl. apply unmatched_cons. split.
  - rewrite <- app_assoc. exact H1.
  - apply IH. exact H1'.
Qed.

Lemma findall_go_skipping (r : regex) (u v : str) :
  findall_go r (u ++ v) (length u) = findall_go r v 0.
Proof. induction u as [|c u IH]; [reflexivity | exact IH]. Qed.

Lemma sub_go_skipping (r : regex) (repl : captures -> str) (u v : str) :
  sub_go r repl (u ++ v) (length u) = sub_go r repl v 0.
Proof. induction u as [|c u IH]; [reflexivity | exact IH]. Qed.

Lemma findall_skip (r : regex) (u v : str) :
  unmatched r u v -> findall_go r (u ++ v) 0 = findall_go r v 0.
Proof.
  induction u as [|c u IH]; intros H; [reflexivity|].
  apply unmatched_cons in H. destruct H as [H1 H2].
  simpl. rewrite H1. apply IH. exact H2.
Qed.

Lemma sub_skip (r : regex) (repl : captures -> str) (u v : str) :
  unmatched r u v -> sub_go r repl (u ++ v) 0 = u ++ sub_go r repl v 0.
Proof.
  induction u as [|c u IH]; intros H; [reflexivity|].
  apply unmatched_cons in H. destruct H as [H1 H2].
  simpl. rewrite H1. f_equal. apply IH. exact H2.
Qed.

Lemma search_skip (r : regex) (u v : str) (i : nat) :
  unmatched r u v ->
  search_from r (u ++ v) i = search_from r v (i + length u).
Proof.
  revert i. induction u as [|c u IH]; intros i H.
  - simpl. rewrite Nat.add_0_r. reflexivity.
  - apply unmatched_cons in H. destruct H as [H1 H2].
    simpl. rewrite H1, IH by exact H2. f_equal. lia.
Qed.

Lemma search_hit (r : regex) (s : str) (i : nat) (m : found) :
  match_at r s = Some m -> search_from r s i = Some (i, m).
Proof. intros H. destruct s; simpl; rewrite H; reflexivity. Qed.

Lemma findall_hit (r : regex) (s : str) (m : found) :
  match_at r s = Some m -> m_text m <> [] ->
  findall_go r s 0 = m_caps m :: findall_go r (m_rest m) 0.
Proof.
  intros H N. destruct (match_at_sound _ _ _ H) as [E _].
  destruct (m_text m) as [|c t] eqn:T; [contradiction|].
  simpl in E. subst s. simpl. rewrite H, T. simpl. rewrite Nat.sub_0_r.
  f_equal. apply findall_go_skipping.
Qed.

Lemma sub_hit (r : regex) (repl : captures -> str) (s : str) (m : found) :
  match_at r s = Some m -> m_text m <> [] ->
  sub_go r repl s 0 = repl (m_caps m) ++ sub_go r repl (m_rest m) 0.
Proof.
  intros H N. destruct (match_at_sound _ _ _ H) as [E _].
  destruct (m_text m) as [|c t] eqn:T; [contradiction|].
  simpl in E. subst s. simpl. rewrite H, T. f_equal. apply sub_go_skipping.
Qed.

Lemma findall_nil (r : regex) (s : str) :
  findall_go r s 0 = [] -> unmatched r s [] /\ match_at r [] = None.
Proof.
  induction s as [|c s IH]; simpl; intros H.
  - split; [apply unmatched_nil|].
    destruct (match_at r []); [discriminate | reflexivity].
  - destruct (match_at r (c :: s)) eqn:E; [discriminate|].
    destruct (IH H) as [H1 H2]. split; [|exact H2].
    apply unmatched_cons. rewrite app_nil_r. split; assumption.
Qed.

Lemma findall_single (r : regex) (s : str) (caps : captures) :
  never_empty r ->
  findall_go r s 0 = [caps] ->
  exists pre m,
    s = pre ++ m_text m ++ m_rest m
    /\ unmatched r pre (m_text m ++ m_rest m)
    /\ match_at r (m_text m ++ m_rest m) = Some m
    /\ m_caps m = caps
    /\ findall_go r (m_rest m) 0 = [].
Proof.
  intros NE. induction s as [|c s IH]; intros H.
  - simpl in H. destruct (match_at r []) as [m|] eqn:E; [|discriminate].
    exfalso. destruct (match_at_sound _ _ _ E) as [E1 _].
    apply (NE _ _ E). symmetry in E1. apply app_eq_nil in E1. apply E1.
  - simpl in H. destruct (match_at r (c :: s)) as [m|] eqn:E.
    + injection H as H1 H2.
      destruct (match_at_sound _ _ _ E) as [E1 _].
      exists [], m. simpl. rewrite <- E1.
      split; [reflexivity|]. split; [apply unmatched_nil|].
      split; [exact E|]. split; [exact H1|].
      destruct (m_text m) as [|d t] eqn:T; [exfalso; apply (NE _ _ E T)|].
      simpl in E1. injection E1 as E0 E1. subst s. simpl in H2.
      rewrite Nat.sub_0_r, findall_go_skipping in H2. exact H2.
    + destruct (IH H) as [pre [m [E1 [E2 [E3 [E4 E5]]]]]].
      exists (c :: pre), m. split; [simpl; rewrite <- E1; reflexivity|].
      split.
      { apply unmatched_cons. rewrite <- E1. split; assumption. }
      split; [exact E3|]. split; assumption.
Qed.

(** ** The declaration patterns *)

Lemma space_not_word (c : ascii) : is_space c = true -> is_word c = false.
Proof.
  destruct c as [[] [] [] [] [] [] [] []]; intros H;
    solve [reflexivity | discriminate H].
Qed.

Lemma word_not_space (c : ascii) : is_word c = true -> is_space c = false.
Proof.
  intros H. destruct (is_space c) eqn:E; [|reflexivity].
  apply space_not_word in E. congruence.
Qed.

Lemma run_headed (p : ascii -> bool) (c : ascii) (t : str) :
  p c = false -> run p (c :: t) = [].
Proof. intros H. simpl. rewrite H. reflexivity. Qed.

(** A literal that starts with a character outside a class is not found
    at the head of a text that starts inside it. *)
Lemma drop_prefix_rejects (p : ascii -> bool) (a c : ascii) (l t : str) :
  p a = false -> p c = true -> drop_prefix (a :: l) (c :: t) = None.
Proof.
  intros Ha Hc. simpl. destruct (chr_eqb a c) eqn:E; [|reflexivity].
  apply chr_eqb_eq in E. congruence.
Qed.

Lemma rx_pub_kw (a : ascii) (kw : str) (s : str) (caps : captures) (k : cont) :
  is_space a = false ->
  rx (pub_kw (a :: kw)) s caps k
  = match head_at [a :: kw] s with
    | Some (_, _, s3) => k s3 caps
    | None => None
    end.
Proof.
  intros Ha. unfold pub_kw, head_at. cbn [rx keyword_at].
  destruct (drop_prefix (lit "public") s) as [s1|]; [|reflexivity].
  destruct (run is_space s1) as [|c w1] eqn:R.
  - apply rx_plus_empty. exact R.
  - unfold spaces. rewrite rx_plus_det.
    + destruct (drop_prefix (a :: kw) (after_run is_space s1)); reflexivity.
    + intros d t caps' Hd.
      rewrite (drop_prefix_rejects is_space a d kw t Ha Hd). reflexivity.
    + rewrite R. discriminate.
Qed.

Lemma keyword_at_sound (kws : list str) (s kw t : str) :
  keyword_at kws s = Some (kw, t) -> In kw kws /\ s = kw ++ t.
Proof.
  induction kws as [|k kws IH]; simpl; [discriminate|].
  destruct (drop_prefix k s) as [t'|] eqn:E.
  - intros H. inversion H; subst. apply drop_prefix_iff in E. auto.
  - intros H. destruct (IH H). auto.
Qed.

Lemma head_at_sound (kws : list str) (s w1 kw s3 : str) :
  head_at kws s = Some (w1, kw, s3) ->
  s = head_text w1 kw ++ s3 /\ blank w1 /\ In kw kws
  /\ not_headed is_space (kw ++ s3).
Proof.
  unfold head_at, head_text.
  destruct (drop_prefix (lit "public") s) as [s1|] eqn:E1; [|discriminate].
  apply drop_prefix_iff in E1.
  destruct (run is_space s1) as [|c w] eqn:R; [discriminate|].
  destruct (keyword_at kws (after_run is_space s1)) as [[kw' t]|] eqn:K;
    [|discriminate].
  intros H. inversion H; subst. clear H.
  apply keyword_at_sound in K. destruct K as [K1 K2].
  split.
  - rewrite <- !app_assoc, <- K2, <- R. f_equal. apply run_after_run.
  - split; [|split; [exact K1|]].
    + split; [discriminate|]. rewrite <- R. apply run_all.
    + rewrite <- K2. apply after_run_not_headed.
Qed.

(** The three kinds exclude one another, so that the alternatives of
    [class_pattern] can be read as one choice. *)
Lemma head_at_kinds (s : str) :
  head_at class_kinds s
  = match head_at [lit "class"] s with
    | Some x => Some x
    | None =>
        match head_at [lit "interface"] s with
        | Some x => Some x
        | None => head_at [lit "enum"] s
        end
    end.
Proof.
  unfold head_at, class_kinds.
  destruct (drop_prefix (lit "public") s) as [s1|]; [|reflexivity].
  destruct (run is_space s1) as [|c w]; [reflexivity|].
  cbn [keyword_at].
  destruct (drop_prefix (lit "class") (after_run is_space s1));
    [reflexivity|].
  destruct (drop_prefix (lit "interface") (after_run is_space s1));
    reflexivity.
Qed.

Lemma head_at_exclusive (s : str) (kw1 kw2 : str) (x : str * str * str) :
  In (kw1, kw2)
     [ (lit "class", lit "interface"); (lit "class", lit "enum");
       (lit "interface", lit "enum") ] ->
  head_at [kw1] s = Some x -> head_at [kw2] s = None.
Proof.
  intros Hin. unfold head_at.
  destruct (drop_prefix (lit "public") s) as [s1|]; [|discriminate].
  destruct (run is_space s1) as [|c w]; [discriminate|].
  cbn [keyword_at].
  destruct (drop_prefix kw1 (after_run is_space s1)) as [t|] eqn:E;
    [|discriminate].
  intros _. apply drop_prefix_iff in E. rewrite E.
  simpl in Hin.
  destruct Hin as [H|[H|[H|[]]]]; inversion H; subst; reflexivity.
Qed.

Lemma head_at_one (kw s w1 kw' s3 : str) :
  head_at [kw] s = Some (w1, kw', s3) -> kw' = kw.
Proof.
  intros H. apply head_at_sound in H. destruct H as [_ [_ [[H|[]] _]]].
  symmetry. exact H.
Qed.

Lemma rx_kinds_group (s : str) (caps : captures) (k : cont) :
  rx kinds_group s caps k
  = match head_at class_kinds s with
    | Some (w1, kw, s3) => k s3 ((1, head_text w1 kw) :: caps)
    | None => None
    end.
Proof.
  unfold kinds_group. cbn [rx].
  change (lit "class") with ("c"%char :: lit "lass").
  change (lit "interface") with ("i"%char :: lit "nterface").
  change (lit "enum") with ("e"%char :: lit "num").
  rewrite !rx_pub_kw by reflexivity.
  change ("c"%char :: lit "lass") with (lit "class").
  change ("i"%char :: lit "nterface") with (lit "interface").
  change ("e"%char :: lit "num") with (lit "enum").
  rewrite head_at_kinds.
  assert (G : forall kw w1 kw' s3,
             head_at [kw] s = Some (w1, kw', s3) ->
             firstn (length s - length s3) s = head_text w1 kw').
  { intros kw w1 kw' s3 H. apply head_at_sound in H.
    destruct H as [H _]. rewrite H at 1 2. apply firstn_app_exact. }
  destruct (head_at [lit "class"] s) as [[[w1 kw] s3]|] eqn:H1.
  - rewrite (G _ _ _ _ H1).
    rewrite (head_at_exclusive s (lit "class") (lit "interface") _
               ltac:(simpl; auto) H1).
    rewrite (head_at_exclusive s (lit "class") (lit "enum") _
               ltac:(simpl; auto) H1).
    destruct (k s3 _); reflexivity.
  - destruct (head_at [lit "interface"] s) as [[[w1 kw] s3]|] eqn:H2.
    + rewrite (G _ _ _ _ H2).
      rewrite (head_at_exclusive s (lit "interface") (lit "enum") _
                 ltac:(simpl; auto) H2).
      destruct (k s3 _); reflexivity.
    + destruct (head_at [lit "enum"] s) as [[[w1 kw] s3]|] eqn:H3;
        [|reflexivity].
      rewrite (G _ _ _ _ H3). reflexivity.
Qed.

Lemma rx_cat (r1 r2 : regex) (s : str) (caps : captures) (k : cont) :
  rx (Cat r1 r2) s caps k = rx r1 s caps (fun s' caps' => rx r2 s' caps' k).
Proof. reflexivity. Qed.

Lemma rx_group (n : nat) (r : regex) (s : str) (caps : captures) (k : cont) :
  rx (Group n r) s caps k
  = rx r s caps
       (fun s' caps' => k s' ((n, firstn (length s - length s') s) :: caps')).
Proof. reflexivity. Qed.

Lemma rx_lit (l s : str) (caps : captures) (k : cont) :
  rx (Lit l) s caps k
  = match drop_prefix l s with
    | Some rest => k rest caps
    | None => None
    end.
Proof. reflexivity. Qed.

Lemma firstn_run (p : ascii -> bool) (s : str) :
  firstn (length s - length (after_run p s)) s = run p s.
Proof.
  rewrite (run_after_run p s) at 1 3. apply firstn_app_exact.
Qed.

Lemma name_at_sound (s w2 name rest : str) :
  name_at s = Some (w2, name, rest) ->
  s = w2 ++ name ++ rest /\ blank w2 /\ wordy name
  /\ not_headed is_word rest.
Proof.
  unfold name_at.
  destruct (run is_space s) as [|c w] eqn:R; [discriminate|].
  destruct (run is_word (after_run is_space s)) as [|d n] eqn:N;
    [discriminate|].
  intros H. inversion H; subst. clear H. split; [|split; [|split]].
  - rewrite <- N, <- R, <- !run_after_run. reflexivity.
  - split; [discriminate|]. rewrite <- R. apply run_all.
  - split; [discriminate|]. rewrite <- N. apply run_all.
  - apply after_run_not_headed.
Qed.

Lemma given_at_sound (name s w2 rest : str) :
  given_at name s = Some (w2, rest) ->
  s = w2 ++ name ++ rest /\ blank w2.
Proof.
  unfold given_at.
  destruct (run is_space s) as [|c w] eqn:R; [discriminate|].
  destruct (drop_prefix name (after_run is_space s)) as [t|] eqn:D;
    [|discriminate].
  intros H. inversion H; subst. clear H. apply drop_prefix_iff in D. split.
  - rewrite <- D, <- R, <- run_after_run. reflexivity.
  - split; [discriminate|]. rewrite <- R. apply run_all.
Qed.

Lemma rx_gap_name (n : nat) (s : str) (caps : captures) :
  rx (Cat spaces (Group n word)) s caps (fun s' c => Some (s', c))
  = match name_at s with
    | Some (_, name, rest) => Some (rest, (n, name) :: caps)
    | None => None
    end.
Proof.
  rewrite rx_cat. unfold name_at, spaces, word.
  destruct (run is_space s) as [|c w] eqn:R.
  - apply rx_plus_empty. exact R.
  - rewrite rx_plus_det.
    + rewrite rx_group.
      destruct (run is_word (after_run is_space s)) as [|d nm] eqn:N.
      * apply rx_plus_empty. exact N.
      * apply rx_plus_first; [rewrite N; discriminate|].
        rewrite firstn_run, N. reflexivity.
    + intros d t caps' Hd. rewrite rx_group. apply rx_plus_empty.
      apply run_headed. apply space_not_word. exact Hd.
    + rewrite R. discriminate.
Qed.

Lemma rx_gap_given (a : ascii) (name s : str) (caps : captures) (k : cont) :
  is_space a = false ->
  rx (Cat spaces (Lit (a :: name))) s caps k
  = match given_at (a :: name) s with
    | Some (_, rest) => k rest caps
    | None => None
    end.
Proof.
  intros Ha. rewrite rx_cat. unfold given_at, spaces.
  destruct (run is_space s) as [|c w] eqn:R.
  - apply rx_plus_empty. exact R.
  - rewrite rx_plus_det.
    + rewrite rx_lit.
      destruct (drop_prefix (a :: name) (after_run is_space s)); reflexivity.
    + intros d t caps' Hd. rewrite rx_lit.
      rewrite (drop_prefix_rejects is_space a d name t Ha Hd). reflexivity.
    + rewrite R. discriminate.
Qed.

Lemma firstn_decl (h w2 name rest s3 : str) :
  s3 = w2 ++ name ++ rest ->
  firstn (length (h ++ s3) - length rest) (h ++ s3) = h ++ w2 ++ name.
Proof.
  intros ->.
  replace (h ++ w2 ++ name ++ rest) with ((h ++ w2 ++ name) ++ rest)
    by (rewrite <- !app_assoc; reflexivity).
  apply firstn_app_exact.
Qed.

(** What [class_pattern] finds at the head of a text. *)
Lemma class_match_at (s : str) :
  match_at class_pattern s
  = match decl_at class_kinds s with
    | Some (h, w2, name, rest) =>
        Some (Found (h ++ w2 ++ name) [(2, name); (1, h)] rest)
    | None => None
    end.
Proof.
  unfold match_at, class_pattern, decl_at.
  rewrite rx_cat, rx_kinds_group.
  destruct (head_at class_kinds s) as [[[w1 kw] s3]|] eqn:H; [|reflexivity].
  rewrite rx_gap_name.
  destruct (name_at s3) as [[[w2 name] rest]|] eqn:N; [|reflexivity].
  apply head_at_sound in H. destruct H as [H _].
  apply name_at_sound in N. destruct N as [N _].
  rewrite H, (firstn_decl _ _ _ _ _ N). reflexivity.
Qed.

(** What [interface_pattern] finds at the head of a text. *)
Lemma interface_match_at (s : str) :
  match_at interface_pattern s
  = match decl_at [lit "interface"] s with
    | Some (h, w2, name, rest) =>
        Some (Found (h ++ w2 ++ name) [(1, name)] rest)
    | None => None
    end.
Proof.
  unfold match_at, interface_pattern, decl_at.
  rewrite rx_cat.
  change (lit "interface") with ("i"%char :: lit "nterface").
  rewrite rx_pub_kw by reflexivity.
  destruct (head_at _ s) as [[[w1 kw] s3]|] eqn:H; [|reflexivity].
  rewrite rx_gap_name.
  destruct (name_at s3) as [[[w2 name] rest]|] eqn:N; [|reflexivity].
  apply head_at_sound in H. destruct H as [H _].
  apply name_at_sound in N. destruct N as [N _].
  rewrite H, (firstn_decl _ _ _ _ _ N). reflexivity.
Qed.

Lemma wordy_head (name : str) :
  wordy name -> exists a t, name = a :: t /\ is_space a = false.
Proof.
  intros [N H]. destruct name as [|a t]; [contradiction|].
  exists a, t. split; [reflexivity|]. simpl in H.
  apply andb_true_iff in H. apply word_not_space. apply H.
Qed.

(** What the renaming pattern of the entity validator finds. *)
Lemma class_rename_match_at (name s : str) :
  wordy name ->
  match_at (class_rename_pattern name) s
  = match named_at class_kinds name s with
    | Some (h, w2, rest) => Some (Found (h ++ w2 ++ name) [(1, h)] rest)
    | None => None
    end.
Proof.
  intros W. destruct (wordy_head _ W) as [a [t [-> Ha]]].
  unfold match_at, class_rename_pattern, named_at.
  rewrite rx_cat, rx_kinds_group.
  destruct (head_at class_kinds s) as [[[w1 kw] s3]|] eqn:H; [|reflexivity].
  rewrite rx_gap_given by exact Ha.
  destruct (given_at (a :: t) s3) as [[w2 rest]|] eqn:N; [|reflexivity].
  apply head_at_sound in H. destruct H as [H _].
  apply given_at_sound in N. destruct N as [N _].
  rewrite H, (firstn_decl _ _ _ _ _ N). reflexivity.
Qed.

(** What the renaming pattern of the repository validator finds. *)
Lemma interface_rename_match_at (name s : str) :
  wordy name ->
  match_at (interface_rename_pattern name) s
  = match named_at [lit "interface"] name s with
    | Some (h, w2, rest) => Some (Found (h ++ w2 ++ name) [] rest)
    | None => None
    end.
Proof.
  intros W. destruct (wordy_head _ W) as [a [t [-> Ha]]].
  unfold match_at, interface_rename_pattern, named_at.
  rewrite rx_cat.
  change (lit "interface") with ("i"%char :: lit "nterface").
  rewrite rx_pub_kw by reflexivity.
  destruct (head_at _ s) as [[[w1 kw] s3]|] eqn:H; [|reflexivity].
  rewrite rx_gap_given by exact Ha.
  destruct (given_at (a :: t) s3) as [[w2 rest]|] eqn:N; [|reflexivity].
  apply head_at_sound in H. destruct H as [H _].
  apply given_at_sound in N. destruct N as [N _].
  rewrite H, (firstn_decl _ _ _ _ _ N). reflexivity.
Qed.

Lemma blank_head (w t : str) :
  blank w -> exists c w', w = c :: w' /\ is_space c = true.
Proof.
  intros [N H]. destruct w as [|c w']; [contradiction|].
  exists c, w'. split; [reflexivity|]. simpl in H.
  apply andb_true_iff in H. apply H.
Qed.

Lemma name_at_intro (w2 name rest : str) :
  blank w2 -> wordy name -> not_headed is_word rest ->
  name_at (w2 ++ name ++ rest) = Some (w2, name, rest).
Proof.
  intros [N2 H2] W R. destruct (wordy_head _ W) as [a [t [E Ha]]].
  destruct W as [Nn Hn]. unfold name_at.
  assert (Hd : not_headed is_space (name ++ rest)) by (rewrite E; exact Ha).
  rewrite (run_app is_space w2 (name ++ rest) H2 Hd).
  rewrite (after_run_app is_space w2 (name ++ rest) H2 Hd).
  rewrite (run_app is_word name rest Hn R).
  rewrite (after_run_app is_word name rest Hn R).
  destruct w2; [contradiction|]. destruct name; [contradiction|]. reflexivity.
Qed.

Lemma given_at_intro (name w2 rest : str) :
  blank w2 -> wordy name ->
  given_at name (w2 ++ name ++ rest) = Some (w2, rest).
Proof.
  intros [N2 H2] W. destruct (wordy_head _ W) as [a [t [E Ha]]].
  unfold given_at.
  assert (Hd : not_headed is_space (name ++ rest)) by (rewrite E; exact Ha).
  rewrite (run_app is_space w2 (name ++ rest) H2 Hd).
  rewrite (after_run_app is_space w2 (name ++ rest) H2 Hd).
  rewrite drop_prefix_app.
  destruct w2; [contradiction|]. reflexivity.
Qed.

Lemma app_before {A} (a : A) (m u t t' : list A) :
  u ++ a :: t = m ++ t' -> ~ In a m -> exists u3, u = m ++ u3.
Proof.
  revert u. induction m as [|x m IH]; intros u E H.
  - exists u. reflexivity.
  - destruct u as [|y u]; simpl in E.
    + inversion E. exfalso. apply H. left. congruence.
    + inversion E; subst. destruct (IH u) as [u3 E3]; [assumption| |].
      * intros I. apply H. right. exact I.
      * exists u3. rewrite E3. reflexivity.
Qed.

Section Keywords.

(** A list of keywords none of which starts another, made of characters
    that are neither white space nor the letter [p]. *)
Variable kws : list str.
Hypothesis kws_found :
  forall kw t, In kw kws -> keyword_at kws (kw ++ t) = Some (kw, t).
Hypothesis kws_plain :
  forall kw, In kw kws ->
    kw <> []
    /\ forallb (fun c => negb (is_space c) && negb (chr_eqb c "p"%char)) kw
       = true.

Lemma kw_not_headed (kw t : str) :
  In kw kws -> not_headed is_space (kw ++ t).
Proof.
  intros K. destruct (kws_plain kw K) as [N H].
  destruct kw as [|a kw]; [contradiction|]. simpl in *.
  apply andb_true_iff in H. destruct H as [H _].
  apply andb_true_iff in H. destruct H as [H _].
  apply negb_true_iff in H. exact H.
Qed.

Lemma kw_no_p (kw : str) : In kw kws -> ~ In "p"%char kw.
Proof.
  intros K I. destruct (kws_plain kw K) as [_ H].
  rewrite forallb_forall in H. specialize (H _ I).
  apply andb_true_iff in H. destruct H as [_ H]. discriminate H.
Qed.

Lemma head_at_intro (w1 kw t : str) :
  blank w1 -> In kw kws ->
  head_at kws (head_text w1 kw ++ t) = Some (w1, kw, t).
Proof.
  intros [N H] K. unfold head_at, head_text.
  rewrite <- !app_assoc, drop_prefix_app.
  pose proof (kw_not_headed kw t K) as Hd.
  rewrite (run_app is_space w1 (kw ++ t) H Hd).
  rewrite (after_run_app is_space w1 (kw ++ t) H Hd).
  rewrite (kws_found kw t K). destruct w1; [contradiction|]. reflexivity.
Qed.

Lemma decl_at_sound (s h w2 name rest : str) :
  decl_at kws s = Some (h, w2, name, rest) ->
  exists w1 kw,
    h = head_text w1 kw /\ blank w1 /\ In kw kws
    /\ s = h ++ w2 ++ name ++ rest
    /\ blank w2 /\ wordy name /\ not_headed is_word rest.
Proof.
  unfold decl_at.
  destruct (head_at kws s) as [[[w1 kw] s3]|] eqn:H; [|discriminate].
  destruct (name_at s3) as [[[w2' name'] rest']|] eqn:N; [|discriminate].
  intros E. inversion E; subst. clear E.
  apply head_at_sound in H. destruct H as [H1 [H2 [H3 _]]].
  apply name_at_sound in N. destruct N as [N1 [N2 [N3 N4]]].
  exists w1, kw. rewrite H1, N1. auto 10.
Qed.

Lemma decl_at_intro (w1 kw w2 name rest : str) :
  blank w1 -> In kw kws -> blank w2 -> wordy name ->
  not_headed is_word rest ->
  decl_at kws (head_text w1 kw ++ w2 ++ name ++ rest)
  = Some (head_text w1 kw, w2, name, rest).
Proof.
  intros B1 K B2 W R. unfold decl_at.
  rewrite head_at_intro by assumption.
  rewrite name_at_intro by assumption. reflexivity.
Qed.

Lemma named_at_sound (name s h w2 rest : str) :
  named_at kws name s = Some (h, w2, rest) ->
  exists w1 kw,
    h = head_text w1 kw /\ blank w1 /\ In kw kws
    /\ s = h ++ w2 ++ name ++ rest /\ blank w2.
Proof.
  unfold named_at.
  destruct (head_at kws s) as [[[w1 kw] s3]|] eqn:H; [|discriminate].
  destruct (given_at name s3) as [[w2' rest']|] eqn:N; [|discriminate].
  intros E. inversion E; subst. clear E.
  apply head_at_sound in H. destruct H as [H1 [H2 [H3 _]]].
  apply given_at_sound in N. destruct N as [N1 N2].
  exists w1, kw. rewrite H1, N1. auto 10.
Qed.

Lemma named_at_intro (w1 kw w2 name rest : str) :
  blank w1 -> In kw kws -> blank w2 -> wordy name ->
  named_at kws name (head_text w1 kw ++ w2 ++ name ++ rest)
  = Some (head_text w1 kw, w2, rest).
Proof.
  intros B1 K B2 W. unfold named_at.
  rewrite head_at_intro by assumption.
  rewrite given_at_intro by assumption. reflexivity.
Qed.

(** A declaration starts a text exactly when the text starts with
    [public], white space, a keyword, white space and one character of a
    name. *)
Lemma decl_at_some_iff (s : str) :
  decl_at kws s <> None
  <-> exists w1 kw w2 c t,
      s = head_text w1 kw ++ w2 ++ c :: t
      /\ blank w1 /\ In kw kws /\ blank w2 /\ is_word c = true.
Proof.
  split.
  - destruct (decl_at kws s) as [[[[h w2] name] rest]|] eqn:E;
      [|intros H; contradiction].
    intros _. apply decl_at_sound in E.
    destruct E as [w1 [kw [E1 [B1 [K [E2 [B2 [W R]]]]]]]].
    destruct W as [Nn Hn]. destruct name as [|c name]; [contradiction|].
    exists w1, kw, w2, c, (name ++ rest).
    split; [rewrite E2, E1; reflexivity|].
    simpl in Hn. apply andb_true_iff in Hn. tauto.
  - intros [w1 [kw [w2 [c [t [E [B1 [K [B2 Hc]]]]]]]]].
    assert (E' : s = head_text w1 kw ++ w2 ++ (c :: run is_word t)
                     ++ after_run is_word t).
    { rewrite E. simpl. rewrite <- run_after_run. reflexivity. }
    rewrite E', decl_at_intro; [discriminate|assumption..| |].
    + split; [discriminate|]. simpl. rewrite Hc. apply run_all.
    + apply after_run_not_headed.
Qed.

Lemma no_p_before_name (w1 kw w2 : str) :
  blank w1 -> In kw kws -> blank w2 ->
  ~ In "p"%char (lit "ublic" ++ w1 ++ kw ++ w2).
Proof.
  intros [_ H1] K [_ H2] I.
  assert (S : forall w, forallb is_space w = true -> ~ In "p"%char w).
  { intros w H J. rewrite forallb_forall in H. specialize (H _ J).
    discriminate H. }
  apply in_app_or in I. destruct I as [I|I].
  - simpl in I. intuition discriminate.
  - apply in_app_or in I. destruct I as [I|I]; [exact (S _ H1 I)|].
    apply in_app_or in I. destruct I as [I|I]; [|exact (S _ H2 I)].
    exact (kw_no_p kw K I).
Qed.

(** Whether a declaration starts before a letter [p] does not depend on
    what follows that letter. *)
Lemma decl_at_before_p (u t1 t2 : str) :
  u <> [] ->
  decl_at kws (u ++ "p"%char :: t1) <> None ->
  decl_at kws (u ++ "p"%char :: t2) <> None.
Proof.
  intros N H. apply decl_at_some_iff in H.
  destruct H as [w1 [kw [w2 [c [t [E [B1 [K [B2 Hc]]]]]]]]].
  apply decl_at_some_iff.
  destruct u as [|x u]; [contradiction|].
  unfold head_text in E. rewrite <- !app_assoc in E.
  change (lit "public" ++ w1 ++ kw ++ w2 ++ c :: t)
    with ("p"%char :: (lit "ublic" ++ w1 ++ kw ++ w2 ++ c :: t)) in E.
  simpl in E. injection E as Ex E. subst x.
  assert (E' : u ++ "p"%char :: t1
               = (lit "ublic" ++ w1 ++ kw ++ w2) ++ c :: t)
    by (rewrite E, <- !app_assoc; reflexivity).
  clear E.
  destruct (app_before _ _ _ _ _ E' (no_p_before_name w1 kw w2 B1 K B2))
    as [u3 E3].
  subst u. rewrite <- app_assoc in E'. apply app_inv_head in E'.
  rename E' into E.
  assert (G : exists c' t', u3 ++ "p"%char :: t2 = c' :: t'
                            /\ is_word c' = true).
  { destruct u3 as [|y u3]; simpl in *.
    - exists "p"%char, t2. split; reflexivity.
    - injection E as Ey _. subst y. exists c, (u3 ++ "p"%char :: t2).
      split; [reflexivity | exact Hc]. }
  destruct G as [c' [t' [G1 G2]]].
  exists w1, kw, w2, c', t'. split; [|auto].
  unfold head_text. rewrite <- G1. simpl. rewrite <- !app_assoc.
  reflexivity.
Qed.

End Keywords.

Lemma class_kinds_found (kw t : str) :
  In kw class_kinds -> keyword_at class_kinds (kw ++ t) = Some (kw, t).
Proof.
  intros [<-|[<-|[<-|[]]]]; reflexivity.
Qed.

Lemma class_kinds_plain (kw : str) :
  In kw class_kinds ->
  kw <> []
  /\ forallb (fun c => negb (is_space c) && negb (chr_eqb c "p"%char)) kw
     = true.
Proof.
  intros [<-|[<-|[<-|[]]]]; split; (discriminate || reflexivity).
Qed.

Lemma interface_found (kw t : str) :
  In kw [lit "interface"] ->
  keyword_at [lit "interface"] (kw ++ t) = Some (kw, t).
Proof. intros [<-|[]]. reflexivity. Qed.

Lemma interface_plain (kw : str) :
  In kw [lit "interface"] ->
  kw <> []
  /\ forallb (fun c => negb (is_space c) && negb (chr_eqb c "p"%char)) kw
     = true.
Proof. intros [<-|[]]. split; (discriminate || reflexivity). Qed.

(** ** A content with a single declaration *)

Section SingleDeclaration.

(** A declaration pattern [r] over the keywords [kws], with the pattern
    [renaming name] that the validator builds to rename it. *)
Variable kws : list str.
Hypothesis kws_found :
  forall kw t, In kw kws -> keyword_at kws (kw ++ t) = Some (kw, t).
Hypothesis kws_plain :
  forall kw, In kw kws ->
    kw <> []
    /\ forallb (fun c => negb (is_space c) && negb (chr_eqb c "p"%char)) kw
       = true.

Variable r : regex.
Variable groups : str -> str -> captures.
Hypothesis r_at :
  forall s,
    match_at r s
    = match decl_at kws s with
      | Some (h, w2, name, rest) =>
          Some (Found (h ++ w2 ++ name) (groups h name) rest)
      | None => None
      end.

Variable renaming : str -> regex.
Variable renaming_groups : str -> captures.
Hypothesis renaming_at :
  forall name s,
    wordy name ->
    match_at (renaming name) s
    = match named_at kws name s with
      | Some (h, w2, rest) =>
          Some (Found (h ++ w2 ++ name) (renaming_groups h) rest)
      | None => None
      end.

Lemma head_text_not_nil (w1 kw : str) : head_text w1 kw <> [].
Proof. discriminate. Qed.

Lemma r_never_empty : never_empty r.
Proof.
  intros s m H. rewrite r_at in H.
  destruct (decl_at kws s) as [[[[h w2] name] rest]|] eqn:E; [|discriminate].
  inversion H; subst; simpl. apply decl_at_sound in E.
  destruct E as [w1 [kw [-> _]]]. discriminate.
Qed.

Lemma r_none_iff (s : str) : match_at r s = None <-> decl_at kws s = None.
Proof.
  rewrite r_at. destruct (decl_at kws s) as [[[[h w2] name] rest]|];
    split; (discriminate || reflexivity).
Qed.

(** The renaming pattern matches only where the declaration pattern
    does. *)
Lemma renaming_none (name s : str) :
  wordy name -> match_at r s = None -> match_at (renaming name) s = None.
Proof.
  intros W H. rewrite renaming_at by exact W.
  destruct (named_at kws name s) as [[[h w2] rest]|] eqn:E; [|reflexivity].
  exfalso. apply r_none_iff in H. revert H.
  apply (decl_at_some_iff kws kws_found kws_plain).
  apply named_at_sound in E.
  destruct E as [w1 [kw [E1 [B1 [K [E2 B2]]]]]].
  destruct (wordy_head _ W) as [a [t [En Ha]]].
  exists w1, kw, w2, a, (t ++ rest). split; [|split; [|split; [|split]]];
    try assumption.
  - rewrite E2, E1, En. reflexivity.
  - destruct W as [_ W]. rewrite En in W. simpl in W.
    apply andb_true_iff in W. apply W.
Qed.

Lemma renaming_unmatched (name u v : str) :
  wordy name -> unmatched r u v -> unmatched (renaming name) u v.
Proof.
  intros W H u1 u2 E N. apply renaming_none; [exact W|].
  apply (H u1 u2 E N).
Qed.

(** No declaration starts before a letter [p], whatever follows it. *)
Lemma unmatched_before_p (u t1 t2 : str) :
  unmatched r u ("p"%char :: t1) -> unmatched r u ("p"%char :: t2).
Proof.
  intros H u1 u2 E N. apply r_none_iff.
  destruct (decl_at kws (u2 ++ "p"%char :: t2)) eqn:D; [|reflexivity].
  exfalso.
  assert (D' : decl_at kws (u2 ++ "p"%char :: t2) <> None)
    by (rewrite D; discriminate).
  apply (decl_at_before_p kws kws_found kws_plain u2 t2 t1 N) in D'.
  apply D'. apply r_none_iff. apply (H u1 u2 E N).
Qed.

(** The parts of a content in which [re.findall] finds one
    declaration. *)
Lemma single_declaration (content : str) (caps : captures) :
  findall r content = [caps] ->
  exists pre w1 kw w2 name post,
    content = pre ++ head_text w1 kw ++ w2 ++ name ++ post
    /\ caps = groups (head_text w1 kw) name
    /\ blank w1 /\ In kw kws /\ blank w2 /\ wordy name
    /\ not_headed is_word post
    /\ unmatched r pre (head_text w1 kw ++ w2 ++ name ++ post)
    /\ findall r post = [].
Proof.
  intros H. apply (findall_single r content caps r_never_empty) in H.
  destruct H as [pre [m [E1 [U [M [C F]]]]]].
  rewrite r_at in M.
  destruct (decl_at kws _) as [[[[h w2] name] rest]|] eqn:D; [|discriminate].
  inversion M; subst m; cbn [m_text m_rest m_caps] in *. clear M.
  apply decl_at_sound in D.
  destruct D as [w1 [kw [-> [B1 [K [E2 [B2 [W R]]]]]]]].
  exists pre, w1, kw, w2, name, rest.
  rewrite <- !app_assoc in E1, U.
  split; [exact E1|]. split; [symmetry; exact C|].
  repeat (split; [assumption|]). exact F.
Qed.

(** What [re.findall] gives once the declaration has a new head and a
    new name. *)
Lemma findall_renamed (pre w1 kw w2 name post w1' kw' w2' name' : str) :
  unmatched r pre (head_text w1 kw ++ w2 ++ name ++ post) ->
  findall r post = [] ->
  not_headed is_word post ->
  blank w1' -> In kw' kws -> blank w2' -> wordy name' ->
  findall r (pre ++ head_text w1' kw' ++ w2' ++ name' ++ post)
  = [groups (head_text w1' kw') name']
  /\ search r (pre ++ head_text w1' kw' ++ w2' ++ name' ++ post) <> None.
Proof.
  intros U F R B1 K B2 W.
  assert (U' : unmatched r pre (head_text w1' kw' ++ w2' ++ name' ++ post)).
  { unfold head_text in *. rewrite <- !app_assoc in *.
    apply unmatched_before_p with (t1 := lit "ublic" ++ w1 ++ kw ++ w2 ++ name
                                         ++ post).
    exact U. }
  assert (M : match_at r (head_text w1' kw' ++ w2' ++ name' ++ post)
              = Some (Found (head_text w1' kw' ++ w2' ++ name')
                            (groups (head_text w1' kw') name') post)).
  { rewrite r_at, (decl_at_intro kws kws_found kws_plain) by assumption.
    reflexivity. }
  split.
  - unfold findall. rewrite (findall_skip r _ _ U').
    rewrite (findall_hit r _ _ M); cbn [m_text m_rest m_caps].
    + unfold findall in F. rewrite F. reflexivity.
    + discriminate.
  - unfold search. rewrite (search_skip r _ _ 0 U').
    rewrite (search_hit r _ _ _ M). discriminate.
Qed.

(** What the renaming [re.sub] gives on such a content. *)
Lemma sub_renaming (pre w1 kw w2 name post : str) (repl : captures -> str) :
  unmatched r pre (head_text w1 kw ++ w2 ++ name ++ post) ->
  findall r post = [] ->
  blank w1 -> In kw kws -> blank w2 -> wordy name ->
  sub (renaming name) repl
      (pre ++ head_text w1 kw ++ w2 ++ name ++ post)
  = pre ++ repl (renaming_groups (head_text w1 kw)) ++ post.
Proof.
  intros U F B1 K B2 W. unfold sub.
  rewrite (sub_skip _ repl _ _ (renaming_unmatched name _ _ W U)).
  assert (M : match_at (renaming name)
                       (head_text w1 kw ++ w2 ++ name ++ post)
              = Some (Found (head_text w1 kw ++ w2 ++ name)
                            (renaming_groups (head_text w1 kw)) post)).
  { rewrite renaming_at, (named_at_intro kws kws_found kws_plain)
      by assumption.
    reflexivity. }
  rewrite (sub_hit _ repl _ _ M); cbn [m_text m_rest m_caps];
    [|discriminate].
  apply findall_nil in F. destruct F as [F1 F2].
  pose proof (sub_skip (renaming name) repl post []
                (renaming_unmatched name _ _ W F1)) as S.
  rewrite app_nil_r in S. rewrite S. simpl.
  rewrite (renaming_none name [] W F2). rewrite app_nil_r. reflexivity.
Qed.

End SingleDeclaration.

(** ** Explanatory text *)

Lemma lstrip_app_nonspace (a t : str) (c : ascii) :
  is_space c = false -> lstrip (a ++ c :: t) = lstrip a ++ c :: t.
Proof.
  intros H. induction a as [|x a IH]; simpl.
  - rewrite H. reflexivity.
  - destruct (is_space x); [exact IH | reflexivity].
Qed.

Lemma rstrip_app_nonspace (a t : str) (c : ascii) :
  is_space c = false -> rstrip (a ++ c :: t) = a ++ c :: rstrip t.
Proof.
  intros H. unfold rstrip.
  rewrite rev_app_distr. simpl. rewrite <- app_assoc. simpl.
  rewrite lstrip_app_nonspace by exact H.
  rewrite rev_app_distr. simpl. rewrite rev_involutive, <- app_assoc.
  reflexivity.
Qed.

Lemma strip_before_pu (pre t : str) :
  strip (pre ++ "p"%char :: "u"%char :: t)
  = lstrip pre ++ "p"%char :: "u"%char :: rstrip t.
Proof.
  unfold strip. rewrite lstrip_app_nonspace by reflexivity.
  change (lstrip pre ++ "p"%char :: "u"%char :: t)
    with (lstrip pre ++ ["p"%char] ++ "u"%char :: t).
  rewrite app_assoc, rstrip_app_nonspace by reflexivity.
  rewrite <- app_assoc. reflexivity.
Qed.

(** A text without [pu] that starts a text does not reach past the
    first [pu] of it. *)
Lemma startswith_before_pu (ind q t : str) :
  contains (lit "pu") ind = false ->
  startswith ind (q ++ "p"%char :: "u"%char :: t)
  = startswith ind (q ++ ["p"%char]).
Proof.
  revert ind. induction q as [|x q IH]; intros ind H.
  - destruct ind as [|a [|b ind]]; simpl; try reflexivity.
    rewrite andb_false_r.
    destruct (chr_eqb a "p") eqn:Ea; [|reflexivity].
    destruct (chr_eqb b "u") eqn:Eb; [|reflexivity].
    apply chr_eqb_eq in Ea. apply chr_eqb_eq in Eb. subst.
    discriminate H.
  - destruct ind as [|a ind]; [reflexivity|]. simpl.
    rewrite IH; [reflexivity|].
    simpl in H. apply orb_false_iff in H. apply H.
Qed.

Lemma indicators_without_pu (ind : str) :
  In ind explanation_indicators -> contains (lit "pu") ind = false.
Proof.
  intros H. simpl in H.
  repeat (destruct H as [<-|H]; [reflexivity|]). contradiction.
Qed.

(** Whether a content counts as explanatory text is settled before the
    first [pu] in it. *)
Lemma is_explanation_before_pu (pre t1 t2 : str) :
  is_explanation (pre ++ "p"%char :: "u"%char :: t1)
  = is_explanation (pre ++ "p"%char :: "u"%char :: t2).
Proof.
  unfold is_explanation. rewrite !strip_before_pu.
  assert (G : forall l,
             (forall ind, In ind l -> contains (lit "pu") ind = false) ->
             existsb (fun ind => startswith ind
                        (lstrip pre ++ "p"%char :: "u"%char :: rstrip t1)) l
             = existsb (fun ind => startswith ind
                          (lstrip pre ++ "p"%char :: "u"%char :: rstrip t2)) l).
  { induction l as [|ind l IH]; intros H; [reflexivity|]. simpl.
    rewrite !startswith_before_pu by (apply H; left; reflexivity).
    rewrite IH; [reflexivity|]. intros i Hi. apply H. right. exact Hi. }
  apply G. apply indicators_without_pu.
Qed.

(** ** Validating twice *)

Lemma blank_space : blank (lit " ").
Proof. split; [discriminate | reflexivity]. Qed.

Lemma trim_duplicates_single (content : str) (caps : captures) :
  findall class_pattern content = [caps] -> trim_duplicates content = content.
Proof. intros H. unfold trim_duplicates. rewrite H. reflexivity. Qed.

Lemma class_groups (h name : str) :
  group 1 [(2, name); (1, h)] = h /\ group 2 [(2, name); (1, h)] = name.
Proof. split; reflexivity. Qed.

(** The entity validator on a content with one declaration: the content
    itself when the name is the expected one, else the content with the
    name replaced. *)
Lemma validate_java_file_single (file_name content : str) (caps : captures) :
  wordy (without_ext file_name) ->
  is_explanation content = false ->
  findall class_pattern content = [caps] ->
  exists validated,
    validate_java_file file_name content = Some validated
    /\ validate_java_file file_name validated = Some validated.
Proof.
  intros W X F.
  pose proof (single_declaration class_kinds class_pattern
                (fun h name => [(2, name); (1, h)]) class_match_at
                content caps F)
    as [pre [w1 [kw [w2 [name [post [E [C [B1 [K [B2 [Wn [R [U Fp]]]]]]]]]]]]]].
  assert (S : search class_pattern content <> None).
  { rewrite E.
    apply (findall_renamed class_kinds class_kinds_found class_kinds_plain
             class_pattern _ class_match_at pre w1 kw w2 name post
             w1 kw w2 name); assumption. }
  destruct (str_eqb name (without_ext file_name)) eqn:N.
  - (* the name is the expected one *)
    assert (V : validate_java_file file_name content = Some content).
    { unfold validate_java_file. rewrite X.
      destruct (search class_pattern content); [|contradiction].
      rewrite F. cbn [fold_left]. unfold rename_class.
      rewrite C. cbn [group List.find fst Nat.eqb]. rewrite N.
      rewrite (trim_duplicates_single _ _ F). reflexivity. }
    exists content. split; exact V.
  - (* the declaration is renamed *)
    set (expected := without_ext file_name) in *.
    set (renamed := pre ++ head_text w1 kw ++ lit " " ++ expected ++ post).
    pose proof (findall_renamed class_kinds class_kinds_found
                  class_kinds_plain class_pattern _ class_match_at
                  pre w1 kw w2 name post w1 kw (lit " ") expected
                  U Fp R B1 K blank_space W) as [F' S'].
    fold renamed in F', S'.
    assert (Rn : rename_class expected content caps = renamed).
    { unfold rename_class. rewrite C.
      cbn [group List.find fst Nat.eqb]. rewrite N. rewrite E.
      rewrite (sub_renaming class_kinds class_kinds_found class_kinds_plain
                 class_pattern _ class_match_at class_rename_pattern
                 (fun h => [(1, h)]) class_rename_match_at
                 pre w1 kw w2 name post _ U Fp B1 K B2 Wn).
      cbn [group List.find fst Nat.eqb]. unfold renamed.
      rewrite <- !app_assoc. reflexivity. }
    assert (X' : is_explanation renamed = false).
    { rewrite <- X, E. unfold renamed, head_text.
      rewrite <- !app_assoc. apply is_explanation_before_pu. }
    exists renamed. split.
    + unfold validate_java_file. rewrite X.
      destruct (search class_pattern content); [|contradiction].
      rewrite F. cbn [fold_left]. fold expected. rewrite Rn.
      rewrite (trim_duplicates_single _ _ F'). reflexivity.
    + unfold validate_java_file. rewrite X'.
      destruct (search class_pattern renamed); [|contradiction].
      rewrite F'. cbn [fold_left]. fold expected. unfold rename_class.
      cbn [group List.find fst Nat.eqb]. rewrite str_eqb_refl.
      rewrite (trim_duplicates_single _ _ F'). reflexivity.
Qed.

(** The repository validator on a content with one declaration, when the
    content has no [extends] clause once the name is corrected. *)
Lemma validate_repository_file_single
      (file_name content : str) (caps : captures) :
  wordy (without_ext file_name) ->
  is_explanation content = false ->
  findall interface_pattern content = [caps] ->
  search extend_pattern (rename_interfaces (without_ext file_name) content)
  = None ->
  exists validated,
    validate_repository_file file_name content = Some validated
    /\ validate_repository_file file_name validated = Some validated.
Proof.
  intros W X F Ex.
  pose proof (single_declaration [lit "interface"] interface_pattern
                (fun _ name => [(1, name)]) interface_match_at
                content caps F)
    as [pre [w1 [kw [w2 [name [post [E [C [B1 [K [B2 [Wn [R [U Fp]]]]]]]]]]]]]].
  assert (S : search interface_pattern content <> None).
  { rewrite E.
    apply (findall_renamed [lit "interface"] interface_found interface_plain
             interface_pattern _ interface_match_at pre w1 kw w2 name post
             w1 kw w2 name); assumption. }
  set (expected := without_ext file_name) in *.
  assert (Rn1 : rename_interfaces expected content
                = rename_interface expected content name).
  { unfold rename_interfaces. rewrite F, C. reflexivity. }
  destruct (str_eqb name expected) eqn:N.
  - (* the name is the expected one *)
    assert (Rn : rename_interfaces expected content = content).
    { rewrite Rn1. unfold rename_interface. rewrite N. reflexivity. }
    assert (V : validate_repository_file file_name content = Some content).
    { unfold validate_repository_file. rewrite X.
      destruct (search interface_pattern content); [|contradiction].
      fold expected. rewrite Rn. unfold advise_on_extends.
      rewrite Rn in Ex. rewrite Ex. reflexivity. }
    exists content. split; exact V.
  - (* the declaration is renamed *)
    assert (Ki : In (lit "interface") [lit "interface"]) by (left; reflexivity).
    set (renamed := pre ++ head_text (lit " ") (lit "interface") ++ lit " "
                        ++ expected ++ post).
    pose proof (findall_renamed [lit "interface"] interface_found
                  interface_plain interface_pattern _ interface_match_at
                  pre w1 kw w2 name post (lit " ") (lit "interface") (lit " ")
                  expected U Fp R blank_space Ki blank_space W) as [F' S'].
    fold renamed in F', S'.
    assert (Rn : rename_interfaces expected content = renamed).
    { rewrite Rn1. unfold rename_interface. rewrite N, E.
      rewrite (sub_renaming [lit "interface"] interface_found interface_plain
                 interface_pattern _ interface_match_at
                 interface_rename_pattern (fun _ => [])
                 interface_rename_match_at
                 pre w1 kw w2 name post _ U Fp B1 K B2 Wn).
      unfold renamed. reflexivity. }
    assert (Rn' : rename_interfaces expected renamed = renamed).
    { unfold rename_interfaces. rewrite F'. cbn [map fold_left].
      unfold rename_interface. cbn [group List.find fst Nat.eqb].
      rewrite str_eqb_refl. reflexivity. }
    assert (X' : is_explanation renamed = false).
    { rewrite <- X, E. unfold renamed, head_text.
      rewrite <- !app_assoc. apply is_explanation_before_pu. }
    rewrite Rn in Ex.
    exists renamed. split.
    + unfold validate_repository_file. rewrite X.
      destruct (search interface_pattern content); [|contradiction].
      fold expected. rewrite Rn. unfold advise_on_extends. rewrite Ex.
      reflexivity.
    + unfold validate_repository_file. rewrite X'.
      destruct (search interface_pattern renamed); [|contradiction].
      fold expected. rewrite Rn'. unfold advise_on_extends. rewrite Ex.
      reflexivity.
Qed.

Lemma validate_java_file_some (file_name content validated : str) :
  validate_java_file file_name content = Some validated ->
  is_explanation content = false.
Proof.
  unfold validate_java_file.
  destruct (is_explanation content); [discriminate | reflexivity].
Qed.

Lemma validate_repository_file_some (file_name content validated : str) :
  validate_repository_file file_name content = Some validated ->
  is_explanation content = false.
Proof.
  unfold validate_repository_file.
  destruct (is_explanation content); [discriminate | reflexivity].
Qed.

Lemma length_one {A} (l : list A) : length l = 1 -> exists x, l = [x].
Proof.
  destruct l as [|x [|y l]]; simpl; intros H; try discriminate.
  exists x. reflexivity.
Qed.

(** C5, as the code has it.  For a file whose base name is a name
    ([\w+]) and a content in which [re.findall] finds exactly one
    declaration, validating the validated output again returns it
    unchanged: always for the entity validator, and for the repository
    validator when the content, once its name is corrected, has no
    [extends] clause. *)
Theorem validators_idempotent_on_one_declaration
        (file_name content validated : str) :
  wordy (without_ext file_name) ->
  (length (findall class_pattern content) = 1 ->
   validate_java_file file_name content = Some validated ->
   validate_java_file file_name validated = Some validated)
  /\ (length (findall interface_pattern content) = 1 ->
      search extend_pattern
             (rename_interfaces (without_ext file_name) content) = None ->
      validate_repository_file file_name content = Some validated ->
      validate_repository_file file_name validated = Some validated).
Proof.
  intros W. split.
  - intros L V. apply length_one in L. destruct L as [caps F].
    destruct (validate_java_file_single file_name content caps W
                (validate_java_file_some _ _ _ V) F) as [v [V1 V2]].
    rewrite V in V1. inversion V1; subst. exact V2.
  - intros L Ex V. apply length_one in L. destruct L as [caps F].
    destruct (validate_repository_file_single file_name content caps W
                (validate_repository_file_some _ _ _ V) F Ex)
      as [v [V1 V2]].
    rewrite V in V1. inversion V1; subst. exact V2.
Qed.

Lemma validators_idempotent_on_one_declaration_witness :
  let entity := lit "package org.acme.model;

@Entity
public   class Customer {
    private Long id;
}
" in
  let entity' := lit "package org.acme.model;

@Entity
public   class Member {
    private Long id;
}
" in
  let repository := lit "package org.acme.data;

public interface
MemberDao {
    Member findById(Long id);
}
" in
  let repository' := lit "package org.acme.data;

public interface MemberRepository {
    Member findById(Long id);
}
" in
  validate_java_file (lit "Member.java") entity = Some entity'
  /\ validate_java_file (lit "Member.java") entity' = Some entity'
  /\ validate_repository_file (lit "MemberRepository.java") repository
     = Some repository'
  /\ validate_repository_file (lit "MemberRepository.java") repository'
     = Some repository'.
Proof.
  intros entity entity' repository repository'.
  assert (V1 : validate_java_file (lit "Member.java") entity = Some entity')
    by (vm_compute; reflexivity).
  assert (V2 : validate_repository_file (lit "MemberRepository.java")
                 repository = Some repository')
    by (vm_compute; reflexivity).
  split; [exact V1|]. split.
  { apply (proj1 (validators_idempotent_on_one_declaration
                    (lit "Member.java") entity entity'
                    ltac:(split; [discriminate | reflexivity]))).
    - vm_compute. reflexivity.
    - exact V1. }
  split; [exact V2|].
  apply (proj2 (validators_idempotent_on_one_declaration
                  (lit "MemberRepository.java") repository repository'
                  ltac:(split; [discriminate | reflexivity]))).
  - vm_compute. reflexivity.
  - vm_compute. reflexivity.
  - exact V2.
Defined.

(** C5, as the claim has it, fails.  An interface with an [extends]
    clause gets one more advisory comment at each validation; a content
    with two declarations, one name a prefix of the other, is renamed
    again by a second validation; and so is a content validated for a
    file whose base name is not a name. *)
Lemma validators_not_idempotent :
  (let content := lit "package a;
public interface Foo extends Bar {}" in
   let once := lit "package a;
// Make sure all method return types match those in Bar
public interface Foo extends Bar {}" in
   let twice := lit "package a;
// Make sure all method return types match those in Bar
// Make sure all method return types match those in Bar
public interface Foo extends Bar {}" in
   validate_repository_file (lit "Foo.java") content = Some once
   /\ validate_repository_file (lit "Foo.java") once = Some twice
   /\ twice <> once)
  /\ (let content := lit "public class AB {} public class A {}" in
      let once := lit "public class ABB {} // Additional code removed due to duplicate class declaration" in
      let twice := lit "public class AB {} // Additional code removed due to duplicate class declaration" in
      validate_java_file (lit "AB.java") content = Some once
      /\ validate_java_file (lit "AB.java") once = Some twice
      /\ twice <> once)
  /\ (let content := lit "public class X {}" in
      let once := lit "public class Foo-Bar {}" in
      let twice := lit "public class Foo-Bar-Bar {}" in
      validate_java_file (lit "Foo-Bar.java") content = Some once
      /\ validate_java_file (lit "Foo-Bar.java") once = Some twice
      /\ twice <> once).
Proof.
  repeat split; try (vm_compute; reflexivity); discriminate.
Qed.

(** ** The fallback stubs *)

Lemma startswith_app_cases (p u v : str) :
  startswith p (u ++ v) = true ->
  startswith p u = true \/ startswith u p = true.
Proof.
  revert u. induction p as [|a p IH]; intros u H.
  - left. reflexivity.
  - destruct u as [|b u]; [right; reflexivity|].
    simpl in H. apply andb_true_iff in H. destruct H as [H1 H2].
    destruct (IH u H2) as [G|G]; [left|right]; simpl.
    + rewrite H1, G. reflexivity.
    + apply chr_eqb_eq in H1. subst b. rewrite chr_eqb_refl, G. reflexivity.
Qed.

Lemma startswith_firstn (u p : str) :
  startswith u p = true -> u = firstn (length u) p.
Proof.
  revert p. induction u as [|a u IH]; intros p H; [reflexivity|].
  destruct p as [|b p]; [discriminate|].
  simpl in H. apply andb_true_iff in H. destruct H as [H1 H2].
  apply chr_eqb_eq in H1. subst b. simpl. f_equal. apply IH. exact H2.
Qed.

Lemma endswith_app (q u : str) : endswith q (u ++ q) = true.
Proof. unfold endswith. rewrite rev_app_distr. apply startswith_app. Qed.

Lemma startswith_contains (p s : str) :
  startswith p s = true -> contains p s = true.
Proof. intros H. destruct s; simpl; rewrite H; reflexivity. Qed.

Section Scanning.

Variable kws : list str.
Variable r : regex.
Variable groups : str -> str -> captures.
Hypothesis r_at :
  forall s,
    match_at r s
    = match decl_at kws s with
      | Some (h, w2, name, rest) =>
          Some (Found (h ++ w2 ++ name) (groups h name) rest)
      | None => None
      end.

(** A declaration starts with [public] and a white space. *)
Lemma decl_at_public (s : str) :
  decl_at kws s <> None ->
  exists c t, s = lit "public" ++ c :: t /\ is_space c = true.
Proof.
  destruct (decl_at kws s) as [[[[h w2] name] rest]|] eqn:E;
    [|intros H; contradiction].
  intros _. apply decl_at_sound in E.
  destruct E as [w1 [kw [E1 [B1 [K [E2 _]]]]]].
  destruct (blank_head w1 [] B1) as [c [w1' [Ew Hc]]].
  exists c, (w1' ++ kw ++ w2 ++ name ++ rest). split; [|exact Hc].
  rewrite E2, E1, Ew. unfold head_text. rewrite <- !app_assoc. reflexivity.
Qed.

Lemma match_at_public (s : str) :
  (forall c t, s = lit "public" ++ c :: t -> is_space c = false) ->
  match_at r s = None.
Proof.
  intros H. rewrite r_at.
  destruct (decl_at kws s) as [x|] eqn:E; [|reflexivity].
  exfalso. destruct (decl_at_public s) as [c [t [E1 E2]]];
    [rewrite E; discriminate|].
  rewrite (H c t E1) in E2. discriminate.
Qed.

(** No declaration starts inside a text that is free of [public]. *)
Lemma public_free_unmatched (u v : str) :
  public_free u = true -> unmatched r u v.
Proof.
  intros P u1 u2 E N. apply match_at_public. intros c t E2. exfalso.
  unfold public_free in P. apply andb_true_iff in P. destruct P as [P1 P2].
  apply negb_true_iff in P1.
  assert (S : startswith (lit "public") (u2 ++ v) = true)
    by (rewrite E2; apply startswith_app).
  destruct (startswith_app_cases _ _ _ S) as [G|G].
  - rewrite E in P1. rewrite contains_app_l in P1; [discriminate|].
    apply startswith_contains. exact G.
  - apply startswith_firstn in G. rewrite forallb_forall in P2.
    assert (Q : forall q, In q [lit "p"; lit "pu"; lit "pub"; lit "publ";
                                lit "publi"] -> u2 <> q).
    { intros q Hq Eq. specialize (P2 q Hq). subst q. rewrite E in P2.
      rewrite endswith_app in P2. discriminate. }
    destruct (length u2) as [|[|[|[|[|[|n]]]]]] eqn:L; simpl in G.
    + destruct u2; [contradiction | discriminate].
    + apply (Q (lit "p")); [simpl; auto 10 | exact G].
    + apply (Q (lit "pu")); [simpl; auto 10 | exact G].
    + apply (Q (lit "pub")); [simpl; auto 10 | exact G].
    + apply (Q (lit "publ")); [simpl; auto 10 | exact G].
    + apply (Q (lit "publi")); [simpl; auto 10 | exact G].
    + rewrite E in P1. rewrite contains_app_l in P1; [discriminate|].
      apply startswith_contains. rewrite G. destruct n; reflexivity.
Qed.

(** No declaration starts inside a text without white space that is
    followed by a semicolon. *)
Lemma spaceless_unmatched (u t : str) :
  spaceless u -> unmatched r u (";"%char :: t).
Proof.
  intros P u1 u2 E N. apply match_at_public. intros c t' E2.
  destruct (is_space c) eqn:Hc; [|reflexivity]. exfalso.
  destruct (app_before ";"%char (lit "public") u2 t (c :: t') E2) as [u3 E3].
  { simpl. intuition discriminate. }
  rewrite E3, <- app_assoc in E2. apply app_inv_head in E2.
  destruct u3 as [|d u3]; simpl in E2.
  - injection E2 as Ec _. subst c. discriminate Hc.
  - injection E2 as Ec _. subst d.
    unfold spaceless in P. rewrite forallb_forall in P.
    assert (I : In c u).
    { rewrite E, E3. apply in_or_app. right. apply in_or_app. right.
      left. reflexivity. }
    specialize (P c I). rewrite Hc in P. discriminate.
Qed.

(** The one declaration of a stub: a prefix free of [public] around a
    package without white space, the declaration, and a rest without
    declarations. *)
Lemma findall_stub (before package between w1 kw w2 name rest : str) :
  (forall kw t, In kw kws -> keyword_at kws (kw ++ t) = Some (kw, t)) ->
  (forall kw, In kw kws ->
     kw <> []
     /\ forallb (fun c => negb (is_space c) && negb (chr_eqb c "p"%char)) kw
        = true) ->
  public_free before = true -> spaceless package ->
  public_free (";"%char :: between) = true ->
  blank w1 -> In kw kws -> blank w2 -> wordy name ->
  not_headed is_word rest ->
  findall r rest = [] ->
  let stub := before ++ package ++ (";"%char :: between)
              ++ head_text w1 kw ++ w2 ++ name ++ rest in
  findall r stub = [groups (head_text w1 kw) name]
  /\ search r stub <> None.
Proof.
  intros KF KP P1 P2 P3 B1 K B2 W R F stub.
  set (tail := head_text w1 kw ++ w2 ++ name ++ rest).
  assert (U : unmatched r (before ++ package ++ ";"%char :: between) tail).
  { apply unmatched_app; [apply public_free_unmatched; exact P1|].
    apply unmatched_app; [|apply public_free_unmatched; exact P3].
    simpl. apply spaceless_unmatched. exact P2. }
  assert (M : match_at r tail
              = Some (Found (head_text w1 kw ++ w2 ++ name)
                            (groups (head_text w1 kw) name) rest)).
  { unfold tail. rewrite r_at, (decl_at_intro kws KF KP) by assumption.
    reflexivity. }
  assert (Es : stub = (before ++ package ++ ";"%char :: between) ++ tail).
  { unfold stub, tail. rewrite <- !app_assoc. reflexivity. }
  rewrite Es. split.
  - unfold findall. rewrite (findall_skip r _ _ U).
    rewrite (findall_hit r _ _ M); cbn [m_text m_rest m_caps].
    + unfold findall in F. rewrite F. reflexivity.
    + discriminate.
  - unfold search. rewrite (search_skip r _ _ 0 U).
    rewrite (search_hit r _ _ _ M). discriminate.
Qed.

End Scanning.

Lemma strip_headed (c : ascii) (t : str) :
  is_space c = false -> strip (c :: t) = c :: rstrip t.
Proof.
  intros H. unfold strip. simpl. rewrite H.
  apply (rstrip_app_nonspace [] t c H).
Qed.

Lemma without_ext_java (name : str) :
  wordy name -> without_ext (name ++ lit ".java") = name.
Proof.
  intros [_ H]. unfold without_ext.
  induction name as [|c name IH]; [reflexivity|].
  simpl in H. apply andb_true_iff in H. destruct H as [Hc H].
  simpl app. rewrite replace_cons_other.
  - f_equal. apply IH. exact H.
  - discriminate.
  - destruct (startswith (lit ".java") (c :: name ++ lit ".java")) eqn:E;
      [|exact E].
    apply startswith_iff in E. destruct E as [t E]. simpl in E.
    injection E as Ec _. subst c. discriminate Hc.
Qed.

Lemma replace_go_length (old new : str) :
  old <> [] -> length old <= length new ->
  forall s skip,
    skip <= length s ->
    length s <= length (replace_go old new s skip) + skip.
Proof.
  intros N L. induction s as [|c s IH]; intros skip Hs; simpl in *.
  - lia.
  - destruct skip as [|n].
    + destruct old as [|a old]; [contradiction|].
      destruct (startswith (a :: old) (c :: s)) eqn:E.
      * assert (Ho : length old <= length s).
        { apply startswith_iff in E. destruct E as [t E].
          simpl in E. injection E as _ E. rewrite E, length_app. lia. }
        specialize (IH (length old) Ho). rewrite length_app.
        simpl in L. lia.
      * simpl. specialize (IH 0). lia.
    + specialize (IH n). lia.
Qed.

(** Replacing a text that occurs by a longer one gives a longer text. *)
Lemma replace_longer (old new s : str) :
  old <> [] -> length old < length new -> contains old s = true ->
  length s < length (replace old new s).
Proof.
  intros N L. unfold replace. induction s as [|c s IH]; intros H.
  - simpl in H. destruct old; [contradiction | discriminate].
  - destruct old as [|a old]; [contradiction|]. cbn [replace_go].
    destruct (startswith (a :: old) (c :: s)) eqn:E.
    + assert (Ho : length old <= length s).
      { apply startswith_iff in E. destruct E as [t E].
        simpl in E. injection E as _ E. rewrite E, length_app. lia. }
      pose proof (replace_go_length (a :: old) new ltac:(discriminate)
                    ltac:(lia) s (length old) Ho) as G.
      rewrite length_app. simpl in *. lia.
    + cbn [contains] in H. rewrite E in H. simpl orb in H.
      specialize (IH H). simpl length. lia.
Qed.

Lemma is_explanation_headed (t : str) :
  is_explanation ("p"%char :: t) = false.
Proof.
  unfold is_explanation. rewrite strip_headed by reflexivity. reflexivity.
Qed.

(** A content whose one declaration has the expected name is returned as
    it is by the entity validator. *)
Lemma validate_java_file_named (file_name content : str) (caps : captures) :
  is_explanation content = false ->
  search class_pattern content <> None ->
  findall class_pattern content = [caps] ->
  group 2 caps = without_ext file_name ->
  validate_java_file file_name content = Some content.
Proof.
  intros X S F G. unfold validate_java_file. rewrite X.
  destruct (search class_pattern content); [|contradiction].
  rewrite F. cbn [fold_left]. unfold rename_class.
  rewrite G, str_eqb_refl.
  rewrite (trim_duplicates_single _ _ F). reflexivity.
Qed.

Lemma entity_stub_declaration (package name : str) :
  wordy name -> spaceless package ->
  findall class_pattern (entity_stub package name)
  = [[(2, name); (1, lit "public class")]]
  /\ search class_pattern (entity_stub package name) <> None.
Proof.
  intros W P. unfold entity_stub.
  match goal with
  | |- context [package ++ ?b ++ name ++ ?c] =>
      pose (between := firstn (length b - 14) (tl b)); pose (rest := c)
  end.
  pose proof (findall_stub class_kinds class_pattern
                (fun h name => [(2, name); (1, h)]) class_match_at
                (lit "package ") package between
                (lit " ") (lit "class") (lit " ") name rest
                class_kinds_found class_kinds_plain) as H.
  cbv zeta in H.
  match type of H with
  | _ -> _ -> _ -> _ -> _ -> _ -> _ -> _ -> _ -> findall _ ?s = _ /\ _ =>
      assert (E : s = lit "package " ++ package
                      ++ (";"%char :: between ++ lit "public class ")
                      ++ name ++ rest)
        by (do 2 f_equal; vm_compute; reflexivity)
  end.
  rewrite E in H. apply H.
  - vm_compute. reflexivity.
  - exact P.
  - vm_compute. reflexivity.
  - apply blank_space.
  - simpl. auto.
  - apply blank_space.
  - exact W.
  - reflexivity.
  - vm_compute. reflexivity.
Qed.

Lemma entity_stub_validated (package name : str) :
  wordy name -> spaceless package ->
  validate_java_file (name ++ lit ".java") (entity_stub package name)
  = Some (entity_stub package name).
Proof.
  intros W P.
  destruct (entity_stub_declaration package name W P) as [F S].
  apply validate_java_file_named with (caps := [(2, name); (1, lit "public class")]).
  - apply is_explanation_headed.
  - exact S.
  - exact F.
  - rewrite without_ext_java by exact W. reflexivity.
Qed.

Lemma repository_stub_declaration (package name : str) :
  wordy name -> spaceless package ->
  findall interface_pattern (repository_stub package name (lit "Member"))
  = [[(1, name)]]
  /\ search interface_pattern (repository_stub package name (lit "Member"))
     <> None.
Proof.
  intros W P. unfold repository_stub.
  match goal with
  | |- context [package ++ ?a ++ ?e ++ ?b ++ name ++ ?c] =>
      pose (between := firstn (length (a ++ e ++ b) - 18) (tl (a ++ e ++ b)));
      pose (rest := c)
  end.
  pose proof (findall_stub [lit "interface"] interface_pattern
                (fun _ name => [(1, name)]) interface_match_at
                (lit "package ") package between
                (lit " ") (lit "interface") (lit " ") name rest
                interface_found interface_plain) as H.
  cbv zeta in H.
  match type of H with
  | _ -> _ -> _ -> _ -> _ -> _ -> _ -> _ -> _ -> findall _ ?s = _ /\ _ =>
      assert (E : s = lit "package " ++ package
                      ++ (";"%char :: between ++ lit "public interface ")
                      ++ name ++ rest)
        by (do 2 f_equal; vm_compute; reflexivity)
  end.
  rewrite E in H. apply H.
  - vm_compute. reflexivity.
  - exact P.
  - vm_compute. reflexivity.
  - apply blank_space.
  - simpl. auto.
  - apply blank_space.
  - exact W.
  - reflexivity.
  - vm_compute. reflexivity.
Qed.

(** The repository stub names a parent interface, and holds the words the
    advice is put in front of. *)
Lemma repository_stub_extends (package name : str) :
  search extend_pattern (repository_stub package name (lit "Member")) <> None
  /\ contains (lit "public interface")
              (repository_stub package name (lit "Member")) = true.
Proof.
  unfold repository_stub. split.
  - match goal with
    | |- context [package ++ ?a ++ ?e ++ ?b ++ name ++ ?c] =>
        assert (E : lit "package " ++ package ++ a ++ e ++ b ++ name ++ c
                    = (lit "package " ++ package ++ a ++ e ++ b ++ name
                       ++ lit " ")
                      ++ lit "extends JpaRepository" ++ skipn 22 c)
          by (rewrite <- !app_assoc; reflexivity)
    end.
    rewrite E. apply search_from_complete.
    change (lit "extends JpaRepository")
      with (lit "extends" ++ lit " " ++ lit "JpaRepository").
    apply MCat; [apply MLit|].
    apply MCat; [apply MPlus; [discriminate | reflexivity]|].
    apply MGroup, MPlus; [discriminate | reflexivity].
  - apply contains_iff.
    match goal with
    | |- context [package ++ ?a ++ ?e ++ ?b ++ name ++ ?c] =>
        exists (lit "package " ++ package
                ++ firstn (length (a ++ e ++ b) - 17) (a ++ e ++ b)),
               (lit " " ++ name ++ c)
    end.
    rewrite <- !app_assoc. reflexivity.
Qed.

(** What the repository validator returns for the stub: the stub with the
    advice on return types put in, which is a longer text. *)
Lemma repository_stub_validated (package name : str) :
  wordy name -> spaceless package ->
  exists parent,
    validate_repository_file (name ++ lit ".java")
      (repository_stub package name (lit "Member"))
    = Some (replace (lit "public interface") (return_types_comment parent)
              (repository_stub package name (lit "Member")))
    /\ length (repository_stub package name (lit "Member"))
       < length (replace (lit "public interface")
                   (return_types_comment parent)
                   (repository_stub package name (lit "Member"))).
Proof.
  intros W P.
  destruct (repository_stub_declaration package name W P) as [F S].
  destruct (repository_stub_extends package name) as [X C].
  set (stub := repository_stub package name (lit "Member")) in *.
  assert (Rn : rename_interfaces (without_ext (name ++ lit ".java")) stub
               = stub).
  { unfold rename_interfaces. rewrite F. cbn [map fold_left].
    unfold rename_interface. cbn [group List.find fst Nat.eqb].
    rewrite without_ext_java by exact W.
    rewrite str_eqb_refl. reflexivity. }
  destruct (search extend_pattern stub) as [[i m]|] eqn:Ex; [|contradiction].
  exists (group 1 (m_caps m)). split.
  - unfold validate_repository_file.
    replace (is_explanation stub) with false
      by (symmetry; apply is_explanation_headed).
    destruct (search interface_pattern stub); [|contradiction].
    rewrite Rn. unfold advise_on_extends. rewrite Ex. reflexivity.
  - apply replace_longer.
    + discriminate.
    + unfold return_types_comment. rewrite !length_app. simpl. lia.
    + exact C.
Qed.

(** Claim C2, as the code has it.  For a type name made of word
    characters and a package without white space, the entity validator
    returns the entity stub as it is; the repository validator accepts the
    repository stub too, but what it returns is the stub with the advice on
    return types put before its declaration, a text other than the stub. *)
Theorem fallback_stub_validation (package name : str) :
  wordy name -> spaceless package ->
  validate_java_file (name ++ lit ".java") (entity_stub package name)
  = Some (entity_stub package name)
  /\ exists parent,
       validate_repository_file (name ++ lit ".java")
         (repository_stub package name (lit "Member"))
       = Some (replace (lit "public interface") (return_types_comment parent)
                 (repository_stub package name (lit "Member")))
       /\ replace (lit "public interface") (return_types_comment parent)
            (repository_stub package name (lit "Member"))
          <> repository_stub package name (lit "Member").
Proof.
  intros W P. split.
  - apply entity_stub_validated; assumption.
  - destruct (repository_stub_validated package name W P) as [parent [V L]].
    exists parent. split; [exact V|].
    intros E. rewrite E in L. lia.
Qed.

Lemma fallback_stub_validation_witness :
  wordy (lit "Member") /\ spaceless default_model_package
  /\ validate_java_file (lit "Member.java")
       (entity_stub default_model_package (lit "Member"))
     = Some (entity_stub default_model_package (lit "Member"))
  /\ exists parent,
       validate_repository_file (lit "Member.java")
         (repository_stub default_model_package (lit "Member") (lit "Member"))
       = Some (replace (lit "public interface") (return_types_comment parent)
                 (repository_stub default_model_package (lit "Member")
                    (lit "Member")))
       /\ replace (lit "public interface") (return_types_comment parent)
            (repository_stub default_model_package (lit "Member")
               (lit "Member"))
          <> repository_stub default_model_package (lit "Member")
               (lit "Member").
Proof.
  split; [split; [discriminate | reflexivity]|].
  split; [reflexivity|].
  apply (fallback_stub_validation default_model_package (lit "Member")).
  - split; [discriminate | reflexivity].
  - reflexivity.
Defined.

(** The stub [migrate_repository] writes for [MemberRepository.java] does
    not pass its validator unchanged: the advice on return types is put
    in. *)
Lemma repository_stub_not_unchanged :
  let stub := repository_fallback (lit "package org.acme.data;
public class MemberRepository {}") (lit "MemberRepository.java") in
  validate_repository_file (lit "MemberRepository.java") stub
  = Some (replace (lit "public interface")
            (return_types_comment (lit "JpaRepository")) stub)
  /\ validate_repository_file (lit "MemberRepository.java") stub
     <> Some stub.
Proof.
  intros stub.
  assert (V : validate_repository_file (lit "MemberRepository.java") stub
              = Some (replace (lit "public interface")
                        (return_types_comment (lit "JpaRepository")) stub))
    by (vm_compute; reflexivity).
  split; [exact V|].
  rewrite V. intros E.
  assert (L : length (replace (lit "public interface")
                        (return_types_comment (lit "JpaRepository")) stub)
              = length stub)
    by (apply (f_equal (fun o => match o with
                                 | Some v => length v
                                 | None => 0
                                 end)) in E; exact E).
  vm_compute in L. discriminate L.
Qed.

(* ===================================================================== *)
(** * Further properties of the code *)
(* ===================================================================== *)

(** ** The gateway: requests, provenance, user turns *)

Section GatewayFacts.

Variable service : Type.
Variable post : service -> list message -> response * service.

Lemma attempts_requests (remaining : nat) :
  forall (attempt max_attempts : nat) (prompt : str)
         (messages : list message) (c : client service),
  exists r c',
    attempts post remaining attempt max_attempts prompt messages c
    = (Returned r, c')
    /\ requests c' <= requests c + remaining
    /\ requests c + Nat.min 1 remaining <= requests c'.
Proof.
  induction remaining as [|n IH]; intros attempt max_attempts prompt messages c.
  - exists None, c. simpl. repeat split; lia.
  - cbn [attempts]. rewrite bind_run. unfold send.
    destruct (post (remote c) (outgoing attempt prompt messages))
      as [r svc] eqn:P.
    destruct (negb (status_code r =? 200)).
    + eexists _, _. split; [reflexivity|]. simpl. lia.
    + destruct (extract_code_if_present (reply r)) as [code|].
      * eexists _, _. split; [reflexivity|]. simpl. lia.
      * destruct (attempt =? max_attempts - 1).
        -- eexists _, _. split; [reflexivity|]. simpl. lia.
        -- destruct (IH (S attempt) max_attempts prompt
                        (outgoing attempt prompt messages
                         ++ [Message Assistant (reply r);
                             Message User not_valid_java])
                        (Client svc (S (requests c))))
             as [r' [c' [E [U L]]]].
           exists r', c'. split; [exact E|]. simpl in U, L. simpl. lia.
Qed.

Lemma attempts_provenance (remaining : nat) :
  forall (attempt max_attempts : nat) (prompt : str)
         (messages : list message) (c c' : client service) (text : str),
    attempts post remaining attempt max_attempts prompt messages c
    = (Returned (Some text), c') ->
    exists sent svc r,
      post svc sent = (r, remote c')
      /\ status_code r = 200
      /\ extract_code_if_present (reply r) = Some text.
Proof.
  induction remaining as [|n IH];
    intros attempt max_attempts prompt messages c c' text H.
  - discriminate H.
  - cbn [attempts] in H. rewrite bind_run in H. unfold send in H.
    destruct (post (remote c) (outgoing attempt prompt messages))
      as [r svc] eqn:P.
    destruct (status_code r =? 200) eqn:St; cbn [negb] in H;
      [|discriminate H].
    destruct (extract_code_if_present (reply r)) as [code|] eqn:X.
    + injection H as H1 H2. subst code c'.
      exists (outgoing attempt prompt messages), (remote c), r.
      repeat split; [exact P | apply Nat.eqb_eq; exact St | exact X].
    + destruct (attempt =? max_attempts - 1); [discriminate H|].
      exact (IH _ _ _ _ _ _ _ H).
Qed.

(** The requests a query sends, as a recording service keeps them: from
    the second attempt on, a request holds one user turn, the stricter
    prompt. *)
Lemma is_user_outgoing_later (attempt : nat) (prompt : str)
      (messages : list message) :
  filter is_user (outgoing (S attempt) prompt messages)
  = [Message User (stricter prompt)].
Proof.
  unfold outgoing. cbn [Nat.ltb Nat.leb]. rewrite filter_app.
  cbn [filter is_user msg_role app].
  replace (filter is_user (filter (fun m => negb (is_user m)) messages))
    with (@nil message); [reflexivity|].
  induction messages as [|m ms IH]; [reflexivity|].
  cbn [filter]. destruct (is_user m) eqn:U; cbn [negb filter].
  - exact IH.
  - rewrite U. exact IH.
Qed.

Lemma attempts_later_requests (remaining : nat) :
  forall (attempt max_attempts : nat) (prompt : str)
         (messages : list message)
         (c : client (service * list (list message))),
  exists later,
    snd (remote (snd (attempts (recording post) remaining (S attempt)
                               max_attempts prompt messages c)))
    = snd (remote c) ++ later
    /\ Forall (fun sent => filter is_user sent
                           = [Message User (stricter prompt)]) later.
Proof.
  induction remaining as [|n IH]; intros attempt max_attempts prompt messages c.
  - exists []. cbn. rewrite app_nil_r. split; [reflexivity | constructor].
  - cbn [attempts]. rewrite bind_run. unfold send, recording.
    set (sent := outgoing (S attempt) prompt messages).
    destruct (post (fst (remote c)) sent) as [r svc] eqn:P.
    assert (One : Forall (fun sent => filter is_user sent
                                      = [Message User (stricter prompt)])
                         [sent]).
    { constructor; [apply is_user_outgoing_later | constructor]. }
    destruct (negb (status_code r =? 200)).
    + exists [sent]. split; [reflexivity | exact One].
    + destruct (extract_code_if_present (reply r)) as [code|].
      * exists [sent]. split; [reflexivity | exact One].
      * destruct (S attempt =? max_attempts - 1).
        -- exists [sent]. split; [reflexivity | exact One].
        -- destruct (IH (S attempt) max_attempts prompt
                        (sent ++ [Message Assistant (reply r);
                                  Message User not_valid_java])
                        (Client (svc, snd (remote c) ++ [sent])
                                (S (requests c))))
             as [later [E F]].
           exists (sent :: later). split.
           ++ fold (recording post). rewrite E. cbn [remote snd].
              rewrite <- app_assoc. reflexivity.
           ++ constructor; [apply is_user_outgoing_later | exact F].
Qed.

End GatewayFacts.

(** X1.  Whatever the service answers, [query] ends with a result after
    at most [max_attempts] requests, and after at least one request when
    [max_attempts] is not zero. *)
Theorem query_sends_at_most_max_attempts
        (service : Type) (post : service -> list message -> response * service)
        (preprocess_prompt : str -> str) (prompt : str)
        (system_message : option str) (max_attempts : nat)
        (c : client service) :
  exists r c',
    query post preprocess_prompt prompt system_message max_attempts c
    = (Returned r, c')
    /\ requests c' <= requests c + max_attempts
    /\ requests c + Nat.min 1 max_attempts <= requests c'.
Proof.
  unfold query. apply attempts_requests.
Qed.

(** X2.  A text that [query] returns is the code extracted from a reply
    of the service that had status 200, the reply to the last request
    sent. *)
Theorem query_result_was_sent
        (service : Type) (post : service -> list message -> response * service)
        (preprocess_prompt : str -> str) (prompt : str)
        (system_message : option str) (max_attempts : nat)
        (c c' : client service) (text : str) :
  query post preprocess_prompt prompt system_message max_attempts c
  = (Returned (Some text), c') ->
  exists sent svc r,
    post svc sent = (r, remote c')
    /\ status_code r = 200
    /\ extract_code_if_present (reply r) = Some text.
Proof.
  unfold query. apply attempts_provenance.
Qed.

Lemma query_result_was_sent_witness :
  query play as_is (lit "migrate") None 3
        (start [Response 200 (lit "public class Member {}")])
  = (Returned (Some (lit "public class Member {}")), Client [] 1)
  /\ exists sent svc r,
       play svc sent = (r, [])
       /\ status_code r = 200
       /\ extract_code_if_present (reply r)
          = Some (lit "public class Member {}").
Proof.
  split; [vm_compute; reflexivity|].
  apply (@query_result_was_sent script play as_is (lit "migrate") None 3
           (start [Response 200 (lit "public class Member {}")])
           (Client [] 1) (lit "public class Member {}")).
  vm_compute. reflexivity.
Defined.

(** X3.  Every request of a query holds exactly one user turn: the
    prompt on the first attempt and the stricter prompt on every later
    one.  The turn [not_valid_java] that is appended after a rejected
    reply is dropped with the other user turns before the next request
    and is never sent. *)
Theorem query_requests_hold_one_user_turn
        (service : Type) (post : service -> list message -> response * service)
        (preprocess_prompt : str -> str) (prompt : str)
        (system_message : option str) (max_attempts : nat)
        (svc : service) (sent_before : nat) :
  let c' := snd (query (recording post) preprocess_prompt prompt
                       system_message max_attempts
                       (Client (svc, []) sent_before)) in
  snd (remote c') = []
  \/ exists first later,
       snd (remote c') = first :: later
       /\ filter is_user first = [Message User (preprocess_prompt prompt)]
       /\ Forall (fun sent =>
                    filter is_user sent
                    = [Message User (stricter (preprocess_prompt prompt))])
                 later.
Proof.
  unfold query. set (p := preprocess_prompt prompt).
  set (messages := match system_message with
                   | Some sm => if truthy sm then [Message System sm] else []
                   | None => []
                   end).
  assert (U : filter is_user (outgoing 0 p messages) = [Message User p]).
  { unfold outgoing. cbn [Nat.ltb Nat.leb]. rewrite filter_app.
    unfold messages. destruct system_message as [sm|]; [|reflexivity].
    destruct (truthy sm); reflexivity. }
  destruct max_attempts as [|n]; [left; reflexivity|].
  right. cbn [attempts]. rewrite bind_run. unfold send.
  unfold recording at 1. cbn [remote fst snd app].
  destruct (post svc (outgoing 0 p messages)) as [r svc'] eqn:P.
  destruct (negb (status_code r =? 200)).
  { exists (outgoing 0 p messages), []. repeat split; [exact U | constructor]. }
  destruct (extract_code_if_present (reply r)) as [code|].
  { exists (outgoing 0 p messages), []. repeat split; [exact U | constructor]. }
  destruct (0 =? S n - 1).
  { exists (outgoing 0 p messages), []. repeat split; [exact U | constructor]. }
  destruct (attempts_later_requests service post n 0 (S n) p
              (outgoing 0 p messages
               ++ [Message Assistant (reply r); Message User not_valid_java])
              (Client (svc', [outgoing 0 p messages]) (S sent_before)))
    as [later [E F]].
  exists (outgoing 0 p messages), later. split; [exact E|].
  split; [exact U | exact F].
Qed.

(** ** The package resolver *)

Lemma taken_not_empty (r : option str) (p : str) :
  taken r = Some p -> p <> [].
Proof.
  destruct r as [[|c q]|]; simpl; intros H; try discriminate H.
  injection H as H. subst p. discriminate.
Qed.

(** X4.  The resolver never returns an empty package when the default is
    not empty: an empty declared value and an empty inferred value are
    both passed over. *)
Theorem get_safe_package_path_not_empty
        (file_path content default_package : str) :
  default_package <> [] ->
  get_safe_package_path file_path content default_package <> [].
Proof.
  intros D. unfold get_safe_package_path.
  destruct (taken (extract_package_from_content content)) as [p|] eqn:C.
  - exact (taken_not_empty _ _ C).
  - destruct (taken (extract_package_from_path file_path)) as [p|] eqn:P.
    + exact (taken_not_empty _ _ P).
    + exact D.
Qed.

Lemma get_safe_package_path_not_empty_witness :
  lit "org.default" <> []
  /\ get_safe_package_path (lit "/src/main/java/Foo.java") (lit "package ;")
                           (lit "org.default") <> [].
Proof.
  split; [discriminate|].
  apply (get_safe_package_path_not_empty (lit "/src/main/java/Foo.java")
           (lit "package ;") (lit "org.default")).
  discriminate.
Defined.

(** ** The test gate: how often each collaborator is called *)

Section GateCounts.

Variable W : Type.
Variable pre_pass : M W unit.
Variable run_tests : M W (bool * str * str).
Variable debug_and_fix_errors : str -> str -> M W bool.
Variable try_comprehensive_fix : str -> str -> M W bool.
Variable input : str -> M W str.

Lemma count_app (p : event -> bool) (a b : list event) :
  count p (a ++ b) = count p a + count p b.
Proof. unfold count. rewrite filter_app, length_app. reflexivity. Qed.

Lemma count_cons (p : event -> bool) (e : event) (l : list event) :
  count p (e :: l) = (if p e then 1 else 0) + count p l.
Proof. unfold count. cbn [filter]. destruct (p e); reflexivity. Qed.

Lemma count_nil (p : event -> bool) : count p [] = 0.
Proof. reflexivity. Qed.

Lemma lift_events {A} (m : M W A) (ev : A -> list event) (g : gate W) :
  (exists a w, lift m ev g = (Returned a, (w, snd g ++ ev a)))
  \/ (exists e w, lift m ev g = (Raised e, (w, snd g))).
Proof.
  unfold lift. destruct (m (fst g)) as [[a|e] w].
  - left. exists a, w. reflexivity.
  - right. exists e, w. reflexivity.
Qed.

Lemma gate_attempts_events (max_attempts remaining : nat) :
  forall (attempt : nat) (g : gate W),
  exists added,
    snd (snd (gate_attempts run_tests debug_and_fix_errors
                            try_comprehensive_fix input
                            remaining attempt max_attempts g))
    = snd g ++ added
    /\ within remaining remaining
              (attempt + remaining - Nat.max attempt 2)
              (if attempt <=? max_attempts - 1 then 1 else 0)
              added.
Proof.
  induction remaining as [|n IH]; intros attempt g.
  - exists []. split; [cbn; rewrite app_nil_r; reflexivity|].
    unfold within, count. cbn. repeat split; lia.
  - cbn [gate_attempts]. rewrite bind_run.
    destruct (lift_events run_tests (fun r => [Tested (fst (fst r))]) g)
      as [[[[success stdout] stderr] [w1 E1]]|[e [w1 E1]]]; rewrite E1.
    2:{ exists []. split; [cbn; rewrite app_nil_r; reflexivity|].
        unfold within, count. cbn. repeat split; lia. }
    cbn [fst].
    destruct success.
    { exists [Tested true]. split; [reflexivity|].
      unfold within, count. cbn. repeat split; lia. }
    rewrite bind_run.
    destruct (lift_events (debug_and_fix_errors stdout stderr)
                          (fun b => [Repaired b])
                          (w1, snd g ++ [Tested false]))
      as [[fixed [w2 E2]]|[e [w2 E2]]]; rewrite E2; cbn [snd].
    2:{ exists [Tested false]. split; [reflexivity|].
        unfold within, count. cbn. repeat split; lia. }
    assert (Next : forall (w : W) (mid : list event),
               count is_test_run mid = 0 ->
               count is_repair mid = 0 ->
               count is_comprehensive mid
               <= (if 2 <=? attempt then 1 else 0) ->
               count is_question mid = 0 ->
               exists added,
                 snd (snd (gate_attempts run_tests debug_and_fix_errors
                             try_comprehensive_fix input n (S attempt)
                             max_attempts
                             (w, (snd g ++ [Tested false; Repaired fixed])
                                 ++ mid)))
                 = snd g ++ added
                 /\ within (S n) (S n)
                           (attempt + S n - Nat.max attempt 2)
                           (if attempt <=? max_attempts - 1 then 1 else 0)
                           added).
    { intros w mid T R C Q.
      destruct (IH (S attempt)
                   (w, (snd g ++ [Tested false; Repaired fixed]) ++ mid))
        as [added [E [B1 [B2 [B3 [B4 B5]]]]]].
      exists ([Tested false; Repaired fixed] ++ mid ++ added). split.
      - rewrite E. cbn [snd]. rewrite <- !app_assoc. reflexivity.
      - unfold within.
        rewrite !count_app, !count_cons, !count_nil, T, R, Q.
        cbn [is_test_run is_repair is_comprehensive is_question].
        revert C B4.
        destruct (Nat.leb_spec attempt (max_attempts - 1)) as [A1|A1];
          destruct (Nat.leb_spec (S attempt) (max_attempts - 1)) as [A2|A2];
          destruct (Nat.leb_spec 2 attempt) as [A3|A3];
          intros C B4; repeat split; lia. }
    replace (snd g ++ [Tested false] ++ [Repaired fixed])
      with (snd g ++ [Tested false; Repaired fixed]) by reflexivity.
    rewrite <- app_assoc. cbn [app].
    destruct fixed.
    { destruct (Next w2 [] eq_refl eq_refl
                    ltac:(destruct (2 <=? attempt); cbn; lia) eq_refl)
        as [added [E B]].
      rewrite app_nil_r in E. exists added. split; assumption. }
    destruct (2 <=? attempt) eqn:A3.
    2:{ destruct (Next w2 [] eq_refl eq_refl ltac:(cbn; lia) eq_refl)
          as [added [E B]].
        rewrite app_nil_r in E. exists added. split; assumption. }
    rewrite bind_run.
    destruct (lift_events (try_comprehensive_fix stdout stderr)
                          (fun b => [ComprehensiveRepair b])
                          (w2, snd g ++ [Tested false; Repaired false]))
      as [[fixed [w3 E3]]|[e [w3 E3]]]; rewrite E3; cbn [snd].
    2:{ exists [Tested false; Repaired false]. split; [reflexivity|].
        unfold within, count. cbn. repeat split; lia. }
    destruct fixed.
    { destruct (Next w3 [ComprehensiveRepair true] eq_refl eq_refl
                    ltac:(try rewrite A3; cbn; lia) eq_refl)
        as [added [E B]].
      exists added. split; assumption. }
    destruct (attempt =? max_attempts - 1) eqn:A4.
    2:{ destruct (Next w3 [ComprehensiveRepair false] eq_refl eq_refl
                      ltac:(try rewrite A3; cbn; lia) eq_refl)
          as [added [E B]].
        exists added. split; assumption. }
    rewrite bind_run.
    destruct (lift_events (input question) (fun a => [Asked a])
                (w3, (snd g ++ [Tested false; Repaired false])
                     ++ [ComprehensiveRepair false]))
      as [[answer [w4 E4]]|[e [w4 E4]]]; rewrite E4; cbn [snd].
    2:{ exists [Tested false; Repaired false; ComprehensiveRepair false].
        split; [rewrite <- app_assoc; reflexivity|].
        apply Nat.leb_le in A3.
        unfold within, count. cbn. repeat split; lia. }
    apply Nat.eqb_eq in A4. apply Nat.leb_le in A3.
    destruct (str_eqb (lower answer) (lit "y")).
    + destruct (IH (S attempt)
                   (w4, ((snd g ++ [Tested false; Repaired false])
                         ++ [ComprehensiveRepair false]) ++ [Asked answer]))
        as [added [E [B1 [B2 [B3 [B4 B5]]]]]].
      exists ([Tested false; Repaired false; ComprehensiveRepair false;
               Asked answer] ++ added). split.
      * rewrite E. cbn [snd]. rewrite <- !app_assoc. reflexivity.
      * unfold within. rewrite !count_app, !count_cons, !count_nil.
        cbn [is_test_run is_repair is_comprehensive is_question].
        revert B4.
        destruct (Nat.leb_spec attempt (max_attempts - 1)) as [A1|A1];
          destruct (Nat.leb_spec (S attempt) (max_attempts - 1)) as [A2|A2];
          intros B4; repeat split; lia.
    + exists [Tested false; Repaired false; ComprehensiveRepair false;
              Asked answer].
      split; [cbn [snd]; rewrite <- !app_assoc; reflexivity|].
      assert (A1 : (attempt <=? max_attempts - 1) = true)
        by (apply Nat.leb_le; lia).
      rewrite A1. unfold within, count. cbn. repeat split; lia.
Qed.

End GateCounts.

(** X5.  However the collaborators behave, and whether the gate returns
    or raises, a run of [run_tests_until_success] invokes the tests at
    most [max_attempts + 1] times and the repair at most [max_attempts]
    times; the comprehensive repair is tried at most [max_attempts - 2]
    times, and the operator is asked at most once, and only after a
    comprehensive repair.  With [max_attempts] at most 2 there is thus
    neither a comprehensive repair nor a question. *)
Theorem gate_calls_are_bounded
        (W : Type) (pre_pass : M W unit) (run_tests : M W (bool * str * str))
        (debug_and_fix_errors try_comprehensive_fix : str -> str -> M W bool)
        (input : str -> M W str) (max_attempts : nat) (w : W) :
  within (max_attempts + 1) max_attempts (max_attempts - 2) 1
         (snd (snd (run_tests_until_success
                      pre_pass run_tests debug_and_fix_errors
                      try_comprehensive_fix input max_attempts (w, [])))).
Proof.
  unfold run_tests_until_success. rewrite bind_run.
  destruct (lift_events W pre_pass (fun _ => []) (w, []))
    as [[u [w0 E0]]|[e [w0 E0]]]; rewrite E0; cbn [snd app].
  2:{ unfold within, count. cbn. repeat split; lia. }
  rewrite bind_run.
  destruct (gate_attempts_events W run_tests debug_and_fix_errors
              try_comprehensive_fix input max_attempts max_attempts 0
              (w0, []))
    as [added [E [B1 [B2 [B3 [B4 B5]]]]]].
  cbn [snd app] in E.
  assert (B4' : count is_question added <= 1)
    by (destruct (0 <=? max_attempts - 1); lia).
  destruct (gate_attempts run_tests debug_and_fix_errors
              try_comprehensive_fix input max_attempts 0 max_attempts
              (w0, [])) as [[[b|]|e] [w1 evs]]; cbn [snd] in E; subst evs.
  - unfold ret. cbn [snd]. unfold within. repeat split; lia.
  - rewrite bind_run.
    destruct (lift_events W run_tests (fun r => [Tested (fst (fst r))])
                (w1, added))
      as [[r [w2 E2]]|[e [w2 E2]]]; rewrite E2; cbn [snd].
    + unfold ret. cbn [snd]. unfold within.
      rewrite !count_app, !count_cons, !count_nil.
      cbn [is_test_run is_repair is_comprehensive is_question].
      repeat split; lia.
    + unfold within. repeat split; lia.
  - cbn [snd]. unfold within. repeat split; lia.
Qed.

(** ** The solution applicator: what a batch writes *)

Lemma read_file_write_same (path content : str) (t : fs) :
  read_file path (write_file path content t) = Some content.
Proof.
  induction t as [|[p c] t IH]; cbn [write_file read_file].
  - rewrite str_eqb_refl. reflexivity.
  - destruct (str_eqb p path) eqn:E; cbn [read_file]; rewrite E;
      [reflexivity | exact IH].
Qed.

Lemma read_file_write_other (p q content : str) (t : fs) :
  q <> p -> read_file p (write_file q content t) = read_file p t.
Proof.
  intros N. induction t as [|[p0 c] t IH]; cbn [write_file read_file].
  - apply str_eqb_neq in N. rewrite N. reflexivity.
  - destruct (str_eqb p0 q) eqn:E; cbn [read_file].
    + apply str_eqb_eq in E. subst p0.
      apply str_eqb_neq in N. rewrite N. reflexivity.
    + rewrite IH. reflexivity.
Qed.

(** X6.  An error in a later entry does not undo the earlier ones: when
    the first entry of [files_to_modify] names a file that is not a Java
    file and the second entry has no [file_path], the first file is
    written, the entries after the second are not looked at, and the
    applicator reports [applied = False]. *)
Theorem process_solution_keeps_earlier_writes
        (target_dir : str) (json_loads : str -> option (list (str * json)))
        (format_value : json -> str) (response : str)
        (solution first second : list (str * json)) (later : list json)
        (path code : str) (t : fs) :
  brace_before_brace response ->
  json_loads (between_braces response) = Some solution ->
  dict_get (lit "files_to_modify") solution
  = Some (JArr (JObj first :: JObj second :: later)) ->
  dict_get (lit "file_path") first = Some (JStr path) ->
  dict_get (lit "code") first = Some (JStr code) ->
  endswith (lit ".java") (target_dir ++ lit "/" ++ path) = false ->
  dict_get (lit "file_path") second = None ->
  process_solution target_dir json_loads format_value (Some response) t
  = (false, write_file (target_dir ++ lit "/" ++ path) code t).
Proof.
  intros B J F P C E K. unfold process_solution.
  rewrite (proj2 (braces_guard response) B), J.
  unfold apply_solution. rewrite F. cbn [iterate].
  rewrite !bind_run. unfold ret at 1. cbn [for_each].
  rewrite bind_run. unfold modify_file at 1.
  rewrite bind_run. unfold subscript at 1. rewrite P. unfold ret at 1.
  rewrite bind_run. unfold subscript at 1. rewrite C. unfold ret at 1.
  unfold path_in_target. rewrite E. unfold write_value.
  unfold TestRunner.write_file_content, modify.
  rewrite bind_run. unfold modify_file at 1.
  rewrite bind_run. unfold subscript at 1. rewrite K. unfold raise.
  reflexivity.
Qed.

Lemma process_solution_keeps_earlier_writes_witness :
  let solution :=
    [(lit "files_to_modify",
      JArr [JObj [(lit "file_path", JStr (lit "pom.xml"));
                  (lit "code", JStr (lit "<project/>"))];
            JObj [(lit "code", JStr (lit "class A {}"))];
            JObj [(lit "file_path", JStr (lit "README.md"));
                  (lit "code", JStr (lit "notes"))]])] in
  let decode (_ : str) : option (list (str * json)) := Some solution in
  brace_before_brace (lit "{}")
  /\ process_solution (lit "/t") decode (fun _ => []) (Some (lit "{}")) []
     = (false, [(lit "/t/pom.xml", lit "<project/>")]).
Proof.
  intros solution decode.
  assert (B : brace_before_brace (lit "{}"))
    by (exists [], [], []; reflexivity).
  split; [exact B|].
  apply (process_solution_keeps_earlier_writes
           (lit "/t") decode (fun _ => []) (lit "{}") solution
           [(lit "file_path", JStr (lit "pom.xml"));
            (lit "code", JStr (lit "<project/>"))]
           [(lit "code", JStr (lit "class A {}"))]
           [JObj [(lit "file_path", JStr (lit "README.md"));
                  (lit "code", JStr (lit "notes"))]]
           (lit "pom.xml") (lit "<project/>") []).
  - exact B.
  - reflexivity.
  - reflexivity.
  - reflexivity.
  - reflexivity.
  - reflexivity.
  - reflexivity.
Defined.

Lemma app_same_length {A} (a b x y : list A) :
  length a = length b -> a ++ x = b ++ y -> a = b.
Proof.
  revert b. induction a as [|c a IH]; intros [|d b] L E;
    try discriminate L; [reflexivity|].
  injection E as E1 E2. injection L as L. f_equal; [exact E1|].
  exact (IH b L E2).
Qed.

(** Replacing a text by another one of the same length changes every
    text in which it occurs. *)
Lemma replace_changes (old new s : str) :
  old <> [] -> length new = length old -> new <> old ->
  contains old s = true -> replace old new s <> s.
Proof.
  intros O L N. induction s as [|c s IH]; intros C.
  - destruct old; [contradiction | discriminate C].
  - destruct (startswith old (c :: s)) eqn:S.
    + apply startswith_iff in S. destruct S as [rest S]. rewrite S.
      rewrite replace_head by exact O. intros E.
      apply N. exact (app_same_length _ _ _ _ L E).
    + rewrite replace_cons_other by assumption.
      cbn [contains] in C. rewrite S in C. cbn [orb] in C.
      intros E. injection E as E. exact (IH C E).
Qed.

Lemma fix_package_state (file_path file_code : str) (t : fs) :
  snd (fix_package file_path file_code t) = t.
Proof.
  unfold fix_package.
  destruct (search package_pattern file_code) as [[i m]|]; [|reflexivity].
  rewrite bind_run.
  assert (P : snd (package_of_path file_path t) = t).
  { unfold package_of_path.
    destruct (index_of (lit "java") (split (lit "/") file_path));
      reflexivity. }
  destruct (contains (lit "/main/java/") file_path).
  - destruct (package_of_path file_path t) as [[e|x] t'];
      cbn [snd] in P; subst t'; [|reflexivity].
    destruct (str_eqb _ e); reflexivity.
  - destruct (contains (lit "/test/java/") file_path).
    + destruct (package_of_path file_path t) as [[e|x] t'];
        cbn [snd] in P; subst t'; [|reflexivity].
      destruct (str_eqb _ e); reflexivity.
    + unfold ret at 1. destruct (str_eqb _ _); reflexivity.
Qed.

(** X7.  A repair for a test file that lies under [main/java] is written
    at one place only, the path with [/main/java/] replaced by
    [/test/java/], if it is written at all: whatever the entry holds as
    its code, the loop body leaves the tree as it was (the entry is
    skipped or raises) or makes that one write.  For a path without a
    part [..], where two path texts that differ stand for two files, the
    file at the path the entry names is therefore left as it was. *)
Theorem modify_file_keeps_test_code_out_of_main
        (target_dir : str) (format_value : json -> str)
        (fields : list (str * json)) (path : str) (t : fs) :
  dict_get (lit "file_path") fields = Some (JStr path) ->
  endswith (lit ".java") (target_dir ++ lit "/" ++ path) = true ->
  contains (lit "/main/java/") (target_dir ++ lit "/" ++ path) = true ->
  contains (lit "Test")
    (without_ext (last_part (split (lit "/") (target_dir ++ lit "/" ++ path))))
  || startswith (lit "test")
       (without_ext
          (last_part (split (lit "/") (target_dir ++ lit "/" ++ path))))
  || endswith (lit "test")
       (without_ext
          (last_part (split (lit "/") (target_dir ++ lit "/" ++ path))))
  = true ->
  ~ In (lit "..") (split (lit "/") (target_dir ++ lit "/" ++ path)) ->
  (snd (modify_file target_dir format_value (JObj fields) t) = t
   \/ exists code,
        modify_file target_dir format_value (JObj fields) t
        = (Returned tt,
           write_file (replace (lit "/main/java/") (lit "/test/java/")
                               (target_dir ++ lit "/" ++ path))
                      code t))
  /\ read_file (target_dir ++ lit "/" ++ path)
               (snd (modify_file target_dir format_value (JObj fields) t))
     = read_file (target_dir ++ lit "/" ++ path) t.
Proof.
  intros P J Mn T Normal.
  assert (W : forall r,
             modify_file target_dir format_value (JObj fields) t = r ->
             snd r = t
             \/ exists code,
                  r = (Returned tt,
                       write_file (replace (lit "/main/java/")
                                           (lit "/test/java/")
                                           (target_dir ++ lit "/" ++ path))
                                  code t)).
  { intros r R. unfold modify_file in R.
    rewrite bind_run in R. unfold subscript at 1 in R. rewrite P in R.
    unfold ret at 1 in R.
    rewrite bind_run in R. unfold subscript at 1 in R.
    destruct (dict_get (lit "code") fields) as [code|];
      [|subst r; left; reflexivity].
    unfold ret at 1 in R. unfold path_in_target in R. rewrite J in R.
    destruct code as [| | |code| |]; try (subst r; left; reflexivity).
    destruct (existsb _ solution_indicators);
      [subst r; left; reflexivity|].
    rewrite bind_run in R.
    pose proof (fix_package_state (target_dir ++ lit "/" ++ path)
                  (fix_class_name
                     (without_ext
                        (last_part
                           (split (lit "/") (target_dir ++ lit "/" ++ path))))
                     code) t) as S.
    destruct (fix_package (target_dir ++ lit "/" ++ path) _ t)
      as [[fixed|e] t']; cbn [snd] in S; subst t';
      [|subst r; left; reflexivity].
    rewrite T, Mn in R. cbn [andb] in R.
    subst r. right. exists fixed. reflexivity. }
  specialize (W _ eq_refl).
  split; [exact W|].
  destruct W as [W|[code W]]; rewrite W; [reflexivity|].
  cbn [snd]. apply read_file_write_other.
  apply replace_changes; [discriminate | reflexivity | discriminate | exact Mn].
Qed.

Lemma modify_file_keeps_test_code_out_of_main_witness :
  let fields := [(lit "file_path",
                  JStr (lit "src/main/java/a/FooTest.java"));
                 (lit "code", JStr (lit "package a;
public class FooTest {}"))] in
  let t := [(lit "/t/src/main/java/a/FooTest.java", lit "old")] in
  ~ In (lit "..") (split (lit "/") (lit "/t/src/main/java/a/FooTest.java"))
  /\ modify_file (lit "/t") (fun _ => []) (JObj fields) t
     = (Returned tt, t ++ [(lit "/t/src/test/java/a/FooTest.java",
                            lit "package a;
public class FooTest {}")])
  /\ read_file (lit "/t/src/main/java/a/FooTest.java")
               (snd (modify_file (lit "/t") (fun _ => []) (JObj fields) t))
     = read_file (lit "/t/src/main/java/a/FooTest.java") t.
Proof.
  intros fields t.
  assert (Normal : ~ In (lit "..")
                     (split (lit "/")
                            (lit "/t/src/main/java/a/FooTest.java")))
    by (vm_compute; intuition discriminate).
  split; [exact Normal|]. split; [vm_compute; reflexivity|].
  apply (modify_file_keeps_test_code_out_of_main
           (lit "/t") (fun _ => []) fields
           (lit "src/main/java/a/FooTest.java") t).
  - reflexivity.
  - reflexivity.
  - reflexivity.
  - reflexivity.
  - exact Normal.
Defined.

(** ** The structural pre-pass *)

Lemma read_file_listed (p : str) (t : fs) :
  In p (map fst t) -> exists c, read_file p t = Some c.
Proof.
  induction t as [|[q c] t IH]; intros H; [contradiction|].
  cbn [read_file]. destruct (str_eqb q p) eqn:E.
  - exists c. reflexivity.
  - destruct H as [H|H].
    + cbn [fst] in H. subst q. rewrite str_eqb_refl in E. discriminate E.
    + exact (IH H).
Qed.

Lemma check_file_outside_trees (file_path content : str) (t : fs) :
  read_file file_path t = Some content ->
  contains (lit "/main/java/") file_path = false ->
  contains (lit "/test/java/") file_path = false ->
  check_file file_path t = (Returned tt, t).
Proof.
  intros R Mn Ts. unfold check_file.
  rewrite Mn, Ts, andb_false_r. cbn [orb].
  rewrite bind_run. unfold ret at 1.
  rewrite bind_run. unfold read_file_content. rewrite R.
  destruct (search package_pattern content) as [[i m]|]; reflexivity.
Qed.

(** X8.  The pre-pass changes files under [main/java] and [test/java]
    only: on a tree none of whose Java files lies under one of the two,
    it returns and leaves the tree as it was, whatever the files are
    called and whatever package they declare. *)
Theorem validate_file_structure_outside_trees (target_dir : str) (t : fs) :
  (forall p, In p (java_files target_dir t) ->
             contains (lit "/main/java/") p = false
             /\ contains (lit "/test/java/") p = false) ->
  validate_file_structure target_dir t = (Returned tt, t).
Proof.
  intros H. unfold validate_file_structure.
  rewrite bind_run. unfold gets.
  assert (L : forall p, In p (java_files target_dir t) -> In p (map fst t)).
  { intros p I. unfold java_files in I. apply filter_In in I. apply I. }
  revert H L. generalize (java_files target_dir t) as files.
  induction files as [|p files IH]; intros H L; [reflexivity|].
  cbn [for_each]. rewrite bind_run.
  destruct (read_file_listed p t (L p (or_introl eq_refl))) as [c R].
  destruct (H p (or_introl eq_refl)) as [Mn Ts].
  rewrite (check_file_outside_trees p c t R Mn Ts).
  apply IH.
  - intros q I. apply H. right. exact I.
  - intros q I. apply L. right. exact I.
Qed.

Lemma validate_file_structure_outside_trees_witness :
  let t := [(lit "/t/src/FooTest.java", lit "package b;");
            (lit "/t/pom.xml", lit "<project/>");
            (lit "/t/java/Bar.java", lit "package c;")] in
  validate_file_structure (lit "/t") t = (Returned tt, t).
Proof.
  intros t.
  apply (validate_file_structure_outside_trees (lit "/t") t).
  intros p I. vm_compute in I.
  destruct I as [I|[I|I]]; [subst p .. | contradiction];
    split; reflexivity.
Defined.

(** ** Truncation of the texts sent for a repair *)

Lemma upto_nonneg (m : Z) (s : str) :
  (0 <= m)%Z -> upto m s = firstn (Z.to_nat m) s.
Proof.
  intros H. unfold upto. destruct (Z.ltb_spec m 0); [lia | reflexivity].
Qed.

Lemma truncate_text_length (text : str) (m : Z) :
  (0 <= m)%Z ->
  (Z.of_nat (length (truncate_text text m))
   <= m + Z.of_nat (length output_note))%Z.
Proof.
  intros H. unfold truncate_text.
  destruct (Z.ltb_spec m (Z.of_nat (length text))) as [L|L].
  - rewrite upto_nonneg by exact H.
    rewrite length_app, length_firstn. lia.
  - lia.
Qed.

Lemma truncate_text_prefix (text : str) (m : Z) :
  (0 <= m)%Z ->
  firstn (Z.to_nat m) (truncate_text text m) = firstn (Z.to_nat m) text.
Proof.
  intros H. unfold truncate_text.
  destruct (Z.ltb_spec m (Z.of_nat (length text))) as [L|L];
    [|reflexivity].
  rewrite upto_nonneg by exact H.
  rewrite firstn_app, firstn_firstn, length_firstn.
  replace (Z.to_nat m - Nat.min (Z.to_nat m) (length text)) with 0 by lia.
  rewrite Nat.min_id. cbn [firstn]. apply app_nil_r.
Qed.

(** X9.  For a bound that is not negative, what [_truncate_text] returns
    is never longer than the bound plus the length of the note, and it
    agrees with the text on the characters up to the bound; a text within
    the bound is returned as it is. *)
Theorem truncate_text_bound (text : str) (max_length : Z) :
  (0 <= max_length)%Z ->
  (Z.of_nat (length (truncate_text text max_length))
   <= max_length + Z.of_nat (length output_note))%Z
  /\ firstn (Z.to_nat max_length) (truncate_text text max_length)
     = firstn (Z.to_nat max_length) text
  /\ ((Z.of_nat (length text) <= max_length)%Z ->
      truncate_text text max_length = text).
Proof.
  intros H. split; [exact (truncate_text_length text max_length H)|].
  split; [exact (truncate_text_prefix text max_length H)|].
  intros L. unfold truncate_text.
  destruct (Z.ltb_spec max_length (Z.of_nat (length text))); [lia|].
  reflexivity.
Qed.

Lemma truncate_text_bound_witness :
  (0 <= 3)%Z
  /\ truncate_text (lit "BUILD FAILURE") 3 = lit "BUI...
[Output truncated due to length]"
  /\ (Z.of_nat (length (truncate_text (lit "BUILD FAILURE") 3))
      <= 3 + Z.of_nat (length output_note))%Z.
Proof.
  split; [lia|]. split; [reflexivity|].
  apply (truncate_text_bound (lit "BUILD FAILURE") 3). lia.
Defined.

Lemma repair_prompt_length (test_output error_message : str) :
  length (repair_prompt test_output error_message)
  = length test_output + length error_message
    + length (repair_prompt [] []).
Proof.
  unfold repair_prompt. rewrite !length_app. cbn [length]. lia.
Qed.

(** X10.  The prompt [debug_and_fix_errors] builds from the truncated
    outputs is within the limit of [_preprocess_prompt], which therefore
    leaves it as it is: the repair prompt is always sent whole. *)
Theorem repair_prompt_is_sent_whole (test_output error_message : str) :
  _preprocess_prompt
    (repair_prompt (truncate_text test_output 10000)
                   (truncate_text error_message 10000))
  = repair_prompt (truncate_text test_output 10000)
                  (truncate_text error_message 10000).
Proof.
  unfold _preprocess_prompt.
  destruct (Z.ltb_spec (max_prompt_tokens * 4)
              (Z.of_nat (length
                 (repair_prompt (truncate_text test_output 10000)
                                (truncate_text error_message 10000)))))
    as [L|L]; [exfalso|reflexivity].
  rewrite repair_prompt_length in L.
  pose proof (truncate_text_length test_output 10000 ltac:(lia)) as A.
  pose proof (truncate_text_length error_message 10000 ltac:(lia)) as B.
  assert (N : Z.of_nat (length output_note) = 36%Z) by reflexivity.
  assert (K : (Z.of_nat (length (repair_prompt [] [])) < 1000)%Z)
    by (vm_compute; reflexivity).
  unfold max_prompt_tokens in L. lia.
Qed.

Lemma find_index_nth {A} (p : A -> bool) (xs : list A) (i : nat) :
  find_index p xs = Some i ->
  exists x, nth_error xs i = Some x /\ p x = true.
Proof.
  revert i. induction xs as [|y xs IH]; intros i H; [discriminate H|].
  cbn [find_index] in H. destruct (p y) eqn:P.
  - injection H as H. subst i. exists y. split; [reflexivity | exact P].
  - destruct (find_index p xs) as [j|]; [|discriminate H].
    injection H as H. subst i. exact (IH j eq_refl).
Qed.

Lemma contains_self (x : str) : contains x x = true.
Proof. apply contains_iff. exists [], []. rewrite app_nil_r. reflexivity. Qed.

Lemma contains_join (sep x : str) (parts : list str) :
  In x parts -> contains x (join sep parts) = true.
Proof.
  induction parts as [|p [|q rest] IH]; intros I.
  - contradiction.
  - destruct I as [I|[]]. subst p. apply contains_self.
  - change (join sep (p :: q :: rest))
      with (p ++ sep ++ join sep (q :: rest)).
    destruct I as [I|I].
    + subst p. apply contains_app_r, contains_self.
    + apply contains_app_l, contains_app_l. exact (IH I).
Qed.

(** X11.  A file that is too long and has a line with [class ],
    [interface ] or [enum ] keeps the first such line: the text
    [_truncate_java_file] returns contains it. *)
Theorem truncate_java_file_keeps_declaration
        (content : str) (max_length : Z) (class_decl_index : nat) :
  (max_length < Z.of_nat (length content))%Z ->
  find_index mentions_type (split newline content) = Some class_decl_index ->
  exists line,
    nth_error (split newline content) class_decl_index = Some line
    /\ mentions_type line = true
    /\ contains line (truncate_java_file content max_length) = true.
Proof.
  intros L F. destruct (find_index_nth _ _ _ F) as [line [N P]].
  exists line. split; [exact N|]. split; [exact P|].
  unfold truncate_java_file.
  destruct (Z.leb_spec (Z.of_nat (length content)) max_length); [lia|].
  rewrite F. set (lines := split newline content) in *.
  assert (Lt : class_decl_index < length lines)
    by (apply nth_error_Some; rewrite N; discriminate).
  apply contains_app_l, contains_app_l, contains_app_l, contains_app_r.
  apply contains_join.
  apply nth_error_In with (n := class_decl_index - (class_decl_index - 5)).
  rewrite nth_error_firstn.
  replace (class_decl_index - (class_decl_index - 5)
           <? Nat.min (length lines) (class_decl_index + 20)
              - (class_decl_index - 5))
    with true by (symmetry; apply Nat.ltb_lt; lia).
  rewrite nth_error_skipn.
  replace (class_decl_index - 5
           + (class_decl_index - (class_decl_index - 5)))
    with class_decl_index by lia.
  exact N.
Qed.

Lemma truncate_java_file_keeps_declaration_witness :
  let content := lit "package a;
import b.C;
@Entity
public class Member {
  private Long id;
}" in
  truncate_java_file content 20 = lit "package a;
import b.C;

package a;
import b.C;
@Entity
public class Member {
  private Long id;
}

// ... file truncated ..."
  /\ exists line,
       nth_error (split newline content) 3 = Some line
       /\ mentions_type line = true
       /\ contains line (truncate_java_file content 20) = true.
Proof.
  intros content. split; [vm_compute; reflexivity|].
  apply (truncate_java_file_keeps_declaration content 20 3).
  - vm_compute. reflexivity.
  - vm_compute. reflexivity.
Defined.

(** ** The repair step *)

(** X12.  When the service answers the request of a repair with a status
    other than 200, [debug_and_fix_errors] reports [False] after that one
    request and leaves the target tree as it was. *)
Theorem debug_and_fix_errors_without_answer
        (service : Type) (post : service -> list message -> response * service)
        (target_dir : str) (json_loads : str -> option (list (str * json)))
        (format_value : json -> str) (test_output error_message : str)
        (c : client service) (t : fs) :
  (forall messages, status_code (fst (post (remote c) messages)) <> 200) ->
  exists svc,
    debug_and_fix_errors post target_dir json_loads format_value
                         test_output error_message (c, t)
    = (Returned false, (Client svc (S (requests c)), t)).
Proof.
  intros H. unfold debug_and_fix_errors, query. cbn [fst snd].
  change (truthy repair_system_message) with true. cbv iota.
  set (prompt := _preprocess_prompt _).
  destruct (post (remote c)
                 (outgoing 0 prompt [Message System repair_system_message]))
    as [r svc] eqn:P.
  exists svc.
  rewrite (attempts_http_error service post 2 0 3 prompt
             [Message System repair_system_message] c r svc P).
  - reflexivity.
  - specialize (H (outgoing 0 prompt [Message System repair_system_message])).
    rewrite P in H. exact H.
Qed.

Lemma debug_and_fix_errors_without_answer_witness :
  exists svc,
    debug_and_fix_errors play (lit "/t") (fun _ => None) (fun _ => [])
                         (lit "BUILD FAILURE") []
                         (start [], [(lit "/t/pom.xml", lit "<project/>")])
    = (Returned false,
       (Client svc 1, [(lit "/t/pom.xml", lit "<project/>")])).
Proof.
  apply (debug_and_fix_errors_without_answer
           script play (lit "/t") (fun _ => None) (fun _ => [])
           (lit "BUILD FAILURE") [] (start [])
           [(lit "/t/pom.xml", lit "<project/>")]).
  intros messages. cbn. lia.
Defined.

(** ** The migrators without a validator *)

(** X13.  The service migrator writes what the gateway returned as it
    is, at the path of the resolved package.  When the gateway returned
    nothing, [write(None)] raises after the file was opened, the handler
    does the same at the fallback path and its [TypeError] goes to the
    caller: two empty files are left. *)
Theorem migrate_service_outcome
        (service : Type) (post : service -> list message -> response * service)
        (preprocess_prompt : str -> str)
        (target_dir service_file service_content : str) (w : world service)
        (answer : option str) (c : client service) :
  query post preprocess_prompt (service_prompt service_content)
        (Some service_system_message) 3 (gateway w)
  = (Returned answer, c) ->
  let target_path :=
    target_dir ++ lit "/src/main/java/"
    ++ as_dirs (get_safe_package_path service_file service_content
                                      default_service_package)
    ++ lit "/" ++ name_of service_file in
  let fallback_path :=
    target_dir
    ++ lit "/src/main/java/org/jboss.as.quickstarts/kitchensink/service/"
    ++ name_of service_file in
  migrate_service post preprocess_prompt target_dir service_file
                  service_content w
  = match answer with
    | Some text =>
        (Returned tt,
         World c (S (queries w)) (write_file target_path text (target w)))
    | None =>
        (Raised TypeError,
         World c (S (queries w))
               (write_file fallback_path []
                  (write_file target_path [] (target w))))
    end.
Proof.
  intros Q target_path fallback_path.
  unfold migrate_service. rewrite bind_run. unfold ai_query. rewrite Q.
  destruct answer as [text|]; [reflexivity|].
  unfold catch, write_answer. rewrite !bind_run.
  unfold Migrators.write_file_content, modify, raise.
  cbn [target gateway queries]. reflexivity.
Qed.

Lemma migrate_service_outcome_witness :
  query play as_is (service_prompt (lit "package a.service;
class S {}")) (Some service_system_message) 3 (start [Response 500 []])
  = (Returned None, Client [] 1)
  /\ migrate_service play as_is (lit "/t") (lit "/src/a/service/S.java")
                     (lit "package a.service;
class S {}") (fresh [Response 500 []] [])
     = (Raised TypeError,
        World (Client [] 1) 1
              [(lit "/t/src/main/java/a/service/S.java", []);
               (lit "/t/src/main/java/org/jboss.as.quickstarts/kitchensink/service/S.java",
                [])]).
Proof.
  assert (Q : query play as_is (service_prompt (lit "package a.service;
class S {}")) (Some service_system_message) 3 (start [Response 500 []])
              = (Returned None, Client [] 1))
    by (vm_compute; reflexivity).
  split; [exact Q|].
  exact (migrate_service_outcome script play as_is (lit "/t")
           (lit "/src/a/service/S.java") (lit "package a.service;
class S {}") (fresh [Response 500 []] []) None (Client [] 1) Q).
Defined.

(** X14.  The REST migrator behaves in the same way, with its own prompt,
    default package and fallback path. *)
Theorem migrate_rest_endpoint_outcome
        (service : Type) (post : service -> list message -> response * service)
        (preprocess_prompt : str -> str)
        (target_dir rest_file rest_content : str) (w : world service)
        (answer : option str) (c : client service) :
  query post preprocess_prompt (rest_prompt rest_content)
        (Some rest_system_message) 3 (gateway w)
  = (Returned answer, c) ->
  let target_path :=
    target_dir ++ lit "/src/main/java/"
    ++ as_dirs (get_safe_package_path rest_file rest_content
                                      default_rest_package)
    ++ lit "/" ++ name_of rest_file in
  let fallback_path :=
    target_dir
    ++ lit "/src/main/java/org/jboss.as.quickstarts/kitchensink/rest/"
    ++ name_of rest_file in
  migrate_rest_endpoint post preprocess_prompt target_dir rest_file
                        rest_content w
  = match answer with
    | Some text =>
        (Returned tt,
         World c (S (queries w)) (write_file target_path text (target w)))
    | None =>
        (Raised TypeError,
         World c (S (queries w))
               (write_file fallback_path []
                  (write_file target_path [] (target w))))
    end.
Proof.
  intros Q target_path fallback_path.
  unfold migrate_rest_endpoint. rewrite bind_run. unfold ai_query. rewrite Q.
  destruct answer as [text|]; [reflexivity|].
  unfold catch, write_answer. rewrite !bind_run.
  unfold Migrators.write_file_content, modify, raise.
  cbn [target gateway queries]. reflexivity.
Qed.

Lemma migrate_rest_endpoint_outcome_witness :
  query play as_is (rest_prompt (lit "class R {}"))
        (Some rest_system_message) 3
        (start [Response 200 (lit "I cannot provide this.");
                Response 200 (lit "public class R {}")])
  = (Returned (Some (lit "public class R {}")), Client [] 2)
  /\ migrate_rest_endpoint play as_is (lit "/t") (lit "/src/rest/R.java")
                           (lit "class R {}")
                           (fresh [Response 200 (lit "I cannot provide this.");
                                   Response 200 (lit "public class R {}")] [])
     = (Returned tt,
        World (Client [] 2) 1
              [(lit "/t/src/main/java/org/jboss/as/quickstarts/kitchensink/rest/R.java",
                lit "public class R {}")]).
Proof.
  assert (Q : query play as_is (rest_prompt (lit "class R {}"))
                    (Some rest_system_message) 3
                    (start [Response 200 (lit "I cannot provide this.");
                            Response 200 (lit "public class R {}")])
              = (Returned (Some (lit "public class R {}")), Client [] 2))
    by (vm_compute; reflexivity).
  split; [exact Q|].
  exact (migrate_rest_endpoint_outcome script play as_is (lit "/t")
           (lit "/src/rest/R.java") (lit "class R {}")
           (fresh [Response 200 (lit "I cannot provide this.");
                   Response 200 (lit "public class R {}")] [])
           (Some (lit "public class R {}")) (Client [] 2) Q).
Defined.

(** X15.  [add_validation_to_entity] replaces the migrated entity by
    whatever the gateway returned, without validating it, and raises
    nothing.  When the gateway returned nothing, the file was opened for
    writing before [write(None)] raised, and the exception is caught: the
    migrated entity is left empty. *)
Theorem add_validation_to_entity_outcome
        (service : Type) (post : service -> list message -> response * service)
        (preprocess_prompt : str -> str)
        (target_dir entity_file entity_content migrated : str)
        (w : world service) (answer : option str) (c : client service) :
  let target_path :=
    target_dir ++ lit "/src/main/java/"
    ++ as_dirs (get_safe_package_path entity_file entity_content
                                      default_model_package)
    ++ lit "/" ++ name_of entity_file in
  read_file target_path (target w) = Some migrated ->
  query post preprocess_prompt (validation_prompt migrated)
        (Some validation_system_message) 3 (gateway w)
  = (Returned answer, c) ->
  add_validation_to_entity post preprocess_prompt target_dir entity_file
                           entity_content w
  = (Returned tt,
     World c (S (queries w))
           (write_file target_path
              (match answer with Some text => text | None => [] end)
              (target w))).
Proof.
  intros target_path R Q. unfold add_validation_to_entity, catch.
  rewrite bind_run. unfold exists_file at 1, gets.
  fold target_path. rewrite R.
  rewrite bind_run. unfold ret at 1.
  rewrite bind_run. unfold read_target. rewrite R.
  rewrite bind_run. unfold ai_query. rewrite Q.
  destruct answer as [text|]; reflexivity.
Qed.

Lemma add_validation_to_entity_outcome_witness :
  let w := fresh [Response 500 []]
                 [(lit "/t/src/main/java/a/model/Member.java",
                   lit "public class Member {}")] in
  read_file (lit "/t/src/main/java/a/model/Member.java") (target w)
  = Some (lit "public class Member {}")
  /\ add_validation_to_entity play as_is (lit "/t")
                              (lit "/src/a/model/Member.java")
                              (lit "package a.model;") w
     = (Returned tt,
        World (Client [] 1) 1
              [(lit "/t/src/main/java/a/model/Member.java", [])]).
Proof.
  intros w. split; [reflexivity|].
  apply (add_validation_to_entity_outcome script play as_is (lit "/t")
           (lit "/src/a/model/Member.java") (lit "package a.model;")
           (lit "public class Member {}") w None (Client [] 1)).
  - reflexivity.
  - vm_compute. reflexivity.
Defined.

(** ** The migrations of entities and repositories: what is written *)

Section MigrateOutcome.

Variable service : Type.
Variable post : service -> list message -> response * service.
Variable preprocess_prompt : str -> str.

Lemma ai_query_requests (prompt system_message : str) (w : world service) :
  requests (gateway (snd (ai_query post preprocess_prompt prompt
                                   system_message w)))
  <= requests (gateway w) + 3.
Proof.
  unfold ai_query, query.
  match goal with
  | |- context [attempts post 3 0 3 ?p ?ms (gateway w)] =>
      destruct (attempts_requests service post 3 0 3 p ms (gateway w))
        as [r [c [E [U L]]]]; rewrite E
  end.
  cbn [snd gateway]. exact U.
Qed.

Lemma retries_provenance (validate : str -> str -> option str)
      (strict_prompt system_message file_name : str) (left : nat) :
  forall (migrated r : option str) (w w' : world service),
    retries post preprocess_prompt validate strict_prompt system_message
            file_name left migrated w = (Returned r, w') ->
    target w' = target w
    /\ (r = migrated \/ exists answer, validate file_name answer = r).
Proof.
  induction left as [|left IH]; intros migrated r w w' H; cbn [retries] in H.
  - destruct migrated; injection H as H1 H2; subst; auto.
  - destruct migrated as [text|]; [injection H as H1 H2; subst; auto|].
    cbv zeta in H. rewrite ask_then in H.
    pose proof (ai_query_counts service post preprocess_prompt strict_prompt
                  system_message w) as [_ T].
    destruct (ai_query post preprocess_prompt strict_prompt system_message w)
      as [[[text|]|e] w1]; cbn [snd] in T; try discriminate H.
    destruct (IH _ _ _ _ H) as [T' [E|[answer E]]].
    + split; [congruence|]. right. exists text. congruence.
    + split; [congruence|]. right. exists answer. exact E.
Qed.

Lemma retries_requests (validate : str -> str -> option str)
      (strict_prompt system_message file_name : str) (left : nat) :
  forall (migrated : option str) (w : world service),
    requests (gateway (snd (retries post preprocess_prompt validate
                                    strict_prompt system_message file_name
                                    left migrated w)))
    <= requests (gateway w) + 3 * left.
Proof.
  induction left as [|left IH]; intros migrated w; cbn [retries].
  - destruct migrated; cbn; lia.
  - destruct migrated as [text|]; [cbn; lia|].
    cbv zeta. rewrite ask_then.
    pose proof (ai_query_requests strict_prompt system_message w) as Q.
    destruct (ai_query post preprocess_prompt strict_prompt system_message w)
      as [[[text|]|e] w1]; cbn [snd] in Q |- *; try lia.
    specialize (IH (validate file_name text) w1). lia.
Qed.

Lemma migration_provenance
      (validate : str -> str -> option str)
      (prompt strict_prompt system_message file_name stub path : str)
      (w w' : world service) :
  (answer <- ai_query post preprocess_prompt prompt system_message ;;
   migrated <- validated validate file_name answer ;;
   migrated <- retries post preprocess_prompt validate strict_prompt
                       system_message file_name max_retries migrated ;;
   Migrators.write_file_content path
     (match migrated with Some text => text | None => stub end))%monad w
  = (Returned tt, w') ->
  exists text,
    target w' = write_file path text (target w)
    /\ (text = stub \/ exists answer, validate file_name answer = Some text).
Proof.
  intros H. rewrite ask_then in H.
  pose proof (ai_query_counts service post preprocess_prompt prompt system_message w)
    as [_ T].
  destruct (ai_query post preprocess_prompt prompt system_message w)
    as [[[first|]|e] w1]; cbn [snd] in T; try discriminate H.
  rewrite bind_run in H.
  destruct (retries post preprocess_prompt validate strict_prompt
                    system_message file_name max_retries
                    (validate file_name first) w1)
    as [[r|e] w2] eqn:R; [|discriminate H].
  destruct (retries_provenance _ _ _ _ _ _ _ _ _ R) as [T2 P].
  unfold Migrators.write_file_content, modify in H. injection H as H. subst w'.
  cbn [target]. rewrite T2, T.
  destruct r as [text|].
  - exists text. split; [reflexivity|]. right.
    destruct P as [P|[answer P]]; [exists first | exists answer];
      congruence.
  - exists stub. split; [reflexivity|]. left. reflexivity.
Qed.

Lemma migration_requests
      (validate : str -> str -> option str)
      (prompt strict_prompt system_message file_name stub path : str)
      (w : world service) :
  requests (gateway (snd
    ((answer <- ai_query post preprocess_prompt prompt system_message ;;
      migrated <- validated validate file_name answer ;;
      migrated <- retries post preprocess_prompt validate strict_prompt
                          system_message file_name max_retries migrated ;;
      Migrators.write_file_content path
        (match migrated with Some text => text | None => stub end))%monad
       w)))
  <= requests (gateway w) + 12.
Proof.
  rewrite ask_then.
  pose proof (ai_query_requests prompt system_message w) as Q.
  destruct (ai_query post preprocess_prompt prompt system_message w)
    as [[[first|]|e] w1]; cbn [snd] in Q |- *; try lia.
  rewrite bind_run.
  pose proof (retries_requests validate strict_prompt system_message
                file_name max_retries (validate file_name first) w1) as R.
  destruct (retries post preprocess_prompt validate strict_prompt
                    system_message file_name max_retries
                    (validate file_name first) w1)
    as [[r|e] w2]; cbn [snd] in R |- *; unfold max_retries in R;
    [|lia].
  unfold Migrators.write_file_content, modify. cbn [snd gateway]. lia.
Qed.

End MigrateOutcome.

(** X16.  A migration of an entity or of a repository that returns has
    written exactly one file, named as the source file, and its content
    is either a text the validator returned for an answer of the gateway
    or the stub: nothing the validator rejected is written. *)
Theorem migrations_write_validated_text_or_stub
        (service : Type) (post : service -> list message -> response * service)
        (preprocess_prompt : str -> str)
        (target_dir file content : str) (w w' : world service) :
  (migrate_entity post preprocess_prompt target_dir file content w
   = (Returned tt, w') ->
   exists path text,
     target w' = write_file path text (target w)
     /\ endswith (lit "/" ++ name_of file) path = true
     /\ (text = entity_fallback content (name_of file)
         \/ exists answer,
              validate_java_file (name_of file) answer = Some text))
  /\ (migrate_repository post preprocess_prompt target_dir file content w
      = (Returned tt, w') ->
      exists path text,
        target w' = write_file path text (target w)
        /\ endswith (lit "/" ++ name_of file) path = true
        /\ (text = repository_fallback content (name_of file)
            \/ exists answer,
                 validate_repository_file (name_of file) answer
                 = Some text)).
Proof.
  split; intros H.
  - unfold migrate_entity in H. cbv zeta in H.
    match type of H with
    | context [Migrators.write_file_content ?p _] => set (path := p) in *
    end.
    destruct (migration_provenance service post preprocess_prompt
                _ _ _ _ _ _ _ _ _ H) as [text [T P]].
    exists path, text. split; [exact T|]. split; [|exact P].
    unfold path.
    destruct (contains (lit "Test") (name_of file)
              || contains (lit "test") file);
      rewrite !app_assoc, <- (app_assoc _ (lit "/")); apply endswith_app.
  - unfold migrate_repository in H. cbv zeta in H.
    match type of H with
    | context [Migrators.write_file_content ?p _] => set (path := p) in *
    end.
    destruct (migration_provenance service post preprocess_prompt
                _ _ _ _ _ _ _ _ _ H) as [text [T P]].
    exists path, text. split; [exact T|]. split; [|exact P].
    unfold path.
    rewrite !app_assoc, <- (app_assoc _ (lit "/")); apply endswith_app.
Qed.

(** X17.  However the service answers and however the migration ends, a
    migration of an entity or of a repository sends at most twelve
    requests: four queries of at most three attempts each. *)
Theorem migrations_send_at_most_twelve_requests
        (service : Type) (post : service -> list message -> response * service)
        (preprocess_prompt : str -> str)
        (target_dir file content : str) (w : world service) :
  requests (gateway (snd (migrate_entity post preprocess_prompt target_dir
                                         file content w)))
  <= requests (gateway w) + 12
  /\ requests (gateway (snd (migrate_repository post preprocess_prompt
                                                target_dir file content w)))
     <= requests (gateway w) + 12.
Proof.
  split.
  - unfold migrate_entity. cbv zeta. apply migration_requests.
  - unfold migrate_repository. cbv zeta. apply migration_requests.
Qed.

Lemma migrations_write_validated_text_or_stub_witness :
  let source := lit "package a.model;
public class Member {}" in
  let answer := Response 200 (lit "package a.model;
public class Person {}") in
  let written := lit "package a.model;
public class Member {}" in
  let w' := World (Client [] 1) 1
                  [(lit "/t/src/main/java/a/model/Member.java", written)] in
  migrate_entity play as_is (lit "/t") (lit "/src/a/model/Member.java")
                 source (fresh [answer] [])
  = (Returned tt, w')
  /\ exists path text,
       target w' = write_file path text []
       /\ endswith (lit "/" ++ name_of (lit "/src/a/model/Member.java")) path
          = true
       /\ (text = entity_fallback source
                    (name_of (lit "/src/a/model/Member.java"))
           \/ exists answer,
                validate_java_file (name_of (lit "/src/a/model/Member.java"))
                                   answer = Some text).
Proof.
  intros source answer written w'.
  assert (R : migrate_entity play as_is (lit "/t")
                (lit "/src/a/model/Member.java") source (fresh [answer] [])
              = (Returned tt, w'))
    by (vm_compute; reflexivity).
  split; [exact R|].
  exact (proj1 (migrations_write_validated_text_or_stub
                  script play as_is (lit "/t")
                  (lit "/src/a/model/Member.java") source
                  (fresh [answer] []) w') R).
Defined.

(** ** The validators: the name after validation *)

(** What the entity validator returns for a content with one
    declaration declares the expected name, and nothing else. *)
Lemma validate_java_file_names (file_name content : str) (caps : captures) :
  wordy (without_ext file_name) ->
  is_explanation content = false ->
  findall class_pattern content = [caps] ->
  exists validated head,
    validate_java_file file_name content = Some validated
    /\ findall class_pattern validated
       = [[(2, without_ext file_name); (1, head)]].
Proof.
  intros W X F.
  pose proof (single_declaration class_kinds class_pattern
                (fun h name => [(2, name); (1, h)]) class_match_at
                content caps F)
    as [pre [w1 [kw [w2 [name [post [E [C [B1 [K [B2 [Wn [R [U Fp]]]]]]]]]]]]]].
  assert (S : search class_pattern content <> None).
  { rewrite E.
    apply (findall_renamed class_kinds class_kinds_found class_kinds_plain
             class_pattern _ class_match_at pre w1 kw w2 name post
             w1 kw w2 name); assumption. }
  set (expected := without_ext file_name) in *.
  destruct (str_eqb name expected) eqn:N.
  - exists content, (head_text w1 kw). split.
    + unfold validate_java_file. rewrite X.
      destruct (search class_pattern content); [|contradiction].
      rewrite F. cbn [fold_left]. unfold rename_class.
      rewrite C. cbn [group List.find fst Nat.eqb]. fold expected.
      rewrite N. rewrite (trim_duplicates_single _ _ F). reflexivity.
    + apply str_eqb_eq in N. rewrite F, C, N. reflexivity.
  - set (renamed := pre ++ head_text w1 kw ++ lit " " ++ expected ++ post).
    pose proof (findall_renamed class_kinds class_kinds_found
                  class_kinds_plain class_pattern _ class_match_at
                  pre w1 kw w2 name post w1 kw (lit " ") expected
                  U Fp R B1 K blank_space W) as [F' S'].
    fold renamed in F', S'.
    exists renamed, (head_text w1 kw). split; [|exact F'].
    unfold validate_java_file. rewrite X.
    destruct (search class_pattern content); [|contradiction].
    rewrite F. cbn [fold_left]. fold expected.
    replace (rename_class expected content caps) with renamed.
    + rewrite (trim_duplicates_single _ _ F'). reflexivity.
    + unfold rename_class. rewrite C.
      cbn [group List.find fst Nat.eqb]. rewrite N. rewrite E.
      rewrite (sub_renaming class_kinds class_kinds_found class_kinds_plain
                 class_pattern _ class_match_at class_rename_pattern
                 (fun h => [(1, h)]) class_rename_match_at
                 pre w1 kw w2 name post _ U Fp B1 K B2 Wn).
      cbn [group List.find fst Nat.eqb]. unfold renamed.
      rewrite <- !app_assoc. reflexivity.
Qed.

Lemma validate_repository_file_names
      (file_name content : str) (caps : captures) :
  wordy (without_ext file_name) ->
  is_explanation content = false ->
  findall interface_pattern content = [caps] ->
  search extend_pattern (rename_interfaces (without_ext file_name) content)
  = None ->
  exists validated,
    validate_repository_file file_name content = Some validated
    /\ findall interface_pattern validated = [[(1, without_ext file_name)]].
Proof.
  intros W X F Ex.
  pose proof (single_declaration [lit "interface"] interface_pattern
                (fun _ name => [(1, name)]) interface_match_at
                content caps F)
    as [pre [w1 [kw [w2 [name [post [E [C [B1 [K [B2 [Wn [R [U Fp]]]]]]]]]]]]]].
  assert (S : search interface_pattern content <> None).
  { rewrite E.
    apply (findall_renamed [lit "interface"] interface_found interface_plain
             interface_pattern _ interface_match_at pre w1 kw w2 name post
             w1 kw w2 name); assumption. }
  set (expected := without_ext file_name) in *.
  assert (Rn1 : rename_interfaces expected content
                = rename_interface expected content name).
  { unfold rename_interfaces. rewrite F, C. reflexivity. }
  destruct (str_eqb name expected) eqn:N.
  - assert (Rn : rename_interfaces expected content = content).
    { rewrite Rn1. unfold rename_interface. rewrite N. reflexivity. }
    exists content. split.
    + unfold validate_repository_file. rewrite X.
      destruct (search interface_pattern content); [|contradiction].
      fold expected. rewrite Rn. unfold advise_on_extends.
      rewrite Rn in Ex. rewrite Ex. reflexivity.
    + apply str_eqb_eq in N. rewrite F, C, N. reflexivity.
  - assert (Ki : In (lit "interface") [lit "interface"]) by (left; reflexivity).
    set (renamed := pre ++ head_text (lit " ") (lit "interface") ++ lit " "
                        ++ expected ++ post).
    pose proof (findall_renamed [lit "interface"] interface_found
                  interface_plain interface_pattern _ interface_match_at
                  pre w1 kw w2 name post (lit " ") (lit "interface") (lit " ")
                  expected U Fp R blank_space Ki blank_space W) as [F' S'].
    fold renamed in F', S'.
    assert (Rn : rename_interfaces expected content = renamed).
    { rewrite Rn1. unfold rename_interface. rewrite N, E.
      rewrite (sub_renaming [lit "interface"] interface_found interface_plain
                 interface_pattern _ interface_match_at
                 interface_rename_pattern (fun _ => [])
                 interface_rename_match_at
                 pre w1 kw w2 name post _ U Fp B1 K B2 Wn).
      unfold renamed. reflexivity. }
    rewrite Rn in Ex.
    exists renamed. split; [|exact F'].
    unfold validate_repository_file. rewrite X.
    destruct (search interface_pattern content); [|contradiction].
    fold expected. rewrite Rn. unfold advise_on_extends. rewrite Ex.
    reflexivity.
Qed.

(** X18.  Name correction does what it is for.  For a file whose base
    name is a name and a content with exactly one declaration, the text a
    validator returns has exactly one declaration again, and the name it
    declares is the base name of the file: for the entity validator, and
    for the repository validator when the corrected content has no
    [extends] clause. *)
Theorem validators_correct_the_declared_name
        (file_name content validated : str) :
  wordy (without_ext file_name) ->
  (length (findall class_pattern content) = 1 ->
   validate_java_file file_name content = Some validated ->
   map (group 2) (findall class_pattern validated)
   = [without_ext file_name])
  /\ (length (findall interface_pattern content) = 1 ->
      search extend_pattern
             (rename_interfaces (without_ext file_name) content) = None ->
      validate_repository_file file_name content = Some validated ->
      map (group 1) (findall interface_pattern validated)
      = [without_ext file_name]).
Proof.
  intros W. split.
  - intros L V. apply length_one in L. destruct L as [caps F].
    destruct (validate_java_file_names file_name content caps W
                (validate_java_file_some _ _ _ V) F) as [v [h [V1 F1]]].
    rewrite V in V1. injection V1 as V1. subst v. rewrite F1. reflexivity.
  - intros L Ex V. apply length_one in L. destruct L as [caps F].
    destruct (validate_repository_file_names file_name content caps W
                (validate_repository_file_some _ _ _ V) F Ex)
      as [v [V1 F1]].
    rewrite V in V1. injection V1 as V1. subst v. rewrite F1. reflexivity.
Qed.

Lemma validators_correct_the_declared_name_witness :
  let entity := lit "package org.acme.model;

@Entity
public   class Customer {
    private Long id;
}
" in
  let entity' := lit "package org.acme.model;

@Entity
public   class Member {
    private Long id;
}
" in
  validate_java_file (lit "Member.java") entity = Some entity'
  /\ map (group 2) (findall class_pattern entity') = [lit "Member"].
Proof.
  intros entity entity'.
  assert (V : validate_java_file (lit "Member.java") entity = Some entity')
    by (vm_compute; reflexivity).
  split; [exact V|].
  apply (proj1 (validators_correct_the_declared_name
                  (lit "Member.java") entity entity'
                  ltac:(split; [discriminate | reflexivity]))).
  - vm_compute. reflexivity.
  - exact V.
Defined.

(** ** Shortening a prompt *)

Lemma signatures_go_bound (all : list str) (lines : list str) :
  forall acc : list str,
    (forall line, In line lines -> In line all) ->
    length acc < 15 ->
    Forall (fun sig => exists line,
                In line all /\ contains (lit "{") line = true
                /\ sig = strip line) acc ->
    length (signatures_go lines acc) <= 15
    /\ Forall (fun sig => exists line,
                   In line all /\ contains (lit "{") line = true
                   /\ sig = strip line) (signatures_go lines acc).
Proof.
  induction lines as [|line rest IH]; intros acc Sub L F; cbn [signatures_go].
  - split; [lia | exact F].
  - cbv zeta.
    set (acc' := if signature_from false line && contains (lit "{") line
                 then acc ++ [strip line] else acc).
    assert (L' : length acc' <= 15).
    { unfold acc'. destruct (_ && _); [rewrite length_app; cbn|]; lia. }
    assert (F' : Forall (fun sig => exists line,
                             In line all /\ contains (lit "{") line = true
                             /\ sig = strip line) acc').
    { unfold acc'.
      destruct (signature_from false line && contains (lit "{") line) eqn:C;
        [|exact F].
      apply Forall_app. split; [exact F|]. constructor; [|constructor].
      exists line. apply andb_prop in C.
      split; [apply Sub; left; reflexivity|]. split; [apply C | reflexivity]. }
    destruct (Nat.leb_spec 15 (length acc')) as [G|G].
    + split; [exact L' | exact F'].
    + apply IH; [|exact G | exact F'].
      intros l I. apply Sub. right. exact I.
Qed.

(** X19.  [_extract_method_signatures] returns at most 15 signatures, and
    each of them is a line of the code that contains an opening brace,
    stripped. *)
Theorem extract_method_signatures_bound (code : str) :
  length (extract_method_signatures code) <= 15
  /\ Forall (fun sig => exists line,
                 In line (split newline code)
                 /\ contains (lit "{") line = true
                 /\ sig = strip line)
            (extract_method_signatures code).
Proof.
  unfold extract_method_signatures.
  apply signatures_go_bound; [auto | cbn [length]; lia | constructor].
Qed.

(** X20.  A prompt without a [```java] block is never sent with more
    than the limit of 24000 characters plus the 37 characters of the
    note, and what is sent agrees with the prompt on the first 24000
    characters. *)
Theorem preprocess_prompt_without_code_block (prompt : str) :
  contains (lit "```java") prompt = false ->
  (Z.of_nat (length (_preprocess_prompt prompt))
   <= max_prompt_tokens * 4 + Z.of_nat (length truncation_note))%Z
  /\ firstn (Z.to_nat (max_prompt_tokens * 4)) (_preprocess_prompt prompt)
     = firstn (Z.to_nat (max_prompt_tokens * 4)) prompt.
Proof.
  intros C. unfold _preprocess_prompt. rewrite C.
  assert (P : (0 <= max_prompt_tokens * 4)%Z)
    by (unfold max_prompt_tokens; lia).
  destruct (Z.ltb_spec (max_prompt_tokens * 4) (Z.of_nat (length prompt)))
    as [L|L].
  - rewrite upto_nonneg by exact P. split.
    + rewrite length_app, length_firstn. lia.
    + rewrite firstn_app, firstn_firstn, length_firstn.
      replace (Z.to_nat (max_prompt_tokens * 4)
               - Nat.min (Z.to_nat (max_prompt_tokens * 4)) (length prompt))
        with 0 by lia.
      rewrite Nat.min_id. cbn [firstn]. apply app_nil_r.
  - split; [lia | reflexivity].
Qed.

Lemma preprocess_prompt_without_code_block_witness :
  contains (lit "```java") (lit "Fix the build.") = false
  /\ _preprocess_prompt (lit "Fix the build.") = lit "Fix the build."
  /\ (Z.of_nat (length (_preprocess_prompt (lit "Fix the build.")))
      <= max_prompt_tokens * 4 + Z.of_nat (length truncation_note))%Z.
Proof.
  split; [reflexivity|]. split; [reflexivity|].
  apply (preprocess_prompt_without_code_block (lit "Fix the build.")).
  reflexivity.
Defined.

(** ** Splitting and joining *)

Lemma split_go_skip (sep u s cur : str) :
  split_go sep (u ++ s) (length u) cur = split_go sep s 0 cur.
Proof.
  induction u as [|a u IH]; [reflexivity|]. cbn [app length split_go].
  exact IH.
Qed.

Lemma split_go_sep (sep s cur : str) :
  sep <> [] ->
  split_go sep (sep ++ s) 0 cur = rev cur :: split_go sep s 0 [].
Proof.
  intros N. destruct sep as [|c sep]; [contradiction|].
  change ((c :: sep) ++ s) with (c :: (sep ++ s)).
  cbn [split_go]. change (c :: sep ++ s) with ((c :: sep) ++ s).
  rewrite startswith_app.
  replace (length (c :: sep) - 1) with (length sep) by (cbn [length]; lia).
  rewrite split_go_skip. reflexivity.
Qed.

Lemma split_go_plain (c : ascii) (sep u s cur : str) :
  ~ In c u ->
  split_go (c :: sep) (u ++ s) 0 cur
  = split_go (c :: sep) s 0 (rev u ++ cur).
Proof.
  revert cur. induction u as [|a u IH]; intros cur N; [reflexivity|].
  cbn [app split_go startswith].
  destruct (chr_eqb c a) eqn:E.
  - apply chr_eqb_eq in E. subst a. exfalso. apply N. left. reflexivity.
  - cbn [andb]. rewrite IH by (intros I; apply N; right; exact I).
    cbn [rev]. rewrite <- app_assoc. reflexivity.
Qed.

Lemma split_two_parts (c : ascii) (sep a b rest : str) :
  ~ In c a -> ~ In c b ->
  split (c :: sep) (a ++ (c :: sep) ++ b ++ (c :: sep) ++ rest)
  = a :: b :: split (c :: sep) rest.
Proof.
  intros A B. unfold split.
  rewrite split_go_plain by exact A.
  rewrite split_go_sep by discriminate.
  rewrite app_nil_r, rev_involutive. f_equal.
  rewrite split_go_plain by exact B.
  rewrite split_go_sep by discriminate.
  rewrite app_nil_r, rev_involutive. reflexivity.
Qed.

Lemma split_go_not_nil (sep s : str) (skip : nat) (cur : str) :
  split_go sep s skip cur <> [].
Proof.
  revert skip cur. induction s as [|a s IH]; intros skip cur;
    cbn [split_go]; [discriminate|].
  destruct skip; [|apply IH].
  destruct (startswith sep (a :: s)); [discriminate | apply IH].
Qed.

(** Splitting at a character and joining with it gives the text back. *)
Lemma join_split_go (c : ascii) (s : str) :
  forall cur, join [c] (split_go [c] s 0 cur) = rev cur ++ s.
Proof.
  induction s as [|a s IH]; intros cur.
  - cbn [split_go join]. rewrite app_nil_r. reflexivity.
  - cbn [split_go startswith].
    destruct (chr_eqb c a) eqn:E.
    + apply chr_eqb_eq in E. subst a. cbn [andb length Nat.sub].
      pose proof (split_go_not_nil [c] s 0 []) as N.
      pose proof (IH []) as J.
      destruct (split_go [c] s 0 []) as [|p rest]; [contradiction|].
      change (join [c] (rev cur :: p :: rest))
        with (rev cur ++ [c] ++ join [c] (p :: rest)).
      rewrite J. reflexivity.
    + cbn [andb]. rewrite IH. cbn [rev]. rewrite <- app_assoc. reflexivity.
Qed.

Lemma join_split (c : ascii) (s : str) : join [c] (split [c] s) = s.
Proof. unfold split. apply join_split_go. Qed.

Lemma filter_all {A} (p : A -> bool) (l : list A) :
  forallb p l = true -> filter p l = l.
Proof.
  induction l as [|x l IH]; [reflexivity|]. cbn [forallb filter].
  intros H. apply andb_prop in H. destruct H as [H1 H2].
  rewrite H1, (IH H2). reflexivity.
Qed.

(** ** The gateway: fenced code *)

(** What the loop over the code blocks does with a block tagged
    [java]. *)
Lemma examine_java_block (body : str) :
  examine_block (lit "java" ++ newline ++ body)
  = let code :=
      join newline
           (filter (fun line => negb (is_commentary line))
                   (split newline (strip body))) in
    Some (match search declaration_pattern code with
          | Some _ => Some code
          | None => None
          end).
Proof.
  unfold examine_block.
  assert (T : truthy (strip (lit "java" ++ newline ++ body)) = true).
  { change (lit "java" ++ newline ++ body)
      with ("j"%char :: (lit "ava" ++ newline ++ body)).
    rewrite strip_headed by reflexivity. reflexivity. }
  assert (C : contains newline (lit "java" ++ newline ++ body) = true).
  { apply contains_iff. exists (lit "java"), body. reflexivity. }
  rewrite T, C. cbn [andb].
  assert (S : split newline (lit "java" ++ newline ++ body)
              = lit "java" :: split newline body).
  { unfold split, newline.
    change (lit "
") with [ascii_of_nat 10].
    rewrite split_go_plain
      by (cbn; intros [H|[H|[H|[H|[]]]]]; discriminate H).
    rewrite (split_go_sep [ascii_of_nat 10]) by discriminate.
    reflexivity. }
  rewrite S. cbn [hd].
  change (str_eqb (lower (strip (lit "java"))) (lit "java")) with true.
  cbv iota.
  change (Z.to_nat (find newline (lit "java" ++ newline ++ body)) + 1)
    with 5.
  change (skipn 5 (lit "java" ++ newline ++ body)) with body.
  cbv zeta.
  destruct (search declaration_pattern _); reflexivity.
Qed.

Lemma first_block_examined (pre body post : str) :
  ~ In "`"%char pre -> ~ In "`"%char body ->
  first_examined
    (odd_elements
       (split fence (pre ++ fence ++ (lit "java" ++ newline ++ body)
                         ++ fence ++ post)))
  = examine_block (lit "java" ++ newline ++ body).
Proof.
  intros P B. unfold fence.
  change (lit "```") with ("`"%char :: lit "``").
  rewrite split_two_parts.
  - cbn [odd_elements first_examined].
    rewrite examine_java_block. reflexivity.
  - exact P.
  - cbn. intros [H|[H|[H|[H|[H|H]]]]]; try discriminate H.
    exact (B H).
Qed.

(** X21.  The first fenced block decides.  For a reply that has no
    backquote before its first fence, whose first block is tagged [java]
    and has no backquote in it, and that does not start with an
    explanatory phrase, [_extract_code_if_present] returns the lines of
    the stripped block that do not start with an explanatory phrase,
    joined again, when they hold a declaration, and nothing otherwise:
    what comes after the block, further blocks included, plays no
    part. *)
Theorem first_java_block_decides (pre body post : str) :
  ~ In "`"%char pre -> ~ In "`"%char body ->
  is_explanation (pre ++ fence ++ lit "java" ++ newline ++ body
                      ++ fence ++ post) = false ->
  extract_code_if_present
    (pre ++ fence ++ lit "java" ++ newline ++ body ++ fence ++ post)
  = let code :=
      join newline
           (filter (fun line => negb (is_commentary line))
                   (split newline (strip body))) in
    match search declaration_pattern code with
    | Some _ => Some code
    | None => None
    end.
Proof.
  intros P B X. unfold extract_code_if_present. rewrite X.
  assert (C : contains fence (pre ++ fence ++ lit "java" ++ newline ++ body
                                  ++ fence ++ post) = true).
  { apply contains_iff. exists pre. eexists. reflexivity. }
  rewrite C.
  replace (pre ++ fence ++ lit "java" ++ newline ++ body ++ fence ++ post)
    with (pre ++ fence ++ (lit "java" ++ newline ++ body) ++ fence ++ post)
    by (rewrite <- !app_assoc; reflexivity).
  rewrite (first_block_examined pre body post P B).
  rewrite examine_java_block. reflexivity.
Qed.

Lemma first_java_block_decides_witness :
  let reply := lit "Sure:
```java
This is a class for members.
public class Member {}
```
I cannot provide more. ```java
public class Other {}
```" in
  extract_code_if_present reply = Some (lit "public class Member {}").
Proof.
  intros reply.
  exact (first_java_block_decides
           (lit "Sure:
")
           (lit "This is a class for members.
public class Member {}
")
           (lit "
I cannot provide more. ```java
public class Other {}
```")
           ltac:(vm_compute; intuition discriminate)
           ltac:(vm_compute; intuition discriminate)
           ltac:(vm_compute; reflexivity)).
Defined.

(** X22.  For a reply that does not start with an explanatory phrase
    and has no backquote before its first fence, a first block tagged
    [java] that has no backquote in it, none of whose lines starts with
    an explanatory phrase and that holds a declaration comes back as it
    is, stripped: splitting it into lines and joining them again changes
    nothing. *)
Theorem java_block_is_returned_stripped (pre body post : str) :
  ~ In "`"%char pre -> ~ In "`"%char body ->
  is_explanation (pre ++ fence ++ lit "java" ++ newline ++ body
                      ++ fence ++ post) = false ->
  forallb (fun line => negb (is_commentary line))
          (split newline (strip body)) = true ->
  search declaration_pattern (strip body) <> None ->
  extract_code_if_present
    (pre ++ fence ++ lit "java" ++ newline ++ body ++ fence ++ post)
  = Some (strip body).
Proof.
  intros P B X L D. unfold extract_code_if_present. rewrite X.
  assert (C : contains fence (pre ++ fence ++ lit "java" ++ newline ++ body
                                  ++ fence ++ post) = true).
  { apply contains_iff. exists pre. eexists. reflexivity. }
  rewrite C.
  replace (pre ++ fence ++ lit "java" ++ newline ++ body ++ fence ++ post)
    with (pre ++ fence ++ (lit "java" ++ newline ++ body) ++ fence ++ post)
    by (rewrite <- !app_assoc; reflexivity).
  rewrite (first_block_examined pre body post P B).
  rewrite examine_java_block. cbv zeta.
  rewrite (filter_all _ _ L).
  change newline with [ascii_of_nat 10]. rewrite join_split.
  destruct (search declaration_pattern (strip body)); [reflexivity|].
  contradiction.
Qed.

Lemma java_block_is_returned_stripped_witness :
  extract_code_if_present (lit "```java
package a;

public class Member {
}
```")
  = Some (lit "package a;

public class Member {
}").
Proof.
  exact (java_block_is_returned_stripped
           [] (lit "package a;

public class Member {
}
") []
           ltac:(vm_compute; intuition discriminate)
           ltac:(vm_compute; intuition discriminate)
           ltac:(vm_compute; reflexivity)
           ltac:(vm_compute; reflexivity)
           ltac:(vm_compute; discriminate)).
Defined.

Lemma find_from_plain (c : ascii) (u s : str) (i : Z) :
  ~ In c u ->
  find_from [c] (u ++ c :: s) i = (i + Z.of_nat (length u))%Z.
Proof.
  revert i. induction u as [|a u IH]; intros i N.
  - cbn [app find_from startswith]. rewrite chr_eqb_refl. cbn. lia.
  - cbn [app find_from startswith].
    destruct (chr_eqb c a) eqn:E.
    + apply chr_eqb_eq in E. subst a. exfalso. apply N. left. reflexivity.
    + cbn [andb]. rewrite IH by (intros I; apply N; right; exact I).
      cbn [length]. lia.
Qed.

(** What the loop over the code blocks does with a block whose tag is
    not [java]: the text after the first line is returned, stripped,
    whatever it is. *)
Lemma examine_other_block (tag body : str) :
  ~ In (ascii_of_nat 10) tag ->
  str_eqb (lower (strip tag)) (lit "java") = false ->
  strip (tag ++ newline ++ body) <> [] ->
  examine_block (tag ++ newline ++ body) = Some (Some (strip body)).
Proof.
  intros N J T. unfold examine_block.
  destruct (strip (tag ++ newline ++ body)) as [|c rest] eqn:S;
    [contradiction|]. cbn [truthy].
  assert (C : contains newline (tag ++ newline ++ body) = true).
  { apply contains_iff. exists tag, body. reflexivity. }
  rewrite C. cbn [andb].
  assert (Sp : split newline (tag ++ newline ++ body)
               = tag :: split newline body).
  { unfold split, newline.
    change (lit "
") with [ascii_of_nat 10].
    rewrite split_go_plain by exact N.
    rewrite (split_go_sep [ascii_of_nat 10]) by discriminate.
    rewrite app_nil_r, rev_involutive. reflexivity. }
  rewrite Sp. cbn [hd]. rewrite J.
  unfold find, newline.
  change (lit "
" ++ body) with (ascii_of_nat 10 :: body).
  change (lit "
") with [ascii_of_nat 10].
  rewrite find_from_plain by exact N.
  replace (Z.to_nat (0 + Z.of_nat (length tag)) + 1) with (length tag + 1)
    by lia.
  replace (skipn (length tag + 1) (tag ++ ascii_of_nat 10 :: body))
    with body; [reflexivity|].
  rewrite skipn_app, Nat.add_comm. cbn [Nat.add].
  rewrite skipn_all2 by lia.
  replace (Datatypes.S (length tag) - length tag) with 1 by lia.
  reflexivity.
Qed.

(** X23.  A first block whose tag is not [java] is not checked at all:
    for a reply that does not start with an explanatory phrase and has no
    backquote before its first fence, whatever follows the first line of
    the block is returned, stripped, be it code or not. *)
Theorem untagged_block_is_returned_unchecked (pre tag body post : str) :
  ~ In "`"%char pre -> ~ In "`"%char tag -> ~ In "`"%char body ->
  ~ In (ascii_of_nat 10) tag ->
  str_eqb (lower (strip tag)) (lit "java") = false ->
  strip (tag ++ newline ++ body) <> [] ->
  is_explanation (pre ++ fence ++ tag ++ newline ++ body ++ fence ++ post)
  = false ->
  extract_code_if_present
    (pre ++ fence ++ tag ++ newline ++ body ++ fence ++ post)
  = Some (strip body).
Proof.
  intros P Tg B N J T X. unfold extract_code_if_present. rewrite X.
  assert (C : contains fence (pre ++ fence ++ tag ++ newline ++ body
                                  ++ fence ++ post) = true).
  { apply contains_iff. exists pre. eexists. reflexivity. }
  rewrite C.
  replace (pre ++ fence ++ tag ++ newline ++ body ++ fence ++ post)
    with (pre ++ fence ++ (tag ++ newline ++ body) ++ fence ++ post)
    by (rewrite <- !app_assoc; reflexivity).
  unfold fence. change (lit "```") with ("`"%char :: lit "``").
  rewrite split_two_parts.
  - cbn [odd_elements first_examined].
    rewrite (examine_other_block tag body N J T). reflexivity.
  - exact P.
  - intros I. apply in_app_or in I. destruct I as [I|I]; [exact (Tg I)|].
    apply in_app_or in I. destruct I as [I|I]; [|exact (B I)].
    cbn in I. destruct I as [I|[]]. discriminate I.
Qed.

Lemma untagged_block_is_returned_unchecked_witness :
  extract_code_if_present (lit "```text
I cannot provide this file.
```")
  = Some (lit "I cannot provide this file.").
Proof.
  exact (untagged_block_is_returned_unchecked
           [] (lit "text") (lit "I cannot provide this file.
") []
           ltac:(vm_compute; intuition discriminate)
           ltac:(vm_compute; intuition discriminate)
           ltac:(vm_compute; intuition discriminate)
           ltac:(vm_compute; intuition discriminate)
           ltac:(vm_compute; reflexivity)
           ltac:(vm_compute; discriminate)
           ltac:(vm_compute; reflexivity)).
Defined.

(** ** The pre-pass and the gate *)

Lemma check_file_keeps_others (q p : str) (t t' : fs) :
  check_file q t = (Returned tt, t') -> q <> p ->
  read_file p t' = read_file p t.
Proof.
  intros H N.
  destruct (read_file q t) as [content|] eqn:R.
  - destruct ((contains (lit "Test") (last_part (split (lit "/") q))
               || startswith (lit "test") (last_part (split (lit "/") q))
               || endswith (lit "Test") (last_part (split (lit "/") q)))
              && contains (lit "/main/java/") q) eqn:Mv.
    + rewrite (check_file_relocates_and_raises q content t Mv R) in H.
      discriminate H.
    + unfold check_file in H. rewrite Mv in H.
      rewrite bind_run in H. unfold ret at 1 in H.
      rewrite bind_run in H. unfold read_file_content in H. rewrite R in H.
      destruct (search package_pattern content) as [[i m]|];
        [|injection H as H; subst t'; reflexivity].
      destruct (contains (lit "/main/java/") q
                || contains (lit "/test/java/") q);
        [|injection H as H; subst t'; reflexivity].
      rewrite bind_run in H. unfold package_of_path in H.
      destruct (index_of (lit "java") (split (lit "/") q));
        [|discriminate H].
      unfold ret at 1 in H.
      destruct (str_eqb _ _); [injection H as H; subst t'; reflexivity|].
      unfold TestRunner.write_file_content, modify in H.
      injection H as H. subst t'. apply read_file_write_other. exact N.
  - unfold check_file in H.
    destruct (_ && _).
    + rewrite bind_run in H. rewrite bind_run in H.
      unfold read_file_content at 1 in H. rewrite R in H. discriminate H.
    + rewrite bind_run in H. unfold ret at 1 in H.
      rewrite bind_run in H. unfold read_file_content in H. rewrite R in H.
      discriminate H.
Qed.

Lemma for_each_check_file_raises (p content : str) (files : list str) :
  (contains (lit "Test") (last_part (split (lit "/") p))
   || startswith (lit "test") (last_part (split (lit "/") p))
   || endswith (lit "Test") (last_part (split (lit "/") p)))
  && contains (lit "/main/java/") p = true ->
  In p files ->
  forall t, read_file p t = Some content ->
            exists e t', for_each check_file files t = (Raised e, t').
Proof.
  intros Mv. induction files as [|q files IH]; intros I t R; [contradiction|].
  cbn [for_each]. rewrite bind_run.
  destruct (str_eqb q p) eqn:E.
  - apply str_eqb_eq in E. subst q.
    rewrite (check_file_relocates_and_raises p content t Mv R).
    eexists _, _. reflexivity.
  - apply str_eqb_neq in E.
    destruct (check_file q t) as [[[]|e] t1] eqn:C.
    + apply IH.
      * destruct I as [I|I]; [contradiction | exact I].
      * rewrite (check_file_keeps_others q p t t1 C E). exact R.
    + eexists _, _. reflexivity.
Qed.

(** X24.  When a test file lies under [main/java] in the target tree,
    [run_tests_until_success] raises in its pre-pass, which removes the
    file it has copied and then reads it again: the tests are not run and
    no repair is attempted. *)
Theorem gate_raises_on_misplaced_test_file
        (run_tests : M fs (bool * str * str))
        (debug_and_fix_errors try_comprehensive_fix : str -> str -> M fs bool)
        (input : str -> M fs str) (max_attempts : nat)
        (target_dir p : str) (t : fs) :
  In p (java_files target_dir t) ->
  (contains (lit "Test") (last_part (split (lit "/") p))
   || startswith (lit "test") (last_part (split (lit "/") p))
   || endswith (lit "Test") (last_part (split (lit "/") p)))
  && contains (lit "/main/java/") p = true ->
  exists e t',
    run_tests_until_success (validate_file_structure target_dir) run_tests
                            debug_and_fix_errors try_comprehensive_fix input
                            max_attempts (t, [])
    = (Raised e, (t', [])).
Proof.
  intros I Mv.
  assert (L : In p (map fst t)).
  { unfold java_files in I. apply filter_In in I. apply I. }
  destruct (read_file_listed p t L) as [content R].
  destruct (for_each_check_file_raises p content (java_files target_dir t)
              Mv I t R) as [e [t' F]].
  exists e, t'. unfold run_tests_until_success. rewrite bind_run.
  unfold lift at 1. cbn [fst snd].
  unfold validate_file_structure. rewrite bind_run. unfold gets.
  rewrite F. reflexivity.
Qed.

Lemma gate_raises_on_misplaced_test_file_witness :
  let t := [(lit "/t/src/main/java/a/Member.java", lit "package a;");
            (lit "/t/src/main/java/a/MemberTest.java", lit "package a;")] in
  exists e t',
    run_tests_until_success (validate_file_structure (lit "/t"))
                            (ret (true, [], [])) (fun _ _ => ret true)
                            (fun _ _ => ret true) (fun _ => ret [])
                            5 (t, [])
    = (Raised e, (t', [])).
Proof.
  intros t.
  apply (gate_raises_on_misplaced_test_file
           (ret (true, [], [])) (fun _ _ => ret true) (fun _ _ => ret true)
           (fun _ => ret []) 5 (lit "/t")
           (lit "/t/src/main/java/a/MemberTest.java") t).
  - vm_compute. right. left. reflexivity.
  - vm_compute. reflexivity.
Defined.

(** ** The comprehensive repair *)

Lemma truncate_text_length_ge (text : str) (m : Z) :
  (0 <= m)%Z -> (m <= Z.of_nat (length text))%Z ->
  (m <= Z.of_nat (length (truncate_text text m)))%Z.
Proof.
  intros P L. unfold truncate_text.
  destruct (Z.ltb_spec m (Z.of_nat (length text))); [|exact L].
  rewrite upto_nonneg by exact P. rewrite length_app, length_firstn. lia.
Qed.

(** A text cut within its first part does not depend on the rest. *)
Lemma truncate_text_within (a b : str) (m : Z) :
  (0 <= m)%Z -> (m <= Z.of_nat (length a))%Z -> b <> [] ->
  truncate_text (a ++ b) m = firstn (Z.to_nat m) a ++ output_note.
Proof.
  intros P L N. unfold truncate_text.
  assert (B : 0 < length b) by (destruct b; [contradiction | cbn; lia]).
  destruct (Z.ltb_spec m (Z.of_nat (length (a ++ b)))) as [G|G];
    [|rewrite length_app in G; lia].
  rewrite upto_nonneg by exact P. rewrite firstn_app.
  replace (Z.to_nat m - length a) with 0 by lia.
  cbn [firstn]. rewrite app_nil_r. reflexivity.
Qed.

Lemma comprehensive_prompt_cut (stdout stderr files1 files2 : str) :
  (5000 <= Z.of_nat (length stdout))%Z ->
  (5000 <= Z.of_nat (length stderr))%Z ->
  truncate_text (comprehensive_prompt stdout stderr files1) 10000
  = truncate_text (comprehensive_prompt stdout stderr files2) 10000.
Proof.
  intros O E. unfold comprehensive_prompt.
  pose proof (truncate_text_length_ge stdout 5000 ltac:(lia) O) as A.
  pose proof (truncate_text_length_ge stderr 5000 ltac:(lia) E) as B.
  set (ts := truncate_text stdout 5000) in *.
  set (te := truncate_text stderr 5000) in *.
  match goal with
  | |- truncate_text (?p1 ++ ts ++ ?p2 ++ te ++ ?p3 ++ files1 ++ ?p4) _ = _ =>
      replace (p1 ++ ts ++ p2 ++ te ++ p3 ++ files1 ++ p4)
        with ((p1 ++ ts ++ p2 ++ te) ++ (p3 ++ files1 ++ p4))
        by (rewrite <- !app_assoc; reflexivity);
      replace (p1 ++ ts ++ p2 ++ te ++ p3 ++ files2 ++ p4)
        with ((p1 ++ ts ++ p2 ++ te) ++ (p3 ++ files2 ++ p4))
        by (rewrite <- !app_assoc; reflexivity);
      assert (L : (10000 <= Z.of_nat (length (p1 ++ ts ++ p2 ++ te)))%Z)
        by (rewrite !length_app; lia)
  end.
  rewrite !truncate_text_within; try (exact L); try lia;
    try reflexivity; discriminate.
Qed.

(** X25.  When the test output and the error output both have 5000
    characters or more, nothing of the project files reaches the
    gateway: [_try_comprehensive_fix] hands its prompt to
    [debug_and_fix_errors] as the test output, which cuts it to 10000
    characters, and the file contents come after that point.  The run is
    the same whatever [json.dumps] gives for the files. *)
Theorem try_comprehensive_fix_drops_the_files
        (service : Type) (post : service -> list message -> response * service)
        (target_dir : str) (json_loads : str -> option (list (str * json)))
        (format_value : json -> str)
        (json_dumps1 json_dumps2 : list (str * str) -> str)
        (stdout stderr : str) (s : client service * fs) :
  (5000 <= Z.of_nat (length stdout))%Z ->
  (5000 <= Z.of_nat (length stderr))%Z ->
  try_comprehensive_fix post target_dir json_loads format_value json_dumps1
                        stdout stderr s
  = try_comprehensive_fix post target_dir json_loads format_value json_dumps2
                          stdout stderr s.
Proof.
  intros O E. unfold try_comprehensive_fix.
  destruct (read_files target_dir
              (firstn 10 (java_files target_dir (snd s))) [] (snd s))
    as [[file_contents|e] t]; [|reflexivity].
  unfold debug_and_fix_errors.
  rewrite (comprehensive_prompt_cut stdout stderr
             (json_dumps1 file_contents) (json_dumps2 file_contents) O E).
  reflexivity.
Qed.

Lemma try_comprehensive_fix_drops_the_files_witness :
  let out := repeat "x"%char (Z.to_nat 5000) in
  let s := (start [Response 500 []],
            [(lit "/t/src/main/java/a/Member.java",
              lit "public class Member {}")]) in
  (5000 <= Z.of_nat (length out))%Z
  /\ try_comprehensive_fix play (lit "/t") (fun _ => None) (fun _ => [])
                           (fun _ => lit "{}") out out s
     = try_comprehensive_fix play (lit "/t") (fun _ => None) (fun _ => [])
                             (fun files =>
                                concat (map (fun kv => fst kv ++ snd kv)
                                            files))
                             out out s.
Proof.
  intros out s.
  assert (L : (5000 <= Z.of_nat (length out))%Z)
    by (unfold out; rewrite repeat_length; lia).
  split; [exact L|].
  exact (try_comprehensive_fix_drops_the_files
           script play (lit "/t") (fun _ => None) (fun _ => [])
           (fun _ => lit "{}")
           (fun files => concat (map (fun kv => fst kv ++ snd kv) files))
           out out s L L).
Defined.

(** ** The sections of a code block *)

Lemma index_of_in (x : str) (xs : list str) :
  In x xs -> exists i, index_of x xs = Some i.
Proof.
  induction xs as [|y xs IH]; intros I; [contradiction|].
  cbn [index_of]. destruct (str_eqb y x) eqn:E.
  - exists 0. reflexivity.
  - destruct I as [I|I].
    + subst y. rewrite str_eqb_refl in E. discriminate E.
    + destruct (IH I) as [i Hi]. exists (S i). rewrite Hi. reflexivity.
Qed.

Lemma code_sections_go_class (lines todo : list str) :
  (forall line, In line todo -> In line lines) ->
  forall (import_section package_section : str) (in_imports : bool),
    let class_section :=
      snd (code_sections_go lines todo import_section package_section
                            in_imports) in
    class_section = []
    \/ exists i line,
         index_of line lines = Some i
         /\ mentions_type line = true
         /\ class_section = join newline (firstn 20 (skipn i lines)).
Proof.
  induction todo as [|line rest IH]; intros Sub imp pkg flag;
    cbn [code_sections_go]; [left; reflexivity|].
  assert (Sub' : forall l, In l rest -> In l lines)
    by (intros l I; apply Sub; right; exact I).
  destruct (startswith (lit "package ") (strip line)); [apply IH, Sub'|].
  destruct (startswith (lit "import ") (strip line)); [apply IH, Sub'|].
  destruct (flag && negb false); [apply IH, Sub'|].
  destruct (mentions_type line) eqn:Mt; [|apply IH, Sub'].
  right. destruct (index_of_in line lines (Sub line (or_introl eq_refl)))
    as [i Hi].
  exists i, line. rewrite Hi. repeat split; assumption.
Qed.

(** X26.  The class section [_extract_code_sections] returns is empty, or
    it is made of at most twenty lines of the code, joined, that start at
    the first line equal to a line that mentions a type: [lines.index]
    always finds its line, so that no [ValueError] is raised, but the
    line it finds may come before the one the loop stopped at. *)
Theorem extract_code_sections_class_section (code : str) :
  snd (extract_code_sections code) = []
  \/ exists i line,
       index_of line (split newline code) = Some i
       /\ mentions_type line = true
       /\ snd (extract_code_sections code)
          = join newline (firstn 20 (skipn i (split newline code))).
Proof.
  unfold extract_code_sections.
  apply (code_sections_go_class (split newline code)
           (firstn 500 (split newline code))).
  intros line I.
  rewrite <- (firstn_skipn 500 (split newline code)).
  apply in_or_app. left. exact I.
Qed.
